(** * nu-pywal: the colour-scheme cache and its batch producer

    A shallow embedding of [pywal/cache.py] (class [AdvancedCache]) and of
    [pywal/parallel.py] (class [ParallelColorProcessor]), with the
    properties the specification states about them.

    Conventions of the embedding.
    - Python [str] values are [string]s of bytes; [.encode()] is the
      identity on them (the modelled texts are ASCII).
    - Python [int] is [Z]; timestamps read from [time.time()] are integers
      (whole seconds); the [float] [st_mtime] of a file is the rational it
      denotes and [int(...)] truncates it towards zero; the colour scores are
      real numbers.
    - The SQLite table [cache_entries] is the list of its rows in rowid
      order; [PRIMARY KEY] makes the keys pairwise distinct.
    - A Python exception is a value of [exn]; a call either returns
      ([Ret]) or raises ([Raise]).
    - [hashlib.sha256] and [hashlib.md5] are the functions of FIPS 180-4
      and RFC 1321, written out below. *)

From Stdlib Require Import ZArith String Ascii List Bool Lia QArith Reals Lra.
From Stdlib Require Import Numbers.DecimalString.
From stdpp Require Import gmap strings list sorting.

Local Open Scope string_scope.
Local Open Scope Z_scope.

(** ** Byte strings *)

Definition bytes_of_string (s : string) : list Z :=
  map (fun c => Z.of_nat (nat_of_ascii c)) (list_ascii_of_string s).

(** [s[:n]] *)
Definition str_take (n : nat) (s : string) : string :=
  string_of_list_ascii (firstn n (list_ascii_of_string s)).

(** [str(n)] for an [int] *)
Definition str_int (n : Z) : string := NilZero.string_of_int (Z.to_int n).

(** [sep.join(parts)] *)
Fixpoint str_join (sep : string) (parts : list string) : string :=
  match parts with
  | [] => ""
  | [p] => p
  | p :: rest => p +:+ sep +:+ str_join sep rest
  end.

Definition hexdigits : list ascii :=
  list_ascii_of_string "0123456789abcdef".

Definition hexchar (n : Z) : ascii :=
  nth (Z.to_nat (Z.land n 15)) hexdigits "0"%char.

Definition is_hex (c : ascii) : bool :=
  existsb (Ascii.eqb c) hexdigits.

Definition hex_byte (b : Z) : list ascii :=
  [hexchar (Z.shiftr b 4); hexchar b].

(** ** The digests of [hashlib] *)

Module Digest.

Definition mask32 (x : Z) : Z := Z.land x 4294967295.
Definition add32 (x y : Z) : Z := mask32 (x + y).
Definition not32 (x : Z) : Z := Z.lxor (mask32 x) 4294967295.
Definition rotr32 (n x : Z) : Z :=
  mask32 (Z.lor (Z.shiftr x n) (Z.shiftl x (32 - n))).
Definition rotl32 (n x : Z) : Z :=
  mask32 (Z.lor (Z.shiftl x n) (Z.shiftr x (32 - n))).

Definition byte_at (i : Z) (x : Z) : Z := Z.land (Z.shiftr x (8 * i)) 255.

(** the 32-bit word of four bytes, most significant first *)
Definition be_word (bs : list Z) : Z :=
  fold_left (fun acc b => acc * 256 + b) bs 0.
Definition le_word (bs : list Z) : Z := be_word (rev bs).

Definition le_bytes8 (x : Z) : list Z :=
  map (fun i => byte_at i x) [0; 1; 2; 3; 4; 5; 6; 7].
Definition be_bytes8 (x : Z) : list Z := rev (le_bytes8 x).

(** zero bytes after the 0x80 marker: the padded text is a multiple of
    64 bytes and ends with the 8-byte bit length *)
Definition pad_zeros (len : nat) : nat :=
  ((64 - (len + 9) mod 64) mod 64)%nat.

Definition padded (len_bytes : Z -> list Z) (m : list Z) : list Z :=
  m ++ [128] ++ repeat 0 (pad_zeros (length m))
    ++ len_bytes (8 * Z.of_nat (length m)).

Fixpoint chunks {A} (fuel k : nat) (l : list A) : list (list A) :=
  match fuel with
  | O => []
  | S fuel' =>
      match l with
      | [] => []
      | _ => firstn k l :: chunks fuel' k (skipn k l)
      end
  end.

Definition blocks (word : list Z -> Z) (bytes : list Z) : list (list Z) :=
  map (fun blk => map word (chunks 16 4 blk))
      (chunks (length bytes) 64 bytes).

(** *** SHA-256 *)

Definition K256 : list Z :=
  [ 1116352408; 1899447441; 3049323471; 3921009573; 961987163; 1508970993;
    2453635748; 2870763221; 3624381080; 310598401; 607225278; 1426881987;
    1925078388; 2162078206; 2614888103; 3248222580; 3835390401; 4022224774;
    264347078; 604807628; 770255983; 1249150122; 1555081692; 1996064986;
    2554220882; 2821834349; 2952996808; 3210313671; 3336571891; 3584528711;
    113926993; 338241895; 666307205; 773529912; 1294757372; 1396182291;
    1695183700; 1986661051; 2177026350; 2456956037; 2730485921; 2820302411;
    3259730800; 3345764771; 3516065817; 3600352804; 4094571909; 275423344;
    430227734; 506948616; 659060556; 883997877; 958139571; 1322822218;
    1537002063; 1747873779; 1955562222; 2024104815; 2227730452; 2361852424;
    2428436474; 2756734187; 3204031479; 3329325298 ].

Record state8 : Type := St8
  { ha : Z; hb : Z; hc : Z; hd : Z; he : Z; hf : Z; hg : Z; hh : Z }.

Definition H256 : state8 :=
  St8 1779033703 3144134277 1013904242 2773480762
      1359893119 2600822924 528734635 1541459225.

Definition Ch (x y z : Z) : Z :=
  Z.lxor (Z.land x y) (Z.land (not32 x) z).
Definition Maj (x y z : Z) : Z :=
  Z.lxor (Z.lxor (Z.land x y) (Z.land x z)) (Z.land y z).
Definition Sigma0 (x : Z) : Z :=
  Z.lxor (Z.lxor (rotr32 2 x) (rotr32 13 x)) (rotr32 22 x).
Definition Sigma1 (x : Z) : Z :=
  Z.lxor (Z.lxor (rotr32 6 x) (rotr32 11 x)) (rotr32 25 x).
Definition sigma0 (x : Z) : Z :=
  Z.lxor (Z.lxor (rotr32 7 x) (rotr32 18 x)) (Z.shiftr x 3).
Definition sigma1 (x : Z) : Z :=
  Z.lxor (Z.lxor (rotr32 17 x) (rotr32 19 x)) (Z.shiftr x 10).

(** the message schedule, newest word first *)
Fixpoint schedule (n : nat) (w : list Z) : list Z :=
  match n with
  | O => w
  | S n' =>
      let at_ i := nth i w 0 in
      schedule n'
        (add32 (add32 (sigma1 (at_ 1%nat)) (at_ 6%nat))
               (add32 (sigma0 (at_ 14%nat)) (at_ 15%nat)) :: w)
  end.

Definition round256 (s : state8) (kw : Z * Z) : state8 :=
  let t1 := add32 (add32 (add32 (hh s) (Sigma1 (he s)))
                         (add32 (Ch (he s) (hf s) (hg s)) (fst kw)))
                  (snd kw) in
  let t2 := add32 (Sigma0 (ha s)) (Maj (ha s) (hb s) (hc s)) in
  St8 (add32 t1 t2) (ha s) (hb s) (hc s)
      (add32 (hd s) t1) (he s) (hf s) (hg s).

Definition compress256 (h : state8) (blk : list Z) : state8 :=
  let w := rev (schedule 48 (rev blk)) in
  let s := fold_left round256 (combine K256 w) h in
  St8 (add32 (ha h) (ha s)) (add32 (hb h) (hb s))
      (add32 (hc h) (hc s)) (add32 (hd h) (hd s))
      (add32 (he h) (he s)) (add32 (hf h) (hf s))
      (add32 (hg h) (hg s)) (add32 (hh h) (hh s)).

Definition sha256_state (m : list Z) : state8 :=
  fold_left compress256 (blocks be_word (padded be_bytes8 m)) H256.

Definition hex_be (x : Z) : list ascii :=
  hex_byte (byte_at 3 x) ++ hex_byte (byte_at 2 x)
    ++ hex_byte (byte_at 1 x) ++ hex_byte (byte_at 0 x).
Definition hex_le (x : Z) : list ascii :=
  hex_byte (byte_at 0 x) ++ hex_byte (byte_at 1 x)
    ++ hex_byte (byte_at 2 x) ++ hex_byte (byte_at 3 x).

(** [hashlib.sha256(m).hexdigest()] *)
Definition sha256_hexdigest (m : string) : string :=
  let s := sha256_state (bytes_of_string m) in
  string_of_list_ascii
    (hex_be (ha s) ++ hex_be (hb s) ++ hex_be (hc s) ++ hex_be (hd s)
     ++ hex_be (he s) ++ hex_be (hf s) ++ hex_be (hg s) ++ hex_be (hh s)).

(** *** MD5 *)

Definition T5 : list Z :=
  [ 3614090360; 3905402710; 606105819; 3250441966; 4118548399; 1200080426;
    2821735955; 4249261313; 1770035416; 2336552879; 4294925233; 2304563134;
    1804603682; 4254626195; 2792965006; 1236535329; 4129170786; 3225465664;
    643717713; 3921069994; 3593408605; 38016083; 3634488961; 3889429448;
    568446438; 3275163606; 4107603335; 1163531501; 2850285829; 4243563512;
    1735328473; 2368359562; 4294588738; 2272392833; 1839030562; 4259657740;
    2763975236; 1272893353; 4139469664; 3200236656; 681279174; 3936430074;
    3572445317; 76029189; 3654602809; 3873151461; 530742520; 3299628645;
    4096336452; 1126891415; 2878612391; 4237533241; 1700485571; 2399980690;
    4293915773; 2240044497; 1873313359; 4264355552; 2734768916; 1309151649;
    4149444226; 3174756917; 718787259; 3951481745 ].

Definition S5 : list Z :=
  [ 7; 12; 17; 22; 7; 12; 17; 22; 7; 12; 17; 22; 7; 12; 17; 22;
    5; 9; 14; 20; 5; 9; 14; 20; 5; 9; 14; 20; 5; 9; 14; 20;
    4; 11; 16; 23; 4; 11; 16; 23; 4; 11; 16; 23; 4; 11; 16; 23;
    6; 10; 15; 21; 6; 10; 15; 21; 6; 10; 15; 21; 6; 10; 15; 21 ].

Record state4 : Type := St4 { ma : Z; mb : Z; mc : Z; md : Z }.

Definition H5 : state4 := St4 1732584193 4023233417 2562383102 271733878.

Definition round5 (blk : list Z) (s : state4) (i : nat) : state4 :=
  let B := mb s in let C := mc s in let D := md s in
  let iz := Z.of_nat i in
  let '(fn, g) :=
    if iz <? 16 then (Z.lor (Z.land B C) (Z.land (not32 B) D), iz)
    else if iz <? 32 then
      (Z.lor (Z.land D B) (Z.land (not32 D) C), (5 * iz + 1) mod 16)
    else if iz <? 48 then (Z.lxor (Z.lxor B C) D, (3 * iz + 5) mod 16)
    else (Z.lxor C (Z.lor B (not32 D)), (7 * iz) mod 16) in
  let sum := add32 (add32 fn (ma s))
                   (add32 (nth i T5 0) (nth (Z.to_nat g) blk 0)) in
  St4 D (add32 B (rotl32 (nth i S5 0) sum)) B C.

Definition compress5 (h : state4) (blk : list Z) : state4 :=
  let s := fold_left (round5 blk) (seq 0 64) h in
  St4 (add32 (ma h) (ma s)) (add32 (mb h) (mb s))
      (add32 (mc h) (mc s)) (add32 (md h) (md s)).

Definition md5_state (m : list Z) : state4 :=
  fold_left compress5 (blocks le_word (padded le_bytes8 m)) H5.

(** [hashlib.md5(m).hexdigest()] *)
Definition md5_hexdigest (m : string) : string :=
  let s := md5_state (bytes_of_string m) in
  string_of_list_ascii
    (hex_le (ma s) ++ hex_le (mb s) ++ hex_le (mc s) ++ hex_le (md s)).

End Digest.

(** ** Image files and the key generator ([AdvancedCache.generate_cache_key]) *)

(** What [os.stat] and [open(..., "rb")] see of an image path.  [im_bytes]
    is [None] when the path can be statted but [open] or [read] raises
    [OSError] (a directory, a file without read permission). *)
Record ImageFile : Type := MkImage
  { st_size : Z;
    st_mtime : Q;
    im_bytes : option string }.

(** [int(x)] for a float [x]: truncation towards zero *)
Definition int_of_float (x : Q) : Z := Z.quot (Qnum x) (Zpos (Qden x)).

(** [s[n:]]: what [read] returns of a file of bytes [s] once [seek] has
    put the position at [n] *)
Definition str_drop (n : nat) (s : string) : string :=
  string_of_list_ascii (skipn n (list_ascii_of_string s)).

Definition default_chunk_size : nat := Z.to_nat 8192.

Section KeyGenerator.

(** [settings.__cache_version__]; the module [settings] is outside the
    modelled modules, so the constant is a parameter. *)
Variable cache_version : string.

Variable images : gmap string ImageFile.

(** [os.stat(path)]: [None] stands for [OSError]. *)
Definition os_stat (path : string) : option (Z * Q) :=
  (fun f => (st_size f, st_mtime f)) <$> images !! path.

(** [open(path, "rb")] and reading it whole: [None] stands for [OSError]. *)
Definition read_bytes (path : string) : option string :=
  images !! path ≫= im_bytes.

Definition _get_image_hash (img_path : string) (chunk_size : nat) : string :=
  match read_bytes img_path with
  | None => "unknown"
  | Some data =>
      (* chunk = f.read(chunk_size); f.tell() is then len(chunk) *)
      let first := str_take chunk_size data in
      let tell := String.length first in
      (* f.seek(-min(chunk_size, f.tell()), 2); chunk = f.read(chunk_size) *)
      let back := Nat.min chunk_size tell in
      let last := str_take chunk_size
                    (str_drop (String.length data - back) data) in
      (* update() with an empty chunk is skipped and would add nothing *)
      str_take 12 (Digest.md5_hexdigest (first +:+ last))
  end.

(** ["light" if light else "dark"] *)
Definition light_tag (light : bool) : string :=
  if light then "light" else "dark".

(** [sat or "0"] *)
Definition sat_or_default (sat : string) : string :=
  if String.eqb sat "" then "0" else sat.

(** [str(light)] inside the f-string of the fallback *)
Definition str_bool (b : bool) : string := if b then "True" else "False".

Definition key_components (img_path backend : string) (light : bool)
    (sat : string) (file_size : Z) (file_mtime : Q) : list string :=
  [ _get_image_hash img_path default_chunk_size;
    backend;
    light_tag light;
    sat_or_default sat;
    str_int file_size;
    str_int (int_of_float file_mtime);
    cache_version ].

(** [f"{img_path}_{backend}_{light}_{sat}"] *)
Definition fallback_text (img_path backend : string) (light : bool)
    (sat : string) : string :=
  img_path +:+ "_" +:+ backend +:+ "_" +:+ str_bool light +:+ "_" +:+ sat.

Definition generate_cache_key (img_path backend : string) (light : bool)
    (sat : string) : string :=
  match os_stat img_path with
  | Some (file_size, file_mtime) =>
      let cache_key :=
        str_join "_"
          (key_components img_path backend light sat file_size file_mtime) in
      str_take 16 (Digest.sha256_hexdigest cache_key)
  | None =>
      str_take 16
        (Digest.md5_hexdigest (fallback_text img_path backend light sat))
  end.

End KeyGenerator.


(** ** Exceptions *)

Inductive exn : Type :=
| OSError
| BadGzipFile          (* gzip.BadGzipFile, a subclass of OSError *)
| ValueError
| JSONDecodeError      (* json.JSONDecodeError, a subclass of ValueError *)
| UnicodeDecodeError   (* a subclass of ValueError *)
| EOFError             (* gzip: the stream ends before its end marker *)
| ZlibError            (* zlib.error: invalid compressed data *)
| TypeError
| RecursionError
| ZeroDivisionError
| SqliteError          (* sqlite3.Error and its subclasses *)
| SystemExit.          (* raised by [sys.exit]; derives from
                          [BaseException], not from [Exception] *)

#[global] Instance exn_eq_dec : EqDecision exn.
Proof. solve_decision. Defined.

Definition exn_parent (e : exn) : option exn :=
  match e with
  | BadGzipFile => Some OSError
  | JSONDecodeError | UnicodeDecodeError => Some ValueError
  | _ => None
  end.

(** [isinstance(e, cls)] *)
Definition isinstance (e cls : exn) : bool :=
  bool_decide (e = cls)
  || match exn_parent e with
     | Some p => bool_decide (p = cls)
     | None => false
     end.

(** an [except (c1, ..., cn)] clause takes [e] *)
Definition except (classes : list exn) (e : exn) : bool :=
  existsb (isinstance e) classes.

(** [except Exception] takes [e]: every exception above derives from
    [Exception] but [SystemExit] *)
Definition is_exception (e : exn) : bool :=
  negb (bool_decide (e = SystemExit)).

Inductive result (A : Type) : Type :=
| Ret (a : A)
| Raise (e : exn).
Arguments Ret {A} a.
Arguments Raise {A} e.

(** ** The cache: rows, statistics, files *)

Module CacheEntry.
Record t : Type := Make
  { key : string;
    file_path : string;
    size : Z;
    created_time : Z;
    last_accessed : Z;
    access_count : Z;
    backend : string;
    image_hash : string;
    compressed : bool }.

Definition touch (now count : Z) (e : t) : t :=
  Make (key e) (file_path e) (size e) (created_time e) now count
       (backend e) (image_hash e) (compressed e).
End CacheEntry.

Module CacheStats.
Record t : Type := Make
  { total_entries : Z;
    total_size : Z;
    hit_count : Z;
    miss_count : Z;
    cleanup_count : Z;
    compression_saved : Z;
    avg_access_time : Q;
    most_accessed : list (string * Z);
    backend_usage : gmap string Z }.

(** [CacheStats()] *)
Definition fresh : t := Make 0 0 0 0 0 0 0%Q [] ∅.

(** [stats.miss_count += 1] *)
Definition miss (s : t) : t :=
  Make (total_entries s) (total_size s) (hit_count s) (miss_count s + 1)
       (cleanup_count s) (compression_saved s) (avg_access_time s)
       (most_accessed s) (backend_usage s).

(** [stats.hit_count += 1] and
    [stats.avg_access_time = (stats.avg_access_time + elapsed) / 2] *)
Definition hit (elapsed : Z) (s : t) : t :=
  Make (total_entries s) (total_size s) (hit_count s + 1) (miss_count s)
       (cleanup_count s) (compression_saved s)
       (Qdiv (Qplus (avg_access_time s) (inject_Z elapsed)) (2 # 1))
       (most_accessed s) (backend_usage s).

(** the three updates at the end of a successful [put] *)
Definition stored (st_size saved : Z) (s : t) : t :=
  Make (total_entries s + 1) (total_size s + st_size) (hit_count s)
       (miss_count s) (cleanup_count s) (compression_saved s + saved)
       (avg_access_time s) (most_accessed s) (backend_usage s).

(** [stats.cleanup_count += n] *)
Definition cleaned (n : Z) (s : t) : t :=
  Make (total_entries s) (total_size s) (hit_count s) (miss_count s)
       (cleanup_count s + n) (compression_saved s) (avg_access_time s)
       (most_accessed s) (backend_usage s).

(** the four assignments of [get_analytics] *)
Definition refreshed (count total : Z) (top : list (string * Z))
    (usage : gmap string Z) (s : t) : t :=
  Make count total (hit_count s) (miss_count s) (cleanup_count s)
       (compression_saved s) (avg_access_time s) top usage.
End CacheStats.

(** What a file under [schemes_dir] holds.  [Stored gz doc] is what [put]
    wrote: the JSON text of [doc], gzip-compressed when [gz].  [Damaged e]
    is a file whose loading raises [e]: [OSError] (unreadable),
    [JSONDecodeError] (not a JSON text), [BadGzipFile] (no gzip header, bad
    checksum), [EOFError] (a gzip stream cut short), [ZlibError] (invalid
    compressed data), [UnicodeDecodeError] (bytes that are not UTF-8). *)
Inductive FileBody (Data : Type) : Type :=
| Stored (gz : bool) (doc : Data)
| Damaged (e : exn).
Arguments Stored {Data} gz doc.
Arguments Damaged {Data} e.

(** [unlink_raises]: [os.unlink] of the path raises [OSError]. *)
Record SchemeFile (Data : Type) : Type := MkFile
  { body : FileBody Data;
    unlink_raises : bool }.
Arguments MkFile {Data} body unlink_raises.
Arguments body {Data} s.
Arguments unlink_raises {Data} s.

(** The [AdvancedCache] object with the database and the directory it
    works on.  [db_up = false]: [sqlite3.connect] (or the first statement)
    raises [sqlite3.Error]. *)
Record AdvancedCache (Data : Type) : Type := MkCache
  { schemes_dir : string;
    stats : CacheStats.t;
    db_up : bool;
    entries : list CacheEntry.t;
    files : gmap string (SchemeFile Data);
    images : gmap string ImageFile }.
Arguments MkCache {Data} schemes_dir stats db_up entries files images.
Arguments schemes_dir {Data} a.
Arguments stats {Data} a.
Arguments db_up {Data} a.
Arguments entries {Data} a.
Arguments files {Data} a.
Arguments images {Data} a.

(** *** SQL over the list of rows *)

(** [ORDER BY access_count DESC, last_accessed DESC] *)
Definition most_accessed_first (a b : CacheEntry.t) : Prop :=
  CacheEntry.access_count b < CacheEntry.access_count a
  ∨ (CacheEntry.access_count a = CacheEntry.access_count b
     ∧ CacheEntry.last_accessed b <= CacheEntry.last_accessed a).

(** [ORDER BY last_accessed ASC, access_count ASC] *)
Definition oldest_first (a b : CacheEntry.t) : Prop :=
  CacheEntry.last_accessed a < CacheEntry.last_accessed b
  ∨ (CacheEntry.last_accessed a = CacheEntry.last_accessed b
     ∧ CacheEntry.access_count a <= CacheEntry.access_count b).

(** [ORDER BY last_accessed DESC] *)
Definition recent_first (a b : CacheEntry.t) : Prop :=
  CacheEntry.last_accessed b <= CacheEntry.last_accessed a.

(** [ORDER BY access_count DESC] *)
Definition busiest_first (a b : CacheEntry.t) : Prop :=
  CacheEntry.access_count b <= CacheEntry.access_count a.

#[global] Instance most_accessed_first_dec : RelDecision most_accessed_first.
Proof. intros a b. unfold most_accessed_first. solve_decision. Defined.
#[global] Instance oldest_first_dec : RelDecision oldest_first.
Proof. intros a b. unfold oldest_first. solve_decision. Defined.
#[global] Instance recent_first_dec : RelDecision recent_first.
Proof. intros a b. unfold recent_first. solve_decision. Defined.
#[global] Instance busiest_first_dec : RelDecision busiest_first.
Proof. intros a b. unfold busiest_first. solve_decision. Defined.

(** [LIMIT n]: SQLite reads a negative limit as no limit. *)
Definition sql_limit {A} (n : Z) (rows : list A) : list A :=
  if n <? 0 then rows else take (Z.to_nat n) rows.

(** [SELECT ... WHERE key = ?] followed by [fetchone()] *)
Definition select_by_key (k : string) (rows : list CacheEntry.t)
    : option CacheEntry.t :=
  find (fun e => String.eqb (CacheEntry.key e) k) rows.

(** [DELETE FROM cache_entries WHERE key = ?] *)
Definition delete_by_key (k : string) (rows : list CacheEntry.t)
    : list CacheEntry.t :=
  List.filter (fun e => negb (String.eqb (CacheEntry.key e) k)) rows.

(** [UPDATE cache_entries SET last_accessed = ?, access_count = ?
    WHERE key = ?] *)
Definition update_access (k : string) (now count : Z)
    (rows : list CacheEntry.t) : list CacheEntry.t :=
  map (fun e => if String.eqb (CacheEntry.key e) k
                then CacheEntry.touch now count e else e) rows.

(** [INSERT OR REPLACE INTO cache_entries ...] *)
Definition insert_or_replace (e : CacheEntry.t) (rows : list CacheEntry.t)
    : list CacheEntry.t :=
  delete_by_key (CacheEntry.key e) rows ++ [e].

(** [SELECT SUM(size)] with [or 0] applied to its [NULL] *)
Definition sum_size (rows : list CacheEntry.t) : Z :=
  foldr (fun e acc => CacheEntry.size e + acc) 0 rows.

(** [SELECT COUNT( * )] *)
Definition count_rows (rows : list CacheEntry.t) : Z :=
  Z.of_nat (length rows).

(** [os.path.join(a, b)] on POSIX paths *)
Definition os_path_join (a b : string) : string :=
  if String.prefix "/" b then b
  else if String.eqb a "" then b
  else if String.eqb (str_drop (String.length a - 1) a) "/" then a +:+ b
  else a +:+ "/" +:+ b.

(** ** The operations of [AdvancedCache] *)

(** What the file system does with the write that [put] attempts.
    [Written st_size uncompressed_size]: the document is on disk,
    [os.stat(cache_file).st_size] is [st_size] and
    [len(json.dumps(data, indent=2))] is [uncompressed_size].
    [WriteFailed e partial]: [open], [json.dump] or [os.stat] raised [e];
    [partial] tells whether [cache_file] was created or truncated before
    that, which leaves an incomplete document behind. *)
Inductive put_io : Type :=
| Written (st_size uncompressed_size : Z)
| WriteFailed (e : exn) (partial : bool).

Section Store.

Context {Data : Type}.

Definition with_stats (f : CacheStats.t -> CacheStats.t)
    (c : AdvancedCache Data) : AdvancedCache Data :=
  MkCache (schemes_dir c) (f (stats c)) (db_up c) (entries c) (files c)
          (images c).

Definition with_entries (rows : list CacheEntry.t)
    (c : AdvancedCache Data) : AdvancedCache Data :=
  MkCache (schemes_dir c) (stats c) (db_up c) rows (files c) (images c).

Definition with_files (fs : gmap string (SchemeFile Data))
    (c : AdvancedCache Data) : AdvancedCache Data :=
  MkCache (schemes_dir c) (stats c) (db_up c) (entries c) fs (images c).

(** the file at [path], when [os.path.exists(path)] *)
Definition existing_file (c : AdvancedCache Data) (path : string)
    : option (SchemeFile Data) :=
  if String.eqb path "" then None else files c !! path.

(** [gzip.open(path, "rt")] or [open(path)], then [json.load]: a plain
    file read as gzip has no gzip header, a gzip file read as text is not
    UTF-8. *)
Definition load_file (compressed : bool) (f : SchemeFile Data) : result Data :=
  match body f with
  | Stored gz doc =>
      if Bool.eqb gz compressed then Ret doc
      else if compressed then Raise BadGzipFile
      else Raise UnicodeDecodeError
  | Damaged e => Raise e
  end.

(** [_remove_entry(key, file_path="")]: an [OSError] of [os.unlink] leaves
    the [with] block of the connection, which rolls the [DELETE] back. *)
Definition _remove_entry (key file_path : string) (c : AdvancedCache Data)
    : bool * AdvancedCache Data :=
  if negb (db_up c) then (false, c)
  else
    let file_path :=
      if String.eqb file_path "" then
        match select_by_key key (entries c) with
        | Some row => CacheEntry.file_path row
        | None => ""
        end
      else file_path in
    let rows := delete_by_key key (entries c) in
    match existing_file c file_path with
    | None => (true, with_entries rows c)
    | Some f =>
        if unlink_raises f then (false, c)
        else (true, with_files (delete file_path (files c))
                      (with_entries rows c))
    end.

(** [get(cache_key)]; the parameters [img_path] and [backend] of the
    source are not used by its body.  The three times are the values of
    the three calls of [time.time()].  The database answers every
    statement or fails at [connect] ([db_up]); a statement or a commit
    that fails later is not modelled. *)
Definition get (start_time current_time end_time : Z) (cache_key : string)
    (c : AdvancedCache Data) : result (option Data) * AdvancedCache Data :=
  if negb (db_up c) then (Ret None, with_stats CacheStats.miss c)
  else
    match select_by_key cache_key (entries c) with
    | None => (Ret None, with_stats CacheStats.miss c)
    | Some row =>
        match existing_file c (CacheEntry.file_path row) with
        | None =>
            let c1 := snd (_remove_entry cache_key "" c) in
            (Ret None, with_stats CacheStats.miss c1)
        | Some f =>
            match load_file (CacheEntry.compressed row) f with
            | Ret data =>
                let rows :=
                  update_access cache_key current_time
                    (CacheEntry.access_count row + 1) (entries c) in
                (Ret (Some data),
                 with_stats (CacheStats.hit (end_time - start_time))
                   (with_entries rows c))
            | Raise e =>
                if except [OSError; JSONDecodeError; BadGzipFile] e then
                  let c1 := snd (_remove_entry cache_key "" c) in
                  (Ret None, with_stats CacheStats.miss c1)
                else (Raise e, c)
            end
        end
    end.

Definition cache_file_name (c : AdvancedCache Data) (cache_key : string)
    (compress : bool) : string :=
  os_path_join (schemes_dir c) (cache_key +:+ ".json")
    +:+ (if compress then ".gz" else "").

Definition put (current_time : Z) (io : put_io) (cache_key : string)
    (data : Data) (img_path backend : string) (compress : bool)
    (c : AdvancedCache Data) : result bool * AdvancedCache Data :=
  let cache_file := cache_file_name c cache_key compress in
  match io with
  | WriteFailed e partial =>
      let c1 :=
        if partial then
          with_files
            (<[cache_file := MkFile (Damaged JSONDecodeError) false]> (files c))
            c
        else c in
      if except [OSError; SqliteError; BadGzipFile; TypeError; ValueError] e
      then (Ret false, c1)
      else (Raise e, c1)
  | Written st_size uncompressed_size =>
      let c1 :=
        with_files
          (<[cache_file := MkFile (Stored compress data) false]> (files c)) c in
      let image_hash :=
        if String.eqb img_path "" then ""
        else _get_image_hash (images c) img_path default_chunk_size in
      if negb (db_up c) then (Ret false, c1)
      else
        let row :=
          CacheEntry.Make cache_key cache_file st_size current_time
            current_time 0 backend image_hash compress in
        let saved :=
          if compress then Z.max 0 (uncompressed_size - st_size) else 0 in
        (Ret true,
         with_stats (CacheStats.stored st_size saved)
           (with_entries (insert_or_replace row (entries c1)) c1))
  end.

(** What a [SELECT ... ORDER BY] may return of [rows]: every row once, in
    an order that respects [R].  SQLite leaves the order of rows that tie
    open. *)
Definition ordered_by (R : relation CacheEntry.t)
    (rows result : list CacheEntry.t) : Prop :=
  rows ≡ₚ result ∧ StronglySorted R result.

(** [WHERE key NOT IN (SELECT key ... LIMIT ?)], where [ranked] is what
    the inner query returns before its [LIMIT] *)
Definition unprotected (keep_most_accessed : Z)
    (ranked rows : list CacheEntry.t) : list CacheEntry.t :=
  List.filter
    (fun e => negb (bool_decide
                      (CacheEntry.key e
                       ∈ map CacheEntry.key
                           (sql_limit keep_most_accessed ranked))))
    rows.

(** the rows of [SELECT key FROM cache_entries ORDER BY access_count DESC,
    last_accessed DESC LIMIT ?], with the ties in the order a stable merge
    sort leaves them: one of the results the query may have *)
Definition protected_rows (keep_most_accessed : Z)
    (rows : list CacheEntry.t) : list CacheEntry.t :=
  sql_limit keep_most_accessed (merge_sort most_accessed_first rows).

Definition protected_keys (keep_most_accessed : Z)
    (rows : list CacheEntry.t) : list string :=
  map CacheEntry.key (protected_rows keep_most_accessed rows).

(** the candidates for cleanup: [WHERE key NOT IN (...)
    ORDER BY last_accessed ASC, access_count ASC], again with the ties as
    a merge sort leaves them *)
Definition cleanup_candidates (keep_most_accessed : Z)
    (rows : list CacheEntry.t) : list CacheEntry.t :=
  merge_sort oldest_first
    (List.filter
       (fun e => negb (bool_decide
                         (CacheEntry.key e
                          ∈ protected_keys keep_most_accessed rows)))
       rows).

(** one turn of the loop of [cleanup]; the state of the loop is the
    cache, [cleanup_count] and [size_freed] *)
Definition cleanup_step (current_time max_age_seconds max_size_bytes
    total_size : Z) (acc : AdvancedCache Data * Z * Z) (row : CacheEntry.t)
    : AdvancedCache Data * Z * Z :=
  let '(c, cleanup_count, size_freed) := acc in
  let should_remove :=
    if max_age_seconds <? current_time - CacheEntry.last_accessed row
    then true
    else if max_size_bytes <? total_size - size_freed then true
    else false in
  if should_remove then
    let '(removed, c1) :=
      _remove_entry (CacheEntry.key row) (CacheEntry.file_path row) c in
    if removed
    then (c1, cleanup_count + 1, size_freed + CacheEntry.size row)
    else (c1, cleanup_count, size_freed)
  else acc.

(** [cleanup(max_size_mb, max_age_days, keep_most_accessed)], where
    [candidates] is what [cursor.fetchall()] returns of the query for
    the candidates, which carries [keep_most_accessed] *)
Definition cleanup_with (candidates : list CacheEntry.t)
    (current_time max_size_mb max_age_days : Z) (c : AdvancedCache Data)
    : Z * AdvancedCache Data :=
  let max_age_seconds := max_age_days * 24 * 3600 in
  let max_size_bytes := max_size_mb * 1024 * 1024 in
  if negb (db_up c) then (0, c)
  else
    let total_size := sum_size (entries c) in
    let total_entries := count_rows (entries c) in
    if (total_size <=? max_size_bytes) && (total_entries <? 1000) then (0, c)
    else
      let '(c1, cleanup_count, _) :=
        fold_left
          (cleanup_step current_time max_age_seconds max_size_bytes total_size)
          candidates (c, 0, 0) in
      (cleanup_count, with_stats (CacheStats.cleaned cleanup_count) c1).

(** [cleanup] over a database that orders ties as a merge sort does *)
Definition cleanup (current_time max_size_mb max_age_days
    keep_most_accessed : Z) (c : AdvancedCache Data)
    : Z * AdvancedCache Data :=
  cleanup_with (cleanup_candidates keep_most_accessed (entries c))
    current_time max_size_mb max_age_days c.

(** [SELECT image_hash, COUNT( * ) ... WHERE image_hash != ''
    GROUP BY image_hash HAVING count > 1] *)
Definition duplicated_hashes (rows : list CacheEntry.t) : list string :=
  remove_dups
    (List.filter
       (fun h =>
          negb (String.eqb h "")
          && (1 <? Z.of_nat
                     (length (List.filter
                                (fun e => String.eqb (CacheEntry.image_hash e) h)
                                rows))))
       (map CacheEntry.image_hash rows)).

(** [SELECT key, file_path, last_accessed ... WHERE image_hash = ?
    ORDER BY last_accessed DESC], the rows that tie in the order a merge
    sort leaves them (SQLite leaves it open) *)
Definition rows_of_hash (h : string) (rows : list CacheEntry.t)
    : list CacheEntry.t :=
  merge_sort recent_first
    (List.filter (fun e => String.eqb (CacheEntry.image_hash e) h) rows).

Definition dedup_remove (acc : AdvancedCache Data * Z) (row : CacheEntry.t)
    : AdvancedCache Data * Z :=
  let '(c, duplicates_removed) := acc in
  let '(removed, c1) :=
    _remove_entry (CacheEntry.key row) (CacheEntry.file_path row) c in
  if removed then (c1, duplicates_removed + 1) else (c1, duplicates_removed).

(** the body of the outer loop: [entries[1:]] are removed *)
Definition dedup_group (acc : AdvancedCache Data * Z) (h : string)
    : AdvancedCache Data * Z :=
  fold_left dedup_remove (tail (rows_of_hash h (entries (fst acc)))) acc.

Definition deduplicate (c : AdvancedCache Data) : Z * AdvancedCache Data :=
  if negb (db_up c) then (0, c)
  else
    let '(c1, duplicates_removed) :=
      fold_left dedup_group (duplicated_hashes (entries c)) (c, 0) in
    (duplicates_removed, c1).

(** [SELECT backend, COUNT( * ) ... GROUP BY backend] as a [dict] *)
Definition usage_by_backend (rows : list CacheEntry.t) : gmap string Z :=
  foldr (fun e m =>
           <[CacheEntry.backend e :=
               default 0 (m !! CacheEntry.backend e) + 1]> m)
        ∅ rows.

Definition get_analytics (c : AdvancedCache Data)
    : CacheStats.t * AdvancedCache Data :=
  if negb (db_up c) then (stats c, c)
  else
    let top :=
      map (fun e => (CacheEntry.key e, CacheEntry.access_count e))
          (sql_limit 10 (merge_sort busiest_first (entries c))) in
    let s :=
      CacheStats.refreshed (count_rows (entries c)) (sum_size (entries c))
        top (usage_by_backend (entries c)) (stats c) in
    (s, with_stats (fun _ => s) c).

(** [shutil.rmtree] walks the directory and stops at the first file it
    cannot unlink. *)
Fixpoint rmtree_walk (listing : list (string * SchemeFile Data))
    (fs : gmap string (SchemeFile Data))
    : bool * gmap string (SchemeFile Data) :=
  match listing with
  | [] => (true, fs)
  | (path, f) :: rest =>
      if unlink_raises f then (false, fs)
      else rmtree_walk rest (delete path fs)
  end.

Definition clear_all (c : AdvancedCache Data) : bool * AdvancedCache Data :=
  let '(walked, fs) := rmtree_walk (map_to_list (files c)) (files c) in
  let c1 := with_files fs c in
  if negb walked then (false, c1)
  else if negb (db_up c) then (false, c1)
  else (true, MkCache (schemes_dir c) CacheStats.fresh (db_up c) [] fs
                (images c)).

(** One step of a history of the cache: a call of a public operation, or
    a change made from outside (the database becomes unreachable or
    reachable again, files appear or vanish); no other process writes the
    table. *)
Inductive op : Type :=
| OpGet (start_time current_time end_time : Z) (cache_key : string)
| OpPut (current_time : Z) (io : put_io) (cache_key : string) (data : Data)
    (img_path backend : string) (compress : bool)
| OpCleanup (current_time max_size_mb max_age_days keep_most_accessed : Z)
| OpDeduplicate
| OpAnalytics
| OpClearAll
| OpOutside (up : bool) (fs : gmap string (SchemeFile Data))
    (imgs : gmap string ImageFile).

Definition run (o : op) (c : AdvancedCache Data) : AdvancedCache Data :=
  match o with
  | OpGet t0 t1 t2 k => snd (get t0 t1 t2 k c)
  | OpPut t io k data img b z => snd (put t io k data img b z c)
  | OpCleanup t mb days keep => snd (cleanup t mb days keep c)
  | OpDeduplicate => snd (deduplicate c)
  | OpAnalytics => snd (get_analytics c)
  | OpClearAll => snd (clear_all c)
  | OpOutside up fs imgs =>
      MkCache (schemes_dir c) (stats c) up (entries c) fs imgs
  end.

Definition run_all (history : list op) (c : AdvancedCache Data)
    : AdvancedCache Data :=
  fold_left (fun c o => run o c) history c.

End Store.

(** ** The batch producer ([ParallelColorProcessor]) *)

Module ProcStats.
(** the [stats] dictionary of the processor *)
Record t : Type := Make
  { images_processed : Z;
    cache_hits : Z;
    cache_misses : Z;
    total_time : Z;
    backend_attempts : gmap string Z;
    backend_successes : gmap string Z }.

Definition fresh : t := Make 0 0 0 0 ∅ ∅.

(** [d[k] += 1] on a [defaultdict(int)] *)
Definition bump (k : string) (d : gmap string Z) : gmap string Z :=
  <[k := default 0 (d !! k) + 1]> d.

Definition attempt (b : string) (s : t) : t :=
  Make (images_processed s) (cache_hits s) (cache_misses s) (total_time s)
       (bump b (backend_attempts s)) (backend_successes s).
Definition success (b : string) (s : t) : t :=
  Make (images_processed s) (cache_hits s) (cache_misses s) (total_time s)
       (backend_attempts s) (bump b (backend_successes s)).
Definition hit (s : t) : t :=
  Make (images_processed s) (cache_hits s + 1) (cache_misses s)
       (total_time s) (backend_attempts s) (backend_successes s).
Definition miss (s : t) : t :=
  Make (images_processed s) (cache_hits s) (cache_misses s + 1)
       (total_time s) (backend_attempts s) (backend_successes s).
Definition processed (s : t) : t :=
  Make (images_processed s + 1) (cache_hits s) (cache_misses s)
       (total_time s) (backend_attempts s) (backend_successes s).
Definition timed (elapsed : Z) (s : t) : t :=
  Make (images_processed s) (cache_hits s) (cache_misses s)
       (total_time s + elapsed) (backend_attempts s) (backend_successes s).
End ProcStats.

Section Processor.

Context {Data : Type}.

(** The module [colors], [settings.CACHE_DIR] and the file system are
    outside the modelled modules: the processor is modelled over them.
    The tasks are run one after the other, in the order in which their
    futures complete.
    [truthy] is the truth value Python gives a returned scheme. *)
Variable truthy : Data -> bool.
Variable CACHE_DIR : string.
Variable list_backends : list string.
Variable cache_fname :
  string -> string -> bool -> string -> string -> result (list string).
Variable isfile : string -> bool.
Variable colors_file : string -> result Data.
Variable colors_get : string -> bool -> string -> string -> string -> result Data.

(** The order in which [concurrent.futures.as_completed] hands the
    futures back: some rearrangement of the submitted tasks. *)
Variable as_completed : list string -> list string.

(** [os.path.join( *parts)] *)
Definition join_parts (parts : list string) : result string :=
  match parts with
  | [] => Raise TypeError
  | p :: rest => Ret (fold_left os_path_join rest p)
  end.

(** the body of the [try] in [_process_single_image], for one backend:
    what it returns or raises, and the counters it leaves *)
Definition try_backend (img_path : string) (light : bool) (sat : string)
    (backend : string) (st : ProcStats.t) : result Data * ProcStats.t :=
  let st := ProcStats.attempt backend st in
  match cache_fname img_path backend light CACHE_DIR sat with
  | Raise e => (Raise e, st)
  | Ret cache_name =>
      match join_parts cache_name with
      | Raise e => (Raise e, st)
      | Ret cache_file =>
          if isfile cache_file then
            (colors_file cache_file, ProcStats.hit st)
          else
            let st := ProcStats.miss st in
            match colors_get img_path light backend CACHE_DIR sat with
            | Ret r => (Ret r, ProcStats.success backend st)
            | Raise e => (Raise e, st)
            end
      end
  end.

(** [except Exception: continue] goes on to the next backend; an
    exception that is no [Exception] ([SystemExit], with which [colors.get]
    gives up) leaves the function. *)
Fixpoint _process_single_image (img_path : string) (light : bool)
    (backends : list string) (sat : string) (st : ProcStats.t)
    : result (option Data) * ProcStats.t :=
  match backends with
  | [] => (Ret None, st)
  | backend :: rest =>
      match try_backend img_path light sat backend st with
      | (Ret r, st1) => (Ret (Some r), st1)
      | (Raise e, st1) =>
          if is_exception e
          then _process_single_image img_path light rest sat st1
          else (Raise e, st1)
      end
  end.

(** One future, in the order of completion.  Its task has run in any
    case (the executor waits for every submitted task before the [with]
    block is left), so its counters count; [future.result()] is looked at
    unless an exception has already left the loop.  [future.result()]
    raises what the task raised, and [except Exception] of the loop lets
    through what is no [Exception]. *)
Definition collect (light : bool) (backends : list string) (sat : string)
    (acc : result (gmap string Data) * ProcStats.t) (img_path : string)
    : result (gmap string Data) * ProcStats.t :=
  let '(collected, st) := acc in
  let '(outcome, st1) :=
    _process_single_image img_path light backends sat st in
  match collected with
  | Raise e => (Raise e, st1)
  | Ret results =>
      match outcome with
      | Ret (Some r) =>
          if truthy r
          then (Ret (<[img_path := r]> results), ProcStats.processed st1)
          else (Ret results, st1)
      | Ret None => (Ret results, st1)
      | Raise e =>
          if is_exception e then (Ret results, st1) else (Raise e, st1)
      end
  end.

(** [process_image_batch]; [elapsed] is [time.time() - start_time].  An
    exception that leaves the loop leaves the function: [total_time] is
    not updated and nothing is returned. *)
Definition process_image_batch (elapsed : Z) (image_paths : list string)
    (light : bool) (backends : list string) (sat : string)
    (st : ProcStats.t) : result (gmap string Data) * ProcStats.t :=
  let backends :=
    match backends with
    | [] => take 3 list_backends
    | _ => backends
    end in
  match
    fold_left (collect light backends sat) (as_completed image_paths)
              (Ret ∅, st)
  with
  | (Ret results, st1) => (Ret results, ProcStats.timed elapsed st1)
  | (Raise e, st1) => (Raise e, st1)
  end.

End Processor.

(** ** The scorer ([_calculate_image_score] and its helpers) *)

(** [s.lstrip("#")] *)
Fixpoint lstrip_hash (s : string) : string :=
  match s with
  | String "#" rest => lstrip_hash rest
  | _ => s
  end.

(** [s.startswith("#")] *)
Definition starts_with_hash (s : string) : bool := String.prefix "#" s.

(** the characters [int()] skips at both ends of an ASCII text: tab to
    carriage return, and the blank *)
Definition is_py_space (c : ascii) : bool :=
  let n := nat_of_ascii c in
  ((9 <=? n)%nat && (n <=? 13)%nat) || (n =? 32)%nat.

Definition hex_value (c : ascii) : option Z :=
  let n := Z.of_nat (nat_of_ascii c) in
  if (48 <=? n) && (n <=? 57) then Some (n - 48)
  else if (97 <=? n) && (n <=? 102) then Some (n - 87)
  else if (65 <=? n) && (n <=? 70) then Some (n - 55)
  else None.

Fixpoint skip_spaces (l : list ascii) : list ascii :=
  match l with
  | c :: rest => if is_py_space c then skip_spaces rest else l
  | [] => []
  end.

(** the digits of [int(s, 16)]: hex digits with single underscores
    between them; the result is the value and what follows the digits *)
Fixpoint hex_digits (seen : bool) (prev_underscore : bool) (acc : Z)
    (l : list ascii) : option (Z * list ascii) :=
  match l with
  | c :: rest =>
      if Ascii.eqb c "_" then
        if prev_underscore then None
        else hex_digits seen true acc rest
      else
        match hex_value c with
        | Some d => hex_digits true false (16 * acc + d) rest
        | None =>
            if prev_underscore || negb seen then None else Some (acc, l)
        end
  | [] => if prev_underscore || negb seen then None else Some (acc, [])
  end.

(** [int(s, 16)] for an ASCII text; [None] stands for [ValueError] *)
Definition py_int16 (s : string) : option Z :=
  let l := skip_spaces (list_ascii_of_string s) in
  let '(negative, l) :=
    match l with
    | "+"%char :: rest => (false, rest)
    | "-"%char :: rest => (true, rest)
    | _ => (false, l)
    end in
  let l :=
    match l with
    | "0"%char :: "x"%char :: "_"%char :: rest => rest
    | "0"%char :: "X"%char :: "_"%char :: rest => rest
    | "0"%char :: "x"%char :: rest => rest
    | "0"%char :: "X"%char :: rest => rest
    | _ => l
    end in
  match l with
  | "_"%char :: _ => None
  | _ =>
      match hex_digits false false 0 l with
      | Some (v, rest) =>
          match skip_spaces rest with
          | [] => Some (if negative then - v else v)
          | _ => None
          end
      | None => None
      end
  end.

(** [tuple(int(hex_color[i : i + 2], 16) for i in (0, 2, 4))] *)
Definition parse_rgb (hex_color : string) : option (Z * Z * Z) :=
  match py_int16 (substring 0 2 hex_color),
        py_int16 (substring 2 2 hex_color),
        py_int16 (substring 4 2 hex_color) with
  | Some r, Some g, Some b => Some (r, g, b)
  | _, _, _ => None
  end.

(** a colour scheme: the dictionaries under ["colors"] and ["special"],
    each in insertion order, [None] when the key is missing *)
Record ColorScheme : Type := MkScheme
  { scheme_colors : option (list (string * string));
    scheme_special : option (list (string * string)) }.

(** [d.get(k, dflt)] *)
Definition dict_get (k dflt : string) (d : list (string * string)) : string :=
  match find (fun kv => String.eqb (fst kv) k) d with
  | Some kv => snd kv
  | None => dflt
  end.

Local Open Scope R_scope.

(** the relative luminance of one channel *)
Definition linear_channel (c : R) : R :=
  if Rle_dec c 0.03928 then c / 12.92
  else Rpower ((c + 0.055) / 1.055) 2.4.

(** the local function [get_luminance] of [_calculate_contrast] *)
Definition get_luminance (color : string) : result R :=
  let hex_color := lstrip_hash color in
  if negb (String.length hex_color =? 6)%nat then Ret 0.5
  else
    match parse_rgb hex_color with
    | None => Raise ValueError
    | Some (r, g, b) =>
        let r := linear_channel (IZR r / 255.0) in
        let g := linear_channel (IZR g / 255.0) in
        let b := linear_channel (IZR b / 255.0) in
        Ret (0.2126 * r + 0.7152 * g + 0.0722 * b)
    end.

Definition _calculate_contrast (color1 color2 : string) : R :=
  match get_luminance color1 with
  | Raise _ => 0.5
  | Ret l1 =>
      match get_luminance color2 with
      | Raise _ => 0.5
      | Ret l2 =>
          let lighter := Rmax l1 l2 in
          let darker := Rmin l1 l2 in
          let contrast := (lighter + 0.05) / (darker + 0.05) in
          Rmin (contrast / 21.0) 1.0
      end
  end.

Definition _calculate_saturation (color : string) : R :=
  let hex_color := lstrip_hash color in
  if negb (String.length hex_color =? 6)%nat then 0.0
  else
    match parse_rgb hex_color with
    | None => 0.0
    | Some (r, g, b) =>
        let r := IZR r / 255.0 in
        let g := IZR g / 255.0 in
        let b := IZR b / 255.0 in
        let max_val := Rmax r (Rmax g b) in
        let min_val := Rmin r (Rmin g b) in
        if Rlt_dec 0 max_val then (max_val - min_val) / max_val else 0.0
    end.

Definition Rsum (values : list R) : R := foldr Rplus 0 values.

Definition _calculate_variance (values : list R) : R :=
  if (length values <? 2)%nat then 0.0
  else
    let mean := Rsum values / INR (length values) in
    Rsum (map (fun x => (x - mean) ^ 2) values) / INR (length values).

(** [color_values]: [list(colors_dict.values())] *)
Definition color_values (color_scheme : ColorScheme) : list string :=
  map snd (default [] (scheme_colors color_scheme)).

(** the three summands of [_calculate_image_score], in the order in which
    the function adds them to [score] *)
Definition diversity_part (color_scheme : ColorScheme) : R :=
  let values := color_values color_scheme in
  if (16 <=? length values)%nat
  then INR (length (remove_dups values)) / 16.0 * 0.3
  else 0.

Definition contrast_part (color_scheme : ColorScheme) : R :=
  let special := default [] (scheme_special color_scheme) in
  let bg := dict_get "background" "#000000" special in
  let fg := dict_get "foreground" "#ffffff" special in
  if negb (String.eqb bg "") && negb (String.eqb fg "")
  then _calculate_contrast bg fg * 0.4
  else 0.

Definition saturations (color_scheme : ColorScheme) : list R :=
  map _calculate_saturation
      (List.filter
         (fun color => negb (String.eqb color "") && starts_with_hash color)
         (take 8 (color_values color_scheme))).

Definition saturation_part (color_scheme : ColorScheme) : R :=
  match saturations color_scheme with
  | [] => 0
  | sats => Rmin (_calculate_variance sats) 1.0 * 0.3
  end.

Definition _calculate_image_score (color_scheme : ColorScheme) : R :=
  0.0 + diversity_part color_scheme + contrast_part color_scheme
  + saturation_part color_scheme.

Local Close Scope R_scope.

(** ** Notions used to state the properties *)

(** what [generate_cache_key] reads of the file's [os.stat]: the size and
    the modification time in whole seconds *)
Definition stat_seen (images : gmap string ImageFile) (path : string)
    : option (Z * Z) :=
  (fun st => (fst st, int_of_float (snd st))) <$> os_stat images path.

(** the text [generate_cache_key] hands to the digest, and the digest *)
Definition hashed_text (cache_version : string)
    (images : gmap string ImageFile) (img_path backend : string)
    (light : bool) (sat : string) : string :=
  match os_stat images img_path with
  | Some (file_size, file_mtime) =>
      str_join "_"
        (key_components cache_version images img_path backend light sat
           file_size file_mtime)
  | None => fallback_text img_path backend light sat
  end.

Definition key_digest (images : gmap string ImageFile) (img_path : string)
    : string -> string :=
  match os_stat images img_path with
  | Some _ => Digest.sha256_hexdigest
  | None => Digest.md5_hexdigest
  end.

(** a text of [n] lower-case hexadecimal digits *)
Definition hex_text (n : nat) (s : string) : Prop :=
  String.length s = n ∧ forallb is_hex (list_ascii_of_string s) = true.

(** ** Concrete states used by the examples *)

Definition scenario_images : gmap string ImageFile :=
  {[ "img.jpg" := MkImage 3 (1234567890 # 1) (Some "abc") ]}.

(** the same file a little later: another file has appeared, and the
    modification time is the same second read with a fraction *)
Definition scenario_images_later : gmap string ImageFile :=
  <[ "other.png" := MkImage 1 (5 # 1) (Some "x") ]>
    {[ "img.jpg" := MkImage 3 (2469135781 # 2) (Some "abc") ]}.

(** the same file edited in place: the size and the modification time
    are the same, the last byte is another *)
Definition scenario_images_edited : gmap string ImageFile :=
  {[ "img.jpg" := MkImage 3 (1234567890 # 1) (Some "abd") ]}.

Definition demo_row (key path : string) (size last_accessed access_count : Z)
    (image_hash : string) : CacheEntry.t :=
  CacheEntry.Make key path size 0 last_accessed access_count "wal" image_hash
    true.

Definition demo_cache (rows : list CacheEntry.t)
    (fs : gmap string (SchemeFile string)) : AdvancedCache string :=
  MkCache "/cache/schemes" CacheStats.fresh true rows fs ∅.

(** a row whose file has been deleted behind the back of the cache *)
Definition stale_cache : AdvancedCache string :=
  demo_cache [demo_row "k1" "/cache/schemes/k1.json.gz" 120 50 3 ""] ∅.

(** a row whose gzip file was cut short *)
Definition truncated_cache : AdvancedCache string :=
  demo_cache [demo_row "k1" "/cache/schemes/k1.json.gz" 120 50 3 ""]
    {[ "/cache/schemes/k1.json.gz" := MkFile (Damaged EOFError) false ]}.





(** a row with its file in place *)
Definition healthy_cache : AdvancedCache string :=
  demo_cache [demo_row "k1" "/cache/schemes/k1.json.gz" 120 50 3 ""]
    {[ "/cache/schemes/k1.json.gz" := MkFile (Stored true "doc") false ]}.

(** a hit on ["k1"], a [put] of another key, a deduplication *)
Definition quiet_history : list (@op string) :=
  [ OpGet 60 61 62 "k1";
    OpPut 70 (Written 10 20) "k2" "doc2" "" "wal" false;
    OpDeduplicate ].

(** every removal can succeed: the database is reachable and no file
    refuses to be unlinked *)
Definition removable {Data : Type} (c : AdvancedCache Data) : Prop :=
  db_up c = true
  ∧ map_Forall (fun _ f => unlink_raises f = false) (files c).


(** a much used row of 2 MiB and an idle row of one byte, both with
    their files *)
Definition big_cache : AdvancedCache string :=
  demo_cache
    [ demo_row "hot" "/cache/schemes/hot.json.gz" 2097152 100 5 "";
      demo_row "cold" "/cache/schemes/cold.json.gz" 1 10 0 "" ]
    (<[ "/cache/schemes/hot.json.gz" := MkFile (Stored true "hot doc") false ]>
       {[ "/cache/schemes/cold.json.gz" :=
            MkFile (Stored true "cold doc") false ]}).

(** an idle row of 10 bytes last read long ago, a much used row and a
    large row read once, all with their files *)
Definition crowded_cache : AdvancedCache string :=
  demo_cache
    [ demo_row "old" "/cache/schemes/old.json.gz" 10 10 0 "";
      demo_row "hot" "/cache/schemes/hot.json.gz" 600000 999000 9 "";
      demo_row "big" "/cache/schemes/big.json.gz" 600000 999500 1 "" ]
    (<[ "/cache/schemes/old.json.gz" := MkFile (Stored true "old doc") false ]>
       (<[ "/cache/schemes/hot.json.gz" :=
             MkFile (Stored true "hot doc") false ]>
          {[ "/cache/schemes/big.json.gz" :=
               MkFile (Stored true "big doc") false ]})).

(** what the two queries of [cleanup] return over [crowded_cache] *)
Definition crowded_ranked : list CacheEntry.t :=
  [ demo_row "hot" "/cache/schemes/hot.json.gz" 600000 999000 9 "";
    demo_row "big" "/cache/schemes/big.json.gz" 600000 999500 1 "";
    demo_row "old" "/cache/schemes/old.json.gz" 10 10 0 "" ].

Definition crowded_candidates : list CacheEntry.t :=
  [ demo_row "old" "/cache/schemes/old.json.gz" 10 10 0 "";
    demo_row "big" "/cache/schemes/big.json.gz" 600000 999500 1 "" ].


(** the rows whose [image_hash] is [h] *)
Definition with_hash (h : string) (rows : list CacheEntry.t)
    : list CacheEntry.t :=
  List.filter (fun e => String.eqb (CacheEntry.image_hash e) h) rows.

(** two rows made from one image, and two rows with no image hash *)
Definition duplicated_cache : AdvancedCache string :=
  demo_cache
    [ demo_row "k1" "/cache/schemes/k1.json.gz" 100 10 0 "same_hash";
      demo_row "k2" "/cache/schemes/k2.json.gz" 100 30 0 "same_hash";
      demo_row "k3" "/cache/schemes/k3.json.gz" 100 5 0 "";
      demo_row "k4" "/cache/schemes/k4.json.gz" 100 7 0 "" ]
    {[ "/cache/schemes/k1.json.gz" := MkFile (Stored true "doc") false ]}.

Section BatchNotions.

Context {Data : Type}.
Variable CACHE_DIR : string.
Variable cache_fname :
  string -> string -> bool -> string -> string -> result (list string).
Variable isfile : string -> bool.
Variable colors_file : string -> result Data.
Variable colors_get : string -> bool -> string -> string -> string -> result Data.

(** the backend fails for the image: its attempt raises an [Exception],
    which [_process_single_image] takes *)
Definition backend_fails (img_path : string) (light : bool) (sat : string)
    (backend : string) : Prop :=
  ∃ e, is_exception e = true
       ∧ ∀ st,
           fst (try_backend CACHE_DIR cache_fname isfile colors_file
                  colors_get img_path light sat backend st) = Raise e.

(** the attempt of the backend raises [e], which is no [Exception] *)
Definition backend_exits (img_path : string) (light : bool) (sat : string)
    (backend : string) (e : exn) : Prop :=
  is_exception e = false
  ∧ ∀ st,
      fst (try_backend CACHE_DIR cache_fname isfile colors_file colors_get
             img_path light sat backend st) = Raise e.

(** [r] is what the first backend of [backends] that does not fail
    returns for the image, from the cache file or freshly produced *)
Definition first_success (img_path : string) (light : bool) (sat : string)
    (backends : list string) (r : Data) : Prop :=
  ∃ failed backend rest,
    backends = (failed ++ backend :: rest)%list
    ∧ Forall (backend_fails img_path light sat) failed
    ∧ ∀ st,
        fst (try_backend CACHE_DIR cache_fname isfile colors_file colors_get
               img_path light sat backend st) = Ret r.

(** the task of the image ends with [e]: the first backend of [backends]
    that does not fail raises [e], which is no [Exception] *)
Definition task_exits (img_path : string) (light : bool) (sat : string)
    (backends : list string) (e : exn) : Prop :=
  ∃ failed backend rest,
    backends = (failed ++ backend :: rest)%list
    ∧ Forall (backend_fails img_path light sat) failed
    ∧ backend_exits img_path light sat backend e.

End BatchNotions.

(** [if not backends: backends = colors.list_backends()[:3]] *)
Definition backends_or_default (list_backends backends : list string)
    : list string :=
  match backends with
  | [] => take 3 list_backends
  | _ => backends
  end.

(** a registry of two backends for the examples: ["wal"] is not
    installed, ["colorthief"] works unless the image is ["broken.png"];
    nothing is cached *)
Definition demo_cache_fname (img backend : string) (light : bool)
    (cache_dir sat : string) : result (list string) :=
  Ret [cache_dir; "schemes"; img +:+ "_" +:+ backend +:+ ".json"].

Definition demo_colors_get (img : string) (light : bool)
    (backend cache_dir sat : string) : result string :=
  if String.eqb backend "wal" then Raise OSError
  else if String.eqb img "broken.png" then Raise ValueError
  else if String.eqb img "exit.png" then Raise SystemExit
  else Ret (backend +:+ " scheme of " +:+ img).

Definition demo_truthy (r : string) : bool := negb (String.eqb r "").

Definition demo_batch (image_paths : list string)
    : result (gmap string string) * ProcStats.t :=
  process_image_batch demo_truthy "/cache" ["wal"; "colorthief"]
    demo_cache_fname (fun _ => false) (fun _ => Raise OSError)
    demo_colors_get (@rev string) 7 image_paths false [] "" ProcStats.fresh.

(** [bg] and [fg] as [_calculate_image_score] reads them *)
Definition background_of (color_scheme : ColorScheme) : string :=
  dict_get "background" "#000000"
    (default [] (scheme_special color_scheme)).

Definition foreground_of (color_scheme : ColorScheme) : string :=
  dict_get "foreground" "#ffffff"
    (default [] (scheme_special color_scheme)).

(** six characters after the leading [#]s that are not three base-16
    numbers: [int(..., 16)] raises [ValueError] on such a colour *)
Definition unparsable (color : string) : Prop :=
  String.length (lstrip_hash color) = 6%nat
  ∧ parse_rgb (lstrip_hash color) = None.

(** a scheme whose background is not a colour, and a palette of two
    entries, one of them not a colour *)
Definition bad_background_scheme : ColorScheme :=
  MkScheme None
    (Some [("background", "#gggggg"); ("foreground", "#ffffff")]).

Definition bad_palette_scheme : ColorScheme :=
  MkScheme (Some [("color0", "#ff0000"); ("color1", "#zzzzzz")])
    (Some [("background", ""); ("foreground", "#ffffff")]).


(** ** The module-level wrappers of [cache.py] *)

Section Wrappers.

Context {Data : Type}.

(** [settings.__cache_version__], as for the key generator *)
Variable cache_version : string.

(** [cache_get(img_path, backend, light, sat)]; the global instance that
    [get_cache()] hands out is the cache passed along. *)
Definition cache_get (start_time current_time end_time : Z)
    (img_path backend : string) (light : bool) (sat : string)
    (c : AdvancedCache Data) : result (option Data) * AdvancedCache Data :=
  let cache_key :=
    generate_cache_key cache_version (images c) img_path backend light sat in
  get start_time current_time end_time cache_key c.

(** [cache_put(img_path, backend, light, data, sat)]: [put] with its
    default [compress=True] *)
Definition cache_put (current_time : Z) (io : put_io)
    (img_path backend : string) (light : bool) (data : Data) (sat : string)
    (c : AdvancedCache Data) : result bool * AdvancedCache Data :=
  let cache_key :=
    generate_cache_key cache_version (images c) img_path backend light sat in
  put current_time io cache_key data img_path backend true c.

End Wrappers.

(** the rows whose [backend] is [b] *)
Definition with_backend (b : string) (rows : list CacheEntry.t)
    : list CacheEntry.t :=
  List.filter (fun e => String.eqb (CacheEntry.backend e) b) rows.

(** ** [get_stats] and [reset_stats] of the batch producer *)

(** [a / b] on two [int]s; [None] stands for [ZeroDivisionError] *)
Definition py_truediv (a b : Z) : option Q :=
  if b =? 0 then None else Some (Qdiv (inject_Z a) (inject_Z b)).

(** the dictionary that [get_stats] returns: the entries of [self.stats],
    the two rates that are set when an image was processed, and the
    success rate of every backend that was attempted *)
Record StatsReport : Type := MkReport
  { report_stats : ProcStats.t;
    cache_hit_rate : option Q;
    avg_processing_time : option Q;
    backend_success_rates : gmap string Q }.

(** the backends the loop of [get_stats] looks at: those with
    [attempts > 0] *)
Definition attempted (s : ProcStats.t) : gmap string Z :=
  filter (fun kv => 0 < snd kv) (ProcStats.backend_attempts s).

(** [stats["backend_successes"][backend]] reads a [defaultdict(int)]: a
    backend that is not yet a key becomes one, with 0.  [self.stats.copy()]
    is a shallow copy, so this is the dictionary of the processor itself. *)
Definition successes_read (s : ProcStats.t) : gmap string Z :=
  ProcStats.backend_successes s ∪ ((fun _ => 0) <$> attempted s).

(** [get_stats()]: the report, or [None] when the division for the hit
    rate raises [ZeroDivisionError], and the counters it leaves.  The
    success rates are computed for positive [attempts] only, so that
    division cannot fail. *)
Definition get_stats (s : ProcStats.t) : option StatsReport * ProcStats.t :=
  let rates :=
    if 0 <? ProcStats.images_processed s then
      match py_truediv (ProcStats.cache_hits s)
              (ProcStats.cache_hits s + ProcStats.cache_misses s) with
      | None => None
      | Some rate =>
          Some (Some rate,
                py_truediv (ProcStats.total_time s)
                  (ProcStats.images_processed s))
      end
    else Some (None, None) in
  match rates with
  | None => (None, s)
  | Some (hit_rate, avg_time) =>
      let s1 :=
        ProcStats.Make (ProcStats.images_processed s) (ProcStats.cache_hits s)
          (ProcStats.cache_misses s) (ProcStats.total_time s)
          (ProcStats.backend_attempts s) (successes_read s) in
      let success_rates :=
        map_imap
          (fun backend attempts =>
             Some (Qdiv (inject_Z (default 0 (successes_read s !! backend)))
                        (inject_Z attempts)))
          (attempted s) in
      (Some (MkReport s1 hit_rate avg_time success_rates), s1)
  end.

(** [reset_stats()] *)
Definition reset_stats (s : ProcStats.t) : ProcStats.t := ProcStats.fresh.

(** the counters of the processor fit together: no counter is negative, no
    more images were processed than attempts hit or missed the cache, and
    no backend succeeded more often than it was attempted *)
Definition stats_consistent (s : ProcStats.t) : Prop :=
  0 <= ProcStats.images_processed s
       <= ProcStats.cache_hits s + ProcStats.cache_misses s
  ∧ 0 <= ProcStats.cache_hits s
  ∧ 0 <= ProcStats.cache_misses s
  ∧ ∀ b, 0 <= default 0 (ProcStats.backend_successes s !! b)
              <= default 0 (ProcStats.backend_attempts s !! b).

(** ** The texts of two characters

    [int(hex_color[i : i + 2], 16)] reads two characters; what it can
    return is settled by going through all of them. *)

Definition all_ascii : list ascii := map ascii_of_nat (seq 0 256).

Definition channel_in_range (a b : ascii) : bool :=
  match py_int16 (String a (String b "")) with
  | Some v => (-15 <=? v) && (v <=? 255)
  | None => true
  end.


(** ** [benchmark_backends] *)

(** the dictionary [benchmark_backends] builds for one backend;
    ["min_time"] and ["max_time"] are set only when a run succeeded *)
Record BackendResults : Type := MkResults
  { times : list Q;
    success_count : Z;
    error_count : Z;
    avg_time : Q;
    min_time : option Q;
    max_time : option Q;
    success_rate : Q;
    status : string }.

Definition Qsum (values : list Q) : Q := foldr Qplus 0%Q values.

Definition Qleast (x : Q) (values : list Q) : Q :=
  fold_left (fun m y => if Qle_bool m y then m else y) values x.

Definition Qgreatest (x : Q) (values : list Q) : Q :=
  fold_left (fun m y => if Qle_bool y m then m else y) values x.

Section Benchmark.

(** Outside the modelled modules: whether [pywal.backends.<backend>] can
    be imported and has a [get]; what [colors.list_backends()] returns; and
    how the call of [colors.get] goes in iteration [i] for the backend at
    position [k] of the available ones -- [Ret t] when it returns after
    [t] seconds, [Raise e] when it raises [e]. *)
Variable available : string -> bool.
Variable list_backends : list string.
Variable run : nat -> string -> nat -> result Q.

(** The inner loop [for i in range(iterations)], over the outcomes of
    the runs that are still to come.  [except Exception] counts an error;
    an exception that is no [Exception] ([SystemExit]) leaves the loop and
    the function, and the later runs do not take place. *)
Fixpoint bench_runs (outcomes : list (result Q)) (acc : list Q * Z * Z)
    : result (list Q * Z * Z) :=
  match outcomes with
  | [] => Ret acc
  | outcome :: rest =>
      let '(times, success_count, error_count) := acc in
      match outcome with
      | Ret execution_time =>
          bench_runs rest
            ((times ++ [execution_time])%list, success_count + 1,
             error_count)
      | Raise e =>
          if is_exception e
          then bench_runs rest (times, success_count, error_count + 1)
          else Raise e
      end
  end.

(** the body of the loop over the available backends; the division
    [success_count / iterations] raises [ZeroDivisionError] *)
Definition bench_backend (k : nat) (backend : string) (iterations : Z)
    : result BackendResults :=
  match
    bench_runs (map (run k backend) (seq 0 (Z.to_nat iterations)))
      ([], 0, 0)
  with
  | Raise e => Raise e
  | Ret (times, success_count, error_count) =>
      let '(avg, lo, hi) :=
        match times with
        | [] => (0%Q, None, None)
        | t :: rest =>
            (Qdiv (Qsum times) (inject_Z (Z.of_nat (length times))),
             Some (Qleast t rest), Some (Qgreatest t rest))
        end in
      match py_truediv success_count iterations with
      | None => Raise ZeroDivisionError
      | Some rate =>
          Ret (MkResults times success_count error_count avg lo hi rate
                 "available")
      end
  end.

Fixpoint bench_loop (k : nat) (available_backends : list string)
    (iterations : Z) (results : gmap string BackendResults)
    : result (gmap string BackendResults) :=
  match available_backends with
  | [] => Ret results
  | backend :: rest =>
      match bench_backend k backend iterations with
      | Raise e => Raise e
      | Ret backend_results =>
          bench_loop (S k) rest iterations
            (<[backend := backend_results]> results)
      end
  end.

Definition unavailable_results (iterations : Z) : BackendResults :=
  MkResults [] 0 iterations 0%Q None None 0%Q "unavailable".

(** [benchmark_backends(img_path, backends, iterations)]; [backends] is
    [None] when the argument is left out *)
Definition benchmark_backends (backends : option (list string))
    (iterations : Z) : result (gmap string BackendResults) :=
  let backends := default list_backends backends in
  let available_backends := List.filter available backends in
  let unavailable_backends :=
    List.filter (fun b => negb (available b)) backends in
  match available_backends with
  | [] => Ret ∅
  | _ =>
      match bench_loop 0 available_backends iterations ∅ with
      | Raise e => Raise e
      | Ret results =>
          Ret (fold_left
                 (fun res b => <[b := unavailable_results iterations]> res)
                 unavailable_backends results)
      end
  end.

End Benchmark.

(** what the report says of a backend that could be imported *)
Definition benchmarked (iterations : Z) (r : BackendResults) : Prop :=
  status r = "available"
  ∧ success_count r + error_count r = Z.max 0 iterations
  ∧ Z.of_nat (length (times r)) = success_count r
  ∧ 0 <= error_count r
  ∧ success_rate r = Qdiv (inject_Z (success_count r)) (inject_Z iterations).

(** ** [find_best_images] and [process_directory_parallel] *)

(** [l[:count]] *)
Definition py_slice_to {A} (count : Z) (l : list A) : list A :=
  if count <? 0 then take (length l - Z.to_nat (- count)) l
  else take (Z.to_nat count) l.

(** The order in which [scored_images.sort(reverse=True)] leaves the
    tuples [(score, img_path, color_scheme)]: by score, the higher first,
    then by path, the greater first.  The paths are the keys of one
    dictionary, so no two tuples agree on the path and the schemes are never
    compared. *)
Definition scored_before (a b : R * string * ColorScheme) : Prop :=
  Rlt (fst (fst b)) (fst (fst a))
  ∨ (fst (fst a) = fst (fst b)
     ∧ String.leb (snd (fst b)) (snd (fst a)) = true).

#[global] Instance scored_before_dec : RelDecision scored_before.
Proof.
  intros a b. unfold scored_before.
  destruct (Rlt_dec (fst (fst b)) (fst (fst a))) as [Hlt|Hlt].
  - left. by left.
  - destruct (Req_dec_T (fst (fst a)) (fst (fst b))) as [Heq|Hne].
    + destruct (String.leb (snd (fst b)) (snd (fst a))) eqn:Hleb.
      * left. by right.
      * right. intros [?|[_ ?]]; [done | congruence].
    + right. intros [?|[? _]]; done.
Defined.

Section FindBest.

(** as for the batch producer, with colour schemes for the results *)
Variable truthy : ColorScheme -> bool.
Variable CACHE_DIR : string.
Variable list_backends : list string.
Variable cache_fname :
  string -> string -> bool -> string -> string -> result (list string).
Variable isfile : string -> bool.
Variable colors_file : string -> result ColorScheme.
Variable colors_get :
  string -> bool -> string -> string -> string -> result ColorScheme.
Variable as_completed : list string -> list string.

(** The module [image] and [random] are outside the modelled modules:
    the file names [image.get_image_dir] finds in a directory, the paths
    [image.get_image_dir_recursive] finds under it, and the twenty images
    [random.sample] picks. *)
Variable get_image_dir : string -> list string.
Variable get_image_dir_recursive : string -> list string.
Variable random_sample : list string -> list string.

Definition directory_images (img_dir : string) (recursive : bool)
    : list string :=
  if recursive then get_image_dir_recursive img_dir
  else map (os_path_join img_dir) (get_image_dir img_dir).

(** the images [find_best_images] hands to the batch *)
Definition sampled_images (img_dir : string) (recursive : bool)
    : list string :=
  let images := directory_images img_dir recursive in
  if (20 <? length images)%nat then random_sample images else images.

Definition score_entry (entry : string * ColorScheme)
    : R * string * ColorScheme :=
  (_calculate_image_score (snd entry), fst entry, snd entry).

Definition find_best_images (elapsed : Z) (img_dir : string) (count : Z)
    (recursive : bool) (backends : list string) (st : ProcStats.t)
    : result (list (string * ColorScheme)) * ProcStats.t :=
  match directory_images img_dir recursive with
  | [] => (Ret [], st)
  | _ =>
      match
        process_image_batch truthy CACHE_DIR list_backends cache_fname isfile
          colors_file colors_get as_completed elapsed
          (sampled_images img_dir recursive) false backends "" st
      with
      | (Raise e, st1) => (Raise e, st1)
      | (Ret results, st1) =>
          let scored_images :=
            map score_entry
              (List.filter (fun entry => truthy (snd entry))
                 (map_to_list results)) in
          let sorted := merge_sort scored_before scored_images in
          (Ret (map (fun t => (snd (fst t), snd t))
                  (py_slice_to count sorted)),
           st1)
      end
  end.

(** [process_directory_parallel]: a fresh processor; with [find_best] the
    list of the best images, else the dictionary of the batch *)
Definition process_directory_parallel (elapsed : Z) (img_dir : string)
    (light recursive find_best : bool) (best_count : Z)
    : result (list (string * ColorScheme) + gmap string ColorScheme) :=
  if find_best then
    match fst (find_best_images elapsed img_dir best_count recursive []
                 ProcStats.fresh) with
    | Ret best => Ret (inl best)
    | Raise e => Raise e
    end
  else
    match fst (process_image_batch truthy CACHE_DIR list_backends cache_fname
                 isfile colors_file colors_get as_completed elapsed
                 (directory_images img_dir recursive) light [] ""
                 ProcStats.fresh) with
    | Ret results => Ret (inr results)
    | Raise e => Raise e
    end.

End FindBest.

(** ** [export_cache_info] *)

(** the document [export_cache_info] writes *)
Record CacheInfo : Type := MkInfo
  { info_version : string;
    info_cache_version : string;
    info_timestamp : Z;
    info_total_entries : Z;
    info_total_size_mb : Q;
    info_hit_rate : Q;
    info_avg_access_time_ms : Q;
    info_compression_saved_mb : Q;
    info_cleanup_count : Z;
    info_backend_usage : gmap string Z;
    info_most_accessed : list (string * Z) }.

Section ExportInfo.

Context {Data : Type}.

(** [settings.__version__] and [settings.__cache_version__] *)
Variable version : string.
Variable cache_version : string.

Definition cache_info (now : Z) (analytics : CacheStats.t) : CacheInfo :=
  MkInfo version cache_version now
    (CacheStats.total_entries analytics)
    (Qdiv (inject_Z (CacheStats.total_size analytics))
          (inject_Z (1024 * 1024)))
    (Qdiv (inject_Z (CacheStats.hit_count analytics))
          (inject_Z (Z.max 1 (CacheStats.hit_count analytics
                              + CacheStats.miss_count analytics))))
    (Qmult (CacheStats.avg_access_time analytics) (inject_Z 1000))
    (Qdiv (inject_Z (CacheStats.compression_saved analytics))
          (inject_Z (1024 * 1024)))
    (CacheStats.cleanup_count analytics)
    (CacheStats.backend_usage analytics)
    (take 10 (CacheStats.most_accessed analytics)).

(** [export_cache_info(output_file)], the output file lying outside the
    directory of the schemes.  [now] is the value of [time.time()];
    [write] is [None] when [open] and [json.dump] go through and the
    exception they raise otherwise.  The result is the reply, the document
    written, and the cache. *)
Definition export_cache_info (now : Z) (write : option exn)
    (c : AdvancedCache Data)
    : result bool * option CacheInfo * AdvancedCache Data :=
  let '(analytics, c1) := get_analytics c in
  match write with
  | None => (Ret true, Some (cache_info now analytics), c1)
  | Some e =>
      if except [OSError; SqliteError] e then (Ret false, None, c1)
      else (Raise e, None, c1)
  end.

End ExportInfo.

(** the two counters of [get] are not negative *)
Definition counters_nonneg (s : CacheStats.t) : Prop :=
  0 <= CacheStats.hit_count s ∧ 0 <= CacheStats.miss_count s.

(** ** Further concrete states used by the examples *)

(** a text of [n] copies of one character *)
Definition chunk_of (c : ascii) (n : nat) : string :=
  string_of_list_ascii (repeat c n).

(** an image of two full chunks with four bytes between them *)
Definition sandwich_file (middle : string) : ImageFile :=
  MkImage 16388 (5 # 1)
    (Some (chunk_of "a" default_chunk_size +:+ middle
           +:+ chunk_of "z" default_chunk_size)).

Definition sandwich_images (middle : string) : gmap string ImageFile :=
  {[ "img.png" := sandwich_file middle ]}.

(** the counters after a batch of three images over two backends *)
Definition busy_stats : ProcStats.t :=
  ProcStats.Make 2 1 2 7 (<["wal" := 3]> {["colorthief" := 3]})
    {["colorthief" := 2]}.

Definition demo_scheme : ColorScheme :=
  MkScheme (Some [("color0", "#ff0000"); ("color1", "#00ff00")])
    (Some [("background", "#000000"); ("foreground", "#ffffff")]).

(** a directory of two images, the registry of [demo_batch] with colour
    schemes for the results *)
Definition demo_best (count : Z)
    : result (list (string * ColorScheme)) * ProcStats.t :=
  find_best_images (fun _ => true) "/cache" ["wal"; "colorthief"]
    demo_cache_fname (fun _ => false) (fun _ => Raise OSError)
    (fun img light backend cache_dir sat =>
       if String.eqb backend "wal" then Raise OSError else Ret demo_scheme)
    (@rev string) (fun _ => ["a.png"; "b.png"]) (fun _ => [])
    (fun images => take 20 images) 7 "/pics" count false [] ProcStats.fresh.

(** a benchmark over two backends: ["wal"] cannot be imported, and the
    first run of every backend fails *)
Definition demo_available (backend : string) : bool :=
  negb (String.eqb backend "wal").

Definition demo_run (k : nat) (backend : string) (i : nat) : result Q :=
  if Nat.eqb i 0 then Raise OSError else Ret (1 # 2)%Q.

Definition demo_benchmark (iterations : Z)
    : result (gmap string BackendResults) :=
  benchmark_backends demo_available ["wal"; "colorthief"] demo_run None
    iterations.

(** * Properties *)

(** ** Texts *)

Lemma list_ascii_app (s t : string) :
  list_ascii_of_string (s +:+ t)
  = (list_ascii_of_string s ++ list_ascii_of_string t)%list.
Proof. induction s as [|a s IH]; simpl; [done | by rewrite IH]. Qed.

Lemma length_list_ascii (s : string) :
  length (list_ascii_of_string s) = String.length s.
Proof. induction s as [|a s IH]; simpl; [done | by rewrite IH]. Qed.

Lemma list_ascii_inj (s t : string) :
  list_ascii_of_string s = list_ascii_of_string t -> s = t.
Proof.
  intros E. rewrite <- (string_of_list_ascii_of_string s), E.
  apply string_of_list_ascii_of_string.
Qed.

Lemma append_inv_tail (s1 s2 t : string) : s1 +:+ t = s2 +:+ t -> s1 = s2.
Proof.
  intros E. apply list_ascii_inj.
  apply (f_equal list_ascii_of_string) in E.
  rewrite !list_ascii_app in E. by apply app_inv_tail in E.
Qed.

Lemma append_inv_head (s t1 t2 : string) : s +:+ t1 = s +:+ t2 -> t1 = t2.
Proof. induction s as [|a s IH]; simpl; intros E; [done|]. injection E. auto. Qed.

Lemma hexchar_is_hex (n : Z) : is_hex (hexchar n) = true.
Proof.
  unfold hexchar. generalize (Z.to_nat (Z.land n 15)). intros i.
  do 16 (destruct i as [|i]; [reflexivity|]). by destruct i.
Qed.

Lemma hex_byte_is_hex (b : Z) : forallb is_hex (hex_byte b) = true.
Proof. unfold hex_byte. simpl. by rewrite !hexchar_is_hex. Qed.

Lemma hex_be_spec (x : Z) :
  length (Digest.hex_be x) = 8%nat ∧ forallb is_hex (Digest.hex_be x) = true.
Proof.
  unfold Digest.hex_be. split; [reflexivity|].
  rewrite !forallb_app, !hex_byte_is_hex. reflexivity.
Qed.

Lemma hex_le_spec (x : Z) :
  length (Digest.hex_le x) = 8%nat ∧ forallb is_hex (Digest.hex_le x) = true.
Proof.
  unfold Digest.hex_le. split; [reflexivity|].
  rewrite !forallb_app, !hex_byte_is_hex. reflexivity.
Qed.

Lemma forallb_take {A} (p : A -> bool) (n : nat) (l : list A) :
  forallb p l = true -> forallb p (firstn n l) = true.
Proof.
  revert n. induction l as [|a l IH]; intros [|n]; simpl; try done.
  intros [-> H]%andb_prop. simpl. auto.
Qed.

Lemma str_take_hex (n m : nat) (s : string) :
  (n <= m)%nat -> hex_text m s -> hex_text n (str_take n s).
Proof.
  intros Hle [Hlen Hhex]. unfold hex_text, str_take.
  rewrite <- length_list_ascii, list_ascii_of_string_of_list_ascii.
  split.
  - rewrite length_firstn, length_list_ascii. lia.
  - by apply forallb_take.
Qed.

Lemma sha256_hexdigest_hex (m : string) :
  hex_text 64 (Digest.sha256_hexdigest m).
Proof.
  unfold hex_text, Digest.sha256_hexdigest.
  generalize (Digest.sha256_state (bytes_of_string m)). intros s.
  rewrite <- length_list_ascii, list_ascii_of_string_of_list_ascii.
  split.
  - rewrite !length_app.
    by rewrite !(proj1 (hex_be_spec _)).
  - rewrite !forallb_app. by rewrite !(proj2 (hex_be_spec _)).
Qed.

Lemma md5_hexdigest_hex (m : string) :
  hex_text 32 (Digest.md5_hexdigest m).
Proof.
  unfold hex_text, Digest.md5_hexdigest.
  generalize (Digest.md5_state (bytes_of_string m)). intros s.
  rewrite <- length_list_ascii, list_ascii_of_string_of_list_ascii.
  split.
  - rewrite !length_app.
    by rewrite !(proj1 (hex_le_spec _)).
  - rewrite !forallb_app. by rewrite !(proj2 (hex_le_spec _)).
Qed.

(** ** The key generator *)

(** Whatever the image path and the state of the file system,
    normal or fallback, the key is a text of 16 hexadecimal digits. *)
Lemma generate_cache_key_hex ver images img backend light sat :
  hex_text 16 (generate_cache_key ver images img backend light sat).
Proof.
  unfold generate_cache_key.
  destruct (os_stat images img) as [[sz mt]|].
  - apply (str_take_hex 16 64); [lia | apply sha256_hexdigest_hex].
  - apply (str_take_hex 16 32); [lia | apply md5_hexdigest_hex].
Qed.

Lemma generate_cache_key_factors ver images img backend light sat :
  generate_cache_key ver images img backend light sat
  = str_take 16
      (key_digest images img (hashed_text ver images img backend light sat)).
Proof.
  unfold generate_cache_key, key_digest, hashed_text.
  by destruct (os_stat images img) as [[sz mt]|].
Qed.

(** C1 (key determinism), as the code has it.  Two calls of
    [generate_cache_key] with the same image path, backend, light flag and
    saturation return the same key whenever the file shows the same size,
    the same modification time and the same bytes at both calls (everything
    else on the file system may differ), and the key is a text of 16
    hexadecimal digits.  The size and the time alone do not fix the key:
    the bytes are hashed into it. *)
Theorem generate_cache_key_deterministic
    (ver : string) (images1 images2 : gmap string ImageFile)
    (img backend : string) (light : bool) (sat : string) :
  stat_seen images1 img = stat_seen images2 img ->
  read_bytes images1 img = read_bytes images2 img ->
  generate_cache_key ver images1 img backend light sat
  = generate_cache_key ver images2 img backend light sat
  ∧ hex_text 16 (generate_cache_key ver images1 img backend light sat).
Proof.
  intros Hstat Hread. split; [|apply generate_cache_key_hex].
  unfold generate_cache_key, key_components, _get_image_hash.
  rewrite Hread. clear Hread.
  unfold stat_seen in Hstat.
  destruct (os_stat images1 img) as [[sz1 mt1]|],
           (os_stat images2 img) as [[sz2 mt2]|];
    simpl in Hstat; try discriminate; [|reflexivity].
  injection Hstat as -> ->. reflexivity.
Qed.

Lemma generate_cache_key_deterministic_witness :
  generate_cache_key "1.1.0" scenario_images "img.jpg" "wal" false "0.5"
  = generate_cache_key "1.1.0" scenario_images_later "img.jpg" "wal" false
      "0.5"
  ∧ hex_text 16
      (generate_cache_key "1.1.0" scenario_images "img.jpg" "wal" false "0.5").
Proof.
  apply (generate_cache_key_deterministic "1.1.0" scenario_images
           scenario_images_later "img.jpg" "wal" false "0.5");
    vm_compute; reflexivity.
Defined.

(** C1 as stated fails: a file edited in place, with the size and the
    modification time it had, gets another key. *)
Lemma generate_cache_key_reads_the_bytes :
  stat_seen scenario_images "img.jpg"
  = stat_seen scenario_images_edited "img.jpg"
  ∧ generate_cache_key "1.1.0" scenario_images "img.jpg" "wal" false "0.5"
    = "135be5dd2d5ffea7"
  ∧ generate_cache_key "1.1.0" scenario_images_edited "img.jpg" "wal" false
      "0.5"
    = "46fb429bd35cb39b".
Proof. repeat split; vm_compute; reflexivity. Qed.

Lemma light_tag_inj (l1 l2 : bool) : light_tag l1 = light_tag l2 -> l1 = l2.
Proof. by destruct l1, l2. Qed.

Lemma str_bool_inj (l1 l2 : bool) : str_bool l1 = str_bool l2 -> l1 = l2.
Proof. by destruct l1, l2. Qed.

(** the hashed text determines the backend, the flag and the saturation
    as [sat or "0"] reads it *)
Lemma hashed_text_inj ver images img b1 b2 l1 l2 s1 s2 :
  hashed_text ver images img b1 l1 s1 = hashed_text ver images img b2 l2 s2 ->
  (l1 = l2 -> s1 = s2 -> b1 = b2)
  ∧ (b1 = b2 -> s1 = s2 -> l1 = l2)
  ∧ (b1 = b2 -> l1 = l2 -> sat_or_default s1 = sat_or_default s2).
Proof.
  unfold hashed_text, key_components, fallback_text.
  destruct (os_stat images img) as [[sz mt]|]; cbn [str_join]; intros E.
  - apply append_inv_head, append_inv_head in E.
    repeat split.
    + intros -> ->. by apply append_inv_tail in E.
    + intros -> ->. apply append_inv_head, append_inv_head in E.
      apply append_inv_tail in E. by apply light_tag_inj.
    + intros -> ->. do 4 apply append_inv_head in E.
      by apply append_inv_tail in E.
  - apply append_inv_head, append_inv_head in E.
    repeat split.
    + intros -> ->. by apply append_inv_tail in E.
    + intros -> ->. apply append_inv_head, append_inv_head in E.
      apply append_inv_tail in E. by apply str_bool_inj.
    + intros -> ->. do 4 apply append_inv_head in E. by rewrite E.
Qed.

(** C8 (key discrimination), as the code has it.  When two calls for
    the same image differ only in the backend, or only in the light flag,
    or only in the saturation and the two saturations are still different
    after [sat or "0"], the texts that are hashed differ; each key is the
    first 16 digits of the digest of its text, so the keys are equal only if
    that truncated digest collides on the two texts. *)
Theorem generate_cache_key_discriminates
    (ver : string) (images : gmap string ImageFile) (img : string)
    (b1 b2 : string) (l1 l2 : bool) (s1 s2 : string) :
  (b1 ≠ b2 ∧ l1 = l2 ∧ s1 = s2)
  ∨ (b1 = b2 ∧ l1 ≠ l2 ∧ s1 = s2)
  ∨ (b1 = b2 ∧ l1 = l2 ∧ sat_or_default s1 ≠ sat_or_default s2) ->
  hashed_text ver images img b1 l1 s1 ≠ hashed_text ver images img b2 l2 s2
  ∧ generate_cache_key ver images img b1 l1 s1
    = str_take 16
        (key_digest images img (hashed_text ver images img b1 l1 s1))
  ∧ generate_cache_key ver images img b2 l2 s2
    = str_take 16
        (key_digest images img (hashed_text ver images img b2 l2 s2)).
Proof.
  intros Hdiff.
  split; [|split; apply generate_cache_key_factors].
  intros E. apply hashed_text_inj in E as (Hb & Hl & Hs).
  destruct Hdiff as [(Hne & ? & ?)|[(? & Hne & ?)|(? & ? & Hne)]]; auto.
Qed.

Lemma generate_cache_key_discriminates_witness :
  ("wal" ≠ "colorthief" ∧ false = false ∧ "0.5" = "0.5"
   ∨ "wal" = "colorthief" ∧ false ≠ false ∧ "0.5" = "0.5"
   ∨ "wal" = "colorthief" ∧ false = false
     ∧ sat_or_default "0.5" ≠ sat_or_default "0.5")
  ∧ (hashed_text "1.1.0" scenario_images "img.jpg" "wal" false "0.5"
     ≠ hashed_text "1.1.0" scenario_images "img.jpg" "colorthief" false "0.5"
     ∧ generate_cache_key "1.1.0" scenario_images "img.jpg" "wal" false "0.5"
       = str_take 16
           (key_digest scenario_images "img.jpg"
              (hashed_text "1.1.0" scenario_images "img.jpg" "wal" false
                 "0.5"))
     ∧ generate_cache_key "1.1.0" scenario_images "img.jpg" "colorthief"
         false "0.5"
       = str_take 16
           (key_digest scenario_images "img.jpg"
              (hashed_text "1.1.0" scenario_images "img.jpg" "colorthief"
                 false "0.5"))).
Proof.
  assert (H : "wal" ≠ "colorthief" ∧ false = false ∧ "0.5" = "0.5"
              ∨ "wal" = "colorthief" ∧ false ≠ false ∧ "0.5" = "0.5"
              ∨ "wal" = "colorthief" ∧ false = false
                ∧ sat_or_default "0.5" ≠ sat_or_default "0.5").
  { left. split; [discriminate | split; reflexivity]. }
  split; [exact H|].
  exact (generate_cache_key_discriminates "1.1.0" scenario_images "img.jpg"
           "wal" "colorthief" false false "0.5" "0.5" H).
Defined.

(** C8 as stated fails: with the image unchanged, the saturation [""]
    and the saturation ["0"] give one and the same key. *)
Lemma generate_cache_key_sat_default_collides :
  generate_cache_key "1.1.0" scenario_images "img.jpg" "wal" false ""
  = "bb000bf59aaaa5ac"
  ∧ generate_cache_key "1.1.0" scenario_images "img.jpg" "wal" false "0"
    = "bb000bf59aaaa5ac".
Proof. split; vm_compute; reflexivity. Qed.

(** ** The table *)

Lemma select_by_key_Some k rows row :
  select_by_key k rows = Some row -> In row rows ∧ CacheEntry.key row = k.
Proof.
  unfold select_by_key. intros H. apply find_some in H as [Hin Heq].
  split; [done | by apply String.eqb_eq].
Qed.

Lemma select_delete_same k rows :
  select_by_key k (delete_by_key k rows) = None.
Proof.
  unfold select_by_key, delete_by_key.
  induction rows as [|e rows IH]; simpl; [done|].
  destruct (String.eqb (CacheEntry.key e) k) eqn:E; simpl; [done|].
  by rewrite E.
Qed.

Lemma select_delete_other k k' rows :
  k ≠ k' ->
  select_by_key k (delete_by_key k' rows) = select_by_key k rows.
Proof.
  intros Hne. unfold select_by_key, delete_by_key.
  induction rows as [|e rows IH]; simpl; [done|].
  destruct (String.eqb (CacheEntry.key e) k') eqn:E'; simpl.
  - apply String.eqb_eq in E'.
    destruct (String.eqb (CacheEntry.key e) k) eqn:E; [|done].
    apply String.eqb_eq in E. congruence.
  - by rewrite IH.
Qed.

Lemma delete_by_key_absent k rows :
  select_by_key k rows = None -> delete_by_key k rows = rows.
Proof.
  unfold select_by_key, delete_by_key.
  induction rows as [|e rows IH]; simpl; [done|].
  destruct (String.eqb (CacheEntry.key e) k) eqn:E; [done|].
  simpl. intros H. by rewrite IH.
Qed.

Section StoreProperties.

Context {Data : Type}.
Implicit Types c : AdvancedCache Data.

(** what a call of [_remove_entry] can do: nothing (it returns [False]),
    or delete the rows of the key and at most one file *)
Lemma remove_entry_cases key path c :
  (_remove_entry key path c = (false, c))
  ∨ (db_up c = true
     ∧ ∃ fs, _remove_entry key path c
             = (true, with_files fs (with_entries
                                       (delete_by_key key (entries c)) c))
             ∧ (fs = files c ∨ ∃ p, fs = delete p (files c))).
Proof.
  unfold _remove_entry. destruct (db_up c) eqn:Hup; simpl; [|by left].
  match goal with |- context [existing_file c ?p] =>
    destruct (existing_file c p) as [f|] end.
  - destruct (unlink_raises f); [by left|].
    right. split; [done|]. eexists. split; [reflexivity|]. right. eauto.
  - right. split; [done|]. exists (files c). split; [|by left].
    by destruct c.
Qed.



End StoreProperties.


Section GetCounters.

Context {Data : Type}.
Implicit Types c : AdvancedCache Data.

Lemma remove_entry_stats key path c :
  stats (snd (_remove_entry key path c)) = stats c.
Proof.
  destruct (remove_entry_cases key path c) as [->|(_ & fs & -> & _)]; done.
Qed.

(** The counters of [get] where the database answers every statement
    or fails at [connect]: on every such path on which [get] returns, one
    of the two counters grows, by one: [hit_count] when a document is
    returned, [miss_count] when [None] is.  [get] raises when loading the
    file raises an exception that its [except] clause does not name, and
    then nothing at all is changed.  (A commit that fails after the hit
    has been counted is outside the model: it would count a miss too.) *)
Lemma get_counts_once (t0 t1 t2 : Z) (key : string) c :
  match fst (get t0 t1 t2 key c) with
  | Ret (Some _) =>
      CacheStats.hit_count (stats (snd (get t0 t1 t2 key c)))
      = CacheStats.hit_count (stats c) + 1
      ∧ CacheStats.miss_count (stats (snd (get t0 t1 t2 key c)))
        = CacheStats.miss_count (stats c)
  | Ret None =>
      CacheStats.hit_count (stats (snd (get t0 t1 t2 key c)))
      = CacheStats.hit_count (stats c)
      ∧ CacheStats.miss_count (stats (snd (get t0 t1 t2 key c)))
        = CacheStats.miss_count (stats c) + 1
  | Raise e =>
      snd (get t0 t1 t2 key c) = c
      ∧ except [OSError; JSONDecodeError; BadGzipFile] e = false
  end.
Proof.
  unfold get. destruct (db_up c); cbn [negb]; [|by split].
  destruct (select_by_key key (entries c)) as [row|]; [|by split].
  destruct (existing_file c (CacheEntry.file_path row)) as [f|].
  - destruct (load_file (CacheEntry.compressed row) f) as [data|e].
    + by split.
    + destruct (except [OSError; JSONDecodeError; BadGzipFile] e) eqn:He;
        cbn [fst snd]; [|by split].
      cbn [stats with_stats]. rewrite remove_entry_stats. by split.
  - cbn [fst snd stats with_stats]. rewrite remove_entry_stats. by split.
Qed.

End GetCounters.

(** C10 fails on a gzip file that was cut short: loading it raises
    [EOFError], which the [except] clause of [get] does not name; the
    exception leaves [get], and neither [hit_count] nor [miss_count] has
    moved. *)
Lemma get_truncated_gzip_counts_nothing :
  get 60 61 62 "k1" truncated_cache = (Raise EOFError, truncated_cache)
  ∧ CacheStats.hit_count (stats (snd (get 60 61 62 "k1" truncated_cache))) = 0
  ∧ CacheStats.miss_count (stats (snd (get 60 61 62 "k1" truncated_cache)))
    = 0.
Proof. repeat split; vm_compute; reflexivity. Qed.

(** ** Histories: what happens to the row of a key *)




Lemma select_update_access k kk now count rows :
  select_by_key k (update_access kk now count rows)
  = (fun e => if String.eqb (CacheEntry.key e) kk
              then CacheEntry.touch now count e else e)
      <$> select_by_key k rows.
Proof.
  unfold select_by_key, update_access.
  induction rows as [|e rows IH]; simpl; [done|].
  destruct (String.eqb (CacheEntry.key e) kk) eqn:Ek; simpl.
  - destruct (String.eqb (CacheEntry.key e) k) eqn:E; simpl; [|done].
    by rewrite Ek.
  - destruct (String.eqb (CacheEntry.key e) k) eqn:E; simpl; [|done].
    by rewrite Ek.
Qed.

Lemma select_insert_same e rows :
  select_by_key (CacheEntry.key e) (insert_or_replace e rows) = Some e.
Proof.
  unfold insert_or_replace.
  pose proof (select_delete_same (CacheEntry.key e) rows) as Hnone.
  unfold select_by_key in *.
  induction (delete_by_key (CacheEntry.key e) rows) as [|x l IH]; simpl.
  - by rewrite String.eqb_refl.
  - simpl in Hnone.
    destruct (String.eqb (CacheEntry.key x) (CacheEntry.key e)); [done|].
    by apply IH.
Qed.

Lemma select_insert_other k e rows :
  CacheEntry.key e ≠ k ->
  select_by_key k (insert_or_replace e rows) = select_by_key k rows.
Proof.
  intros Hne. unfold insert_or_replace.
  rewrite <- (select_delete_other k (CacheEntry.key e) rows) by done.
  unfold select_by_key.
  induction (delete_by_key (CacheEntry.key e) rows) as [|x l IH]; simpl.
  - apply String.eqb_neq in Hne. by rewrite Hne.
  - by destruct (String.eqb (CacheEntry.key x) k).
Qed.

Section Histories.

Context {Data : Type}.
Implicit Types c : AdvancedCache Data.












End Histories.



(** ** Tables with distinct keys *)

Lemma in_delete_by_key e k rows :
  In e (delete_by_key k rows) <-> In e rows ∧ CacheEntry.key e ≠ k.
Proof.
  unfold delete_by_key. rewrite filter_In, negb_true_iff.
  by rewrite String.eqb_neq.
Qed.

Lemma NoDup_keys_delete k rows :
  NoDup (map CacheEntry.key rows) ->
  NoDup (map CacheEntry.key (delete_by_key k rows)).
Proof.
  induction rows as [|e rows IH]; simpl; [done|].
  intros Hnd. apply NoDup_cons in Hnd as [Hnotin Hnd].
  destruct (negb (String.eqb (CacheEntry.key e) k)); simpl; [|auto].
  apply NoDup_cons. split; [|auto].
  intros Hin. apply Hnotin.
  apply list_elem_of_In, in_map_iff in Hin as (x & Hx & Hxin).
  apply in_delete_by_key in Hxin as [Hxin _].
  apply list_elem_of_In, in_map_iff. eauto.
Qed.

Lemma NoDup_keys_inj rows e1 e2 :
  NoDup (map CacheEntry.key rows) ->
  In e1 rows -> In e2 rows ->
  CacheEntry.key e1 = CacheEntry.key e2 -> e1 = e2.
Proof.
  induction rows as [|e rows IH]; simpl; [done|].
  intros Hnd. apply NoDup_cons in Hnd as [Hnotin Hnd].
  intros [->|H1] [->|H2] Hk; auto.
  - exfalso. apply Hnotin. rewrite Hk.
    apply list_elem_of_In, in_map_iff. eauto.
  - exfalso. apply Hnotin. rewrite <- Hk.
    apply list_elem_of_In, in_map_iff. eauto.
Qed.

Lemma delete_by_key_fresh k rows :
  ¬ In k (map CacheEntry.key rows) -> delete_by_key k rows = rows.
Proof.
  induction rows as [|e rows IH]; simpl; [done|].
  intros Hnotin.
  destruct (String.eqb (CacheEntry.key e) k) eqn:E; simpl.
  - apply String.eqb_eq in E. exfalso. apply Hnotin. by left.
  - rewrite IH; [done|]. intros H. apply Hnotin. by right.
Qed.


Lemma length_delete rows r :
  NoDup (map CacheEntry.key rows) -> In r rows ->
  S (length (delete_by_key (CacheEntry.key r) rows)) = length rows.
Proof.
  induction rows as [|e rows IH]; simpl; [done|].
  intros Hnd. apply NoDup_cons in Hnd as [Hnotin Hnd].
  rewrite list_elem_of_In in Hnotin.
  intros [->|Hin].
  - rewrite String.eqb_refl. simpl.
    by rewrite delete_by_key_fresh.
  - destruct (String.eqb (CacheEntry.key e) (CacheEntry.key r)) eqn:E.
    + apply String.eqb_eq in E. exfalso. apply Hnotin. rewrite E.
      apply in_map_iff. eauto.
    + simpl. by rewrite IH.
Qed.


Section Removal.

Context {Data : Type}.
Implicit Types c : AdvancedCache Data.

(** when every removal can succeed, [_remove_entry] deletes the rows of
    the key, returns [True], and leaves a cache in which every removal can
    still succeed *)
Lemma remove_entry_ok key path c :
  removable c ->
  ∃ fs, _remove_entry key path c
        = (true, with_files fs
                   (with_entries (delete_by_key key (entries c)) c))
        ∧ removable (with_files fs
                       (with_entries (delete_by_key key (entries c)) c)).
Proof.
  intros [Hup Hunl]. unfold _remove_entry. rewrite Hup. cbn [negb].
  match goal with |- context [existing_file c ?p] =>
    destruct (existing_file c p) as [f|] eqn:Hf; set (fp := p) in * end.
  - assert (files c !! fp = Some f) as Hlk.
    { unfold existing_file in Hf. by destruct (String.eqb fp ""). }
    rewrite (Hunl _ _ Hlk). eexists. split; [reflexivity|].
    split; [done|]. cbn [files with_files]. intros p' f' Hp'.
    apply lookup_delete_Some in Hp' as [_ Hp']. eauto.
  - exists (files c). split; [by destruct c|].
    split; [done|]. exact Hunl.
Qed.

End Removal.

Lemma NoDup_keys_filter (p : CacheEntry.t -> bool) rows :
  NoDup (map CacheEntry.key rows) ->
  NoDup (map CacheEntry.key (List.filter p rows)).
Proof.
  induction rows as [|e rows IH]; simpl; [done|].
  intros Hnd. apply NoDup_cons in Hnd as [Hnotin Hnd].
  destruct (p e); simpl; [|auto].
  apply NoDup_cons. split; [|auto].
  intros Hin. apply Hnotin.
  apply list_elem_of_In, in_map_iff in Hin as (x & Hx & Hxin).
  apply filter_In in Hxin as [Hxin _].
  apply list_elem_of_In, in_map_iff. eauto.
Qed.

(** ** The orders of the queries *)

#[global] Instance most_accessed_first_total : Total most_accessed_first.
Proof. intros a b. unfold most_accessed_first. lia. Qed.
#[global] Instance most_accessed_first_trans : Transitive most_accessed_first.
Proof. intros a b c. unfold most_accessed_first. lia. Qed.
#[global] Instance oldest_first_total : Total oldest_first.
Proof. intros a b. unfold oldest_first. lia. Qed.
#[global] Instance oldest_first_trans : Transitive oldest_first.
Proof. intros a b c. unfold oldest_first. lia. Qed.
#[global] Instance recent_first_total : Total recent_first.
Proof. intros a b. unfold recent_first. lia. Qed.
#[global] Instance recent_first_trans : Transitive recent_first.
Proof. intros a b c. unfold recent_first. lia. Qed.

Lemma in_merge_sort {A} (R : relation A) `{!RelDecision R} (l : list A) x :
  In x (merge_sort R l) <-> In x l.
Proof.
  split; apply Permutation_in;
    [apply merge_sort_Permutation | symmetry; apply merge_sort_Permutation].
Qed.

Lemma NoDup_keys_merge_sort (R : relation CacheEntry.t) `{!RelDecision R} rows :
  NoDup (map CacheEntry.key rows) ->
  NoDup (map CacheEntry.key (merge_sort R rows)).
Proof.
  intros Hnd.
  eapply NoDup_Permutation_proper; [|exact Hnd].
  apply Permutation_map, merge_sort_Permutation.
Qed.

(** ** [cleanup] *)

(** what a query with [ORDER BY] returns holds the rows of the table *)
Lemma ordered_by_in R rows result x :
  ordered_by R rows result -> In x result <-> In x rows.
Proof.
  intros [Hperm _]. split; apply Permutation_in; [by symmetry|done].
Qed.


(** a merge sort gives one of the results the query may have *)
Lemma merge_sort_ordered_by (R : relation CacheEntry.t) `{!RelDecision R}
    `{!Total R} `{!Transitive R} rows :
  ordered_by R rows (merge_sort R rows).
Proof.
  split; [symmetry; apply merge_sort_Permutation|].
  by apply StronglySorted_merge_sort.
Qed.

Lemma sql_limit_in {A} (n : Z) (l : list A) x :
  In x (sql_limit n l) -> In x l.
Proof.
  unfold sql_limit. destruct (n <? 0); [done|].
  rewrite <- !list_elem_of_In. intros Hx.
  eapply elem_of_take in Hx as (i & Hi & _).
  by eapply list_elem_of_lookup_2.
Qed.



Lemma unprotected_in keep ranked rows r :
  In r (unprotected keep ranked rows)
  <-> In r rows
      ∧ ¬ In (CacheEntry.key r)
             (map CacheEntry.key (sql_limit keep ranked)).
Proof.
  unfold unprotected.
  rewrite filter_In, negb_true_iff, bool_decide_eq_false, list_elem_of_In.
  done.
Qed.

(** the candidates of [cleanup] as a merge sort orders them are one of
    the results its query may have *)
Lemma cleanup_candidates_ordered keep rows :
  ordered_by most_accessed_first rows (merge_sort most_accessed_first rows)
  ∧ ordered_by oldest_first
      (unprotected keep (merge_sort most_accessed_first rows) rows)
      (cleanup_candidates keep rows).
Proof.
  split; [apply merge_sort_ordered_by; apply _|].
  apply (merge_sort_ordered_by oldest_first).
Qed.

Lemma protected_rows_in keep rows p :
  In p (protected_rows keep rows) -> In p rows.
Proof.
  intros Hp. apply sql_limit_in in Hp.
  by apply (in_merge_sort most_accessed_first).
Qed.

Lemma cleanup_candidates_in keep rows r :
  In r (cleanup_candidates keep rows)
  <-> In r rows ∧ ¬ In (CacheEntry.key r) (protected_keys keep rows).
Proof.
  unfold cleanup_candidates.
  rewrite (in_merge_sort oldest_first), filter_In, negb_true_iff.
  rewrite bool_decide_eq_false, list_elem_of_In. done.
Qed.

Section Cleanup.

Context {Data : Type}.
Implicit Types c : AdvancedCache Data.

(** one turn of the loop, when every removal can succeed: the row is
    left alone, and then the size is within the bound, or it is removed *)
Lemma cleanup_step_cases now age bytes total c n freed r :
  removable c ->
  (cleanup_step now age bytes total (c, n, freed) r = (c, n, freed)
   ∧ total - freed <= bytes)
  ∨ (∃ c1, cleanup_step now age bytes total (c, n, freed) r
           = (c1, n + 1, freed + CacheEntry.size r)
           ∧ entries c1 = delete_by_key (CacheEntry.key r) (entries c)
           ∧ removable c1
           ∧ files c1 ⊆ files c).
Proof.
  intros Hrem. unfold cleanup_step.
  assert (Hremove :
    ∃ c1, _remove_entry (CacheEntry.key r) (CacheEntry.file_path r) c
          = (true, c1)
          ∧ entries c1 = delete_by_key (CacheEntry.key r) (entries c)
          ∧ removable c1 ∧ files c1 ⊆ files c).
  { destruct (remove_entry_ok (CacheEntry.key r) (CacheEntry.file_path r)
                c Hrem) as (fs & E & Hrem1).
    eexists. split; [exact E|]. split; [done|]. split; [done|].
    cbn [files with_files].
    destruct (remove_entry_cases (CacheEntry.key r)
                (CacheEntry.file_path r) c)
      as [E'|(_ & fs' & E' & [->| [p ->]])]; rewrite E in E'.
    - discriminate.
    - by injection E' as ->.
    - injection E' as ->. apply delete_subseteq. }
  destruct Hremove as (c1 & E & Hrows & Hrem1 & Hfs).
  destruct (age <? now - CacheEntry.last_accessed r).
  - right. exists c1. by rewrite E.
  - destruct (bytes <? total - freed) eqn:Hb.
    + right. exists c1. by rewrite E.
    + left. split; [done|]. apply Z.ltb_ge in Hb. lia.
Qed.


End Cleanup.

Lemma filter_none {A} (p : A -> bool) (l : list A) :
  (∀ x, In x l -> p x = false) -> List.filter p l = [].
Proof.
  induction l as [|a l IH]; simpl; [done|]. intros H.
  rewrite (H a) by (by left). apply IH. intros x Hx. apply H. by right.
Qed.

Section CleanupBound.

Context {Data : Type}.
Implicit Types c : AdvancedCache Data.



(** C9, as the code has it: a negative [keep_most_accessed] is handed to
    [LIMIT], which SQLite reads as no limit, so every row is protected:
    [cleanup] returns 0 and removes no row and no file. *)
Theorem cleanup_negative_keep_protects_all
    (now mb days keep : Z) (c : AdvancedCache Data) :
  keep < 0 ->
  fst (cleanup now mb days keep c) = 0
  ∧ entries (snd (cleanup now mb days keep c)) = entries c
  ∧ files (snd (cleanup now mb days keep c)) = files c
  ∧ cleanup_candidates keep (entries c) = [].
Proof.
  intros Hneg.
  assert (Hnone : cleanup_candidates keep (entries c) = []).
  { unfold cleanup_candidates.
    assert (E : List.filter
                  (fun e => negb (bool_decide
                                    (CacheEntry.key e
                                     ∈ protected_keys keep (entries c))))
                  (entries c) = []).
    { apply filter_none. intros e He.
      apply negb_false_iff, bool_decide_eq_true, list_elem_of_In.
      unfold protected_keys, protected_rows, sql_limit.
      apply Z.ltb_lt in Hneg. rewrite Hneg.
      apply in_map, (in_merge_sort most_accessed_first). done. }
    rewrite E. reflexivity. }
  split; [|split; [|split]]; try exact Hnone;
    unfold cleanup, cleanup_with; destruct (db_up c); cbn [negb]; try done;
    destruct ((sum_size (entries c) <=? mb * 1024 * 1024)
              && (count_rows (entries c) <? 1000)); try done;
    by rewrite Hnone.
Qed.

End CleanupBound.

Lemma crowded_queries :
  ordered_by most_accessed_first (entries crowded_cache) crowded_ranked
  ∧ ordered_by oldest_first
      (unprotected 1 crowded_ranked (entries crowded_cache))
      crowded_candidates.
Proof.
  split; split.
  - apply (Permutation_cons_append
             [ demo_row "hot" "/cache/schemes/hot.json.gz" 600000 999000 9 "";
               demo_row "big" "/cache/schemes/big.json.gz" 600000 999500 1
                 "" ]).
  - repeat constructor; unfold most_accessed_first; cbn; lia.
  - assert (unprotected 1 crowded_ranked (entries crowded_cache)
            = crowded_candidates) as -> by (vm_compute; reflexivity).
    reflexivity.
  - repeat constructor; unfold oldest_first; cbn; lia.
Defined.



Lemma cleanup_negative_keep_protects_all_witness :
  -1 < 0
  ∧ fst (cleanup 200 0 0 (-1) big_cache) = 0
  ∧ entries (snd (cleanup 200 0 0 (-1) big_cache)) = entries big_cache.
Proof.
  assert (H : -1 < 0) by lia.
  split; [exact H|].
  pose proof (cleanup_negative_keep_protects_all 200 0 0 (-1) big_cache H)
    as (H1 & H2 & _).
  split; [exact H1 | exact H2].
Defined.

(** C9 as stated fails: [cleanup] called with [max_size_mb = 0],
    [max_age_days = 0] and [keep_most_accessed = -1] on a table of two rows
    that are both too old and too large does not fail: it returns 0 and
    leaves both rows, where [keep_most_accessed = 0] removes both. *)
Lemma cleanup_negative_keep_returns :
  fst (cleanup 200 0 0 (-1) big_cache) = 0
  ∧ map CacheEntry.key (entries (snd (cleanup 200 0 0 (-1) big_cache)))
    = ["hot"; "cold"]
  ∧ fst (cleanup 200 0 0 0 big_cache) = 2
  ∧ entries (snd (cleanup 200 0 0 0 big_cache)) = [].
Proof. repeat split; vm_compute; reflexivity. Qed.

(** ** [deduplicate] *)

Lemma in_with_hash h rows e :
  In e (with_hash h rows) <-> In e rows ∧ CacheEntry.image_hash e = h.
Proof. unfold with_hash. by rewrite filter_In, String.eqb_eq. Qed.

Lemma rows_of_hash_in h rows e :
  In e (rows_of_hash h rows) <-> In e rows ∧ CacheEntry.image_hash e = h.
Proof.
  unfold rows_of_hash. rewrite (in_merge_sort recent_first).
  apply in_with_hash.
Qed.

Lemma in_duplicated_hashes h rows :
  In h (duplicated_hashes rows)
  <-> h ≠ "" ∧ (1 < length (with_hash h rows))%nat.
Proof.
  unfold duplicated_hashes.
  rewrite <- list_elem_of_In, elem_of_remove_dups, list_elem_of_In.
  rewrite filter_In, andb_true_iff, negb_true_iff, String.eqb_neq.
  rewrite Z.ltb_lt. fold (with_hash h rows).
  split.
  - intros (_ & Hne & Hlt). split; [done | lia].
  - intros (Hne & Hlt). split; [|split; [done | lia]].
    destruct (with_hash h rows) as [|e l] eqn:E; [simpl in Hlt; lia|].
    assert (In e (with_hash h rows)) as Hin by (rewrite E; by left).
    apply in_with_hash in Hin as [Hin <-]. by apply in_map.
Qed.

Lemma singleton_filter (p : CacheEntry.t -> bool) rows s :
  NoDup (map CacheEntry.key rows) ->
  In s rows -> p s = true ->
  (∀ e, In e rows -> p e = true -> e = s) ->
  List.filter p rows = [s].
Proof.
  induction rows as [|a rows IH]; simpl; [done|].
  intros Hnd Hs Hps Hall. apply NoDup_cons in Hnd as [Hnotin Hnd].
  rewrite list_elem_of_In in Hnotin.
  destruct (p a) eqn:Hpa.
  - assert (a = s) as -> by (apply Hall; [by left | done]).
    f_equal. apply filter_none. intros x Hx.
    destruct (p x) eqn:Hpx; [|done].
    assert (x = s) as -> by (apply Hall; [by right | done]).
    exfalso. apply Hnotin. by apply in_map.
  - destruct Hs as [->|Hs]; [congruence|].
    apply IH; auto.
Qed.

Lemma NoDup_keys_tail rows :
  NoDup (map CacheEntry.key rows) -> NoDup (map CacheEntry.key (tail rows)).
Proof.
  destruct rows as [|e rows]; simpl; [done|].
  intros Hnd. by apply NoDup_cons in Hnd as [_ Hnd].
Qed.

Section Deduplicate.

Context {Data : Type}.
Implicit Types c : AdvancedCache Data.

(** the inner loop, when every removal can succeed: each victim is
    removed and counted *)
Lemma dedup_loop_spec victims :
  ∀ c n,
    removable c -> NoDup (map CacheEntry.key (entries c)) ->
    NoDup (map CacheEntry.key victims) ->
    (∀ v, In v victims -> In v (entries c)) ->
    ∃ c',
      fold_left dedup_remove victims (c, n)
      = (c', n + Z.of_nat (length victims))
      ∧ removable c'
      ∧ NoDup (map CacheEntry.key (entries c'))
      ∧ (∀ e, In e (entries c')
              <-> In e (entries c)
                  ∧ ¬ In (CacheEntry.key e) (map CacheEntry.key victims))
      ∧ length (entries c) = (length (entries c') + length victims)%nat.
Proof.
  induction victims as [|v victims IH]; intros c n Hrem Hnd Hvnd Hin.
  - exists c. cbn [fold_left length map]. rewrite Z.add_0_r, Nat.add_0_r.
    split; [done|]. split; [done|]. split; [done|]. split; [|done].
    intros e. split; [intros He; split; [done | by intros []] | by intros [? _]].
  - cbn [fold_left map length] in *. apply NoDup_cons in Hvnd as [Hv Hvnd].
    rewrite list_elem_of_In in Hv.
    assert (Hvin : In v (entries c)) by (apply Hin; by left).
    unfold dedup_remove at 2.
    destruct (remove_entry_ok (CacheEntry.key v) (CacheEntry.file_path v)
                c Hrem) as (fs & -> & Hrem1).
    set (c1 := with_files fs
                 (with_entries (delete_by_key (CacheEntry.key v) (entries c))
                    c)) in *.
    assert (Hrows : entries c1 = delete_by_key (CacheEntry.key v) (entries c))
      by reflexivity.
    destruct (IH c1 (n + 1)) as (c' & Efold & Hrem' & Hnd' & Hiff & Hlen);
      auto.
    + rewrite Hrows. by apply NoDup_keys_delete.
    + intros v' Hv'. rewrite Hrows. apply in_delete_by_key.
      split; [apply Hin; by right|].
      intros Hk. apply Hv. rewrite <- Hk. by apply in_map.
    + exists c'. split.
      { rewrite Efold. f_equal. lia. }
      split; [done|]. split; [done|]. split.
      * intros e. rewrite Hiff, Hrows, in_delete_by_key. simpl.
        split.
        -- intros [[He Hne] Hk]. split; [done|]. intros [Heq|Hk']; auto.
        -- intros [He Hk]. split; [split; [done|]|]; auto.
      * rewrite Hrows in Hlen.
        pose proof (length_delete (entries c) v Hnd Hvin). lia.
Qed.

(** one group, when every removal can succeed: of the rows with hash
    [h] only the first of the query, a most recently accessed one, is
    left; the rows with another hash are untouched *)
Lemma dedup_group_spec h c n :
  removable c -> NoDup (map CacheEntry.key (entries c)) ->
  ∃ c' n',
    dedup_group (c, n) h = (c', n')
    ∧ removable c'
    ∧ NoDup (map CacheEntry.key (entries c'))
    ∧ (∀ e, In e (entries c') -> In e (entries c))
    ∧ (∀ e, In e (entries c) -> CacheEntry.image_hash e ≠ h ->
            In e (entries c'))
    ∧ (with_hash h (entries c) ≠ [] ->
       ∃ s, with_hash h (entries c') = [s]
            ∧ In s (entries c)
            ∧ ∀ e, In e (entries c) -> CacheEntry.image_hash e = h ->
                   CacheEntry.last_accessed e <= CacheEntry.last_accessed s)
    ∧ n' - n
      = Z.of_nat (length (entries c)) - Z.of_nat (length (entries c')).
Proof.
  intros Hrem Hnd. unfold dedup_group. cbn [fst].
  pose proof (StronglySorted_merge_sort recent_first
                (with_hash h (entries c))) as Hsorted.
  change (merge_sort recent_first (with_hash h (entries c)))
    with (rows_of_hash h (entries c)) in Hsorted.
  assert (Hgnd : NoDup (map CacheEntry.key (rows_of_hash h (entries c)))).
  { unfold rows_of_hash. by apply NoDup_keys_merge_sort, NoDup_keys_filter. }
  destruct (dedup_loop_spec (tail (rows_of_hash h (entries c))) c n)
    as (c' & Efold & Hrem' & Hnd' & Hiff & Hlen); auto.
  { by apply NoDup_keys_tail. }
  { intros v Hv. apply (rows_of_hash_in h).
    destruct (rows_of_hash h (entries c)); [done | by right]. }
  exists c', (n + Z.of_nat (length (tail (rows_of_hash h (entries c))))).
  split; [exact Efold|]. split; [done|]. split; [done|].
  split; [intros e He; by apply Hiff in He as [He _]|].
  split.
  { intros e He Hne. apply Hiff. split; [done|].
    intros Hk. apply in_map_iff in Hk as (v & Hkv & Hv).
    assert (In v (rows_of_hash h (entries c))) as Hv'.
    { destruct (rows_of_hash h (entries c)); [done | by right]. }
    apply rows_of_hash_in in Hv' as [Hvin Hvh].
    assert (v = e) as -> by (by apply (NoDup_keys_inj (entries c))).
    done. }
  split; [|lia].
  intros Hsome.
  destruct (rows_of_hash h (entries c)) as [|s victims] eqn:Eg.
  { exfalso. apply Hsome.
    destruct (with_hash h (entries c)) as [|x l] eqn:Ew; [done|].
    assert (In x (rows_of_hash h (entries c))) as Hx.
    { apply rows_of_hash_in. apply (in_with_hash h). rewrite Ew. by left. }
    by rewrite Eg in Hx. }
  cbn [tail] in *.
  assert (Hs : In s (entries c) ∧ CacheEntry.image_hash s = h).
  { apply rows_of_hash_in. rewrite Eg. by left. }
  destruct Hs as [Hsin Hsh].
  apply NoDup_cons in Hgnd as [Hsv _]. rewrite list_elem_of_In in Hsv.
  apply StronglySorted_cons in Hsorted as [Hmax _].
  rewrite Forall_forall in Hmax.
  exists s. split; [|split; [done|]].
  - apply singleton_filter; auto.
    + apply Hiff. auto.
    + by apply String.eqb_eq.
    + intros e He Hh. apply String.eqb_eq in Hh.
      apply Hiff in He as [He Hk].
      assert (In e (rows_of_hash h (entries c))) as Hg
        by (by apply rows_of_hash_in).
      rewrite Eg in Hg. destruct Hg as [->|Hg]; [done|].
      exfalso. apply Hk. by apply in_map.
  - intros e He Hh.
    assert (In e (rows_of_hash h (entries c))) as Hg
      by (by apply rows_of_hash_in).
    rewrite Eg in Hg. destruct Hg as [->|Hg]; [lia|].
    apply (Hmax e). by apply list_elem_of_In.
Qed.

End Deduplicate.

Section DeduplicateCorrect.

Context {Data : Type}.
Implicit Types c : AdvancedCache Data.

Lemma with_hash_nonempty h rows :
  with_hash h rows ≠ []
  <-> ∃ x, In x rows ∧ CacheEntry.image_hash x = h.
Proof.
  split.
  - destruct (with_hash h rows) as [|x l] eqn:E; [done|]. intros _.
    exists x. apply in_with_hash. rewrite E. by left.
  - intros (x & Hx) E. apply in_with_hash in Hx. by rewrite E in Hx.
Qed.

(** the outer loop over pairwise different hashes *)
Lemma dedup_groups_spec hashes :
  ∀ c n,
    removable c -> NoDup (map CacheEntry.key (entries c)) -> NoDup hashes ->
    ∃ c' n',
      fold_left dedup_group hashes (c, n) = (c', n')
      ∧ removable c'
      ∧ NoDup (map CacheEntry.key (entries c'))
      ∧ (∀ e, In e (entries c') -> In e (entries c))
      ∧ (∀ e, In e (entries c) -> ¬ In (CacheEntry.image_hash e) hashes ->
              In e (entries c'))
      ∧ (∀ h, In h hashes -> with_hash h (entries c) ≠ [] ->
           ∃ s, with_hash h (entries c') = [s]
                ∧ In s (entries c)
                ∧ ∀ e, In e (entries c) -> CacheEntry.image_hash e = h ->
                       CacheEntry.last_accessed e
                       <= CacheEntry.last_accessed s)
      ∧ n' - n
        = Z.of_nat (length (entries c)) - Z.of_nat (length (entries c')).
Proof.
  induction hashes as [|h hashes IH]; intros c n Hrem Hnd Hhs.
  - exists c, n. cbn [fold_left].
    split; [done|]. split; [done|]. split; [done|]. split; [done|].
    split; [done|]. split; [by intros h []|lia].
  - apply NoDup_cons in Hhs as [Hh Hhs]. rewrite list_elem_of_In in Hh.
    cbn [fold_left].
    destruct (dedup_group_spec h c n Hrem Hnd)
      as (c1 & n1 & -> & Hrem1 & Hnd1 & Hsub1 & Hkeep1 & Hone1 & Hn1).
    destruct (IH c1 n1 Hrem1 Hnd1 Hhs)
      as (c' & n' & Efold & Hrem' & Hnd' & Hsub & Hkeep & Hone & Hn).
    exists c', n'. split; [exact Efold|]. split; [done|]. split; [done|].
    split; [auto|].
    split.
    { intros e He Hnot. apply Hkeep.
      - apply Hkeep1; [done|]. intros Heq. apply Hnot. by left.
      - intros Hin. apply Hnot. by right. }
    split; [|lia].
    intros h0 [<-|Hh0] Hsome.
    + destruct (Hone1 Hsome) as (s & Es & Hs & Hmax).
      exists s. split; [|by split].
      assert (In s (entries c1) ∧ CacheEntry.image_hash s = h) as [Hs1 Hsh].
      { apply in_with_hash. rewrite Es. by left. }
      apply singleton_filter; auto.
      * apply Hkeep; [done|]. by rewrite Hsh.
      * by apply String.eqb_eq.
      * intros e He Heh. apply String.eqb_eq in Heh.
        assert (In e (with_hash h (entries c1))) as Hin
          by (apply in_with_hash; auto).
        rewrite Es in Hin. by destruct Hin as [->|[]].
    + assert (h0 ≠ h) as Hne by (intros ->; done).
      destruct (Hone h0 Hh0) as (s & Es & Hs & Hmax).
      { apply with_hash_nonempty.
        apply with_hash_nonempty in Hsome as (x & Hx & Hxh).
        exists x. split; [|done]. apply Hkeep1; [done|]. by rewrite Hxh. }
      exists s. split; [done|]. split; [auto|].
      intros e He Heh. apply Hmax; [|done].
      apply Hkeep1; [done|]. by rewrite Heh.
Qed.


End DeduplicateCorrect.



(** ** The batch producer *)

Section Batch.

Context {Data : Type}.
Variable truthy : Data -> bool.
Variable CACHE_DIR : string.
Variable list_backends : list string.
Variable cache_fname :
  string -> string -> bool -> string -> string -> result (list string).
Variable isfile : string -> bool.
Variable colors_file : string -> result Data.
Variable colors_get : string -> bool -> string -> string -> string -> result Data.
Variable as_completed : list string -> list string.

(** every submitted task completes, once *)
Hypothesis as_completed_perm : ∀ tasks, as_completed tasks ≡ₚ tasks.

Local Abbreviation try_ :=
  (try_backend CACHE_DIR cache_fname isfile colors_file colors_get).
Local Abbreviation single :=
  (_process_single_image CACHE_DIR cache_fname isfile colors_file colors_get).
Local Abbreviation collect_ :=
  (collect truthy CACHE_DIR cache_fname isfile colors_file colors_get).
Local Abbreviation fails :=
  (backend_fails CACHE_DIR cache_fname isfile colors_file colors_get).
Local Abbreviation first_ok :=
  (first_success CACHE_DIR cache_fname isfile colors_file colors_get).
Local Abbreviation exits :=
  (task_exits CACHE_DIR cache_fname isfile colors_file colors_get).

(** what a backend returns or raises does not depend on the counters *)
Lemma try_backend_result img light sat backend st st' :
  fst (try_ img light sat backend st) = fst (try_ img light sat backend st').
Proof.
  unfold try_backend.
  destruct (cache_fname img backend light CACHE_DIR sat) as [parts|e];
    [|done].
  destruct (join_parts parts) as [cache_file|e]; [|done].
  destruct (isfile cache_file); [done|].
  by destruct (colors_get img light backend CACHE_DIR sat).
Qed.

(** the three ways a task can end *)
Lemma process_single_image_spec img light sat backends :
  ∀ st,
    match fst (single img light backends sat st) with
    | Ret (Some r) => first_ok img light sat backends r
    | Ret None => Forall (fails img light sat) backends
    | Raise e => exits img light sat backends e
    end.
Proof.
  induction backends as [|b rest IH]; intros st; cbn [_process_single_image].
  - constructor.
  - destruct (try_ img light sat b st) as [[r|e] st1] eqn:E.
    + cbn [fst]. exists [], b, rest. split; [done|]. split; [constructor|].
      intros st'. rewrite (try_backend_result _ _ _ _ st' st). by rewrite E.
    + assert (Hb : ∀ st', fst (try_ img light sat b st') = Raise e).
      { intros st'. rewrite (try_backend_result _ _ _ _ st' st).
        by rewrite E. }
      destruct (is_exception e) eqn:He.
      * assert (Hfail : fails img light sat b) by (by exists e).
        specialize (IH st1).
        destruct (fst (single img light rest sat st1)) as [[r|]|e'].
        -- destruct IH as (failed & b' & rest' & -> & Hfailed & Hok).
           exists (b :: failed), b', rest'. split; [done|].
           split; [by constructor | done].
        -- by constructor.
        -- destruct IH as (failed & b' & rest' & -> & Hfailed & Hexit).
           exists (b :: failed), b', rest'. split; [done|].
           split; [by constructor | done].
      * cbn [fst]. exists [], b, rest. split; [done|].
        split; [constructor | by split].
Qed.

Lemma single_of_first_success img light sat backends r :
  first_ok img light sat backends r ->
  ∀ st, fst (single img light backends sat st) = Ret (Some r).
Proof.
  intros (failed & b & rest & -> & Hfailed & Hok).
  induction Hfailed as [|b0 failed (e & He & Hb0) _ IH]; intros st;
    cbn [app _process_single_image].
  - specialize (Hok st).
    destruct (try_ img light sat b st) as [[r'|e'] st1]; cbn [fst] in *;
      congruence.
  - specialize (Hb0 st).
    destruct (try_ img light sat b0 st) as [[r'|e'] st1]; cbn [fst] in *;
      [congruence|].
    injection Hb0 as ->. rewrite He. apply IH.
Qed.

Lemma single_of_task_exits img light sat backends e :
  exits img light sat backends e ->
  ∀ st, fst (single img light backends sat st) = Raise e.
Proof.
  intros (failed & b & rest & -> & Hfailed & Hne & Hexit).
  induction Hfailed as [|b0 failed (e0 & He0 & Hb0) _ IH]; intros st;
    cbn [app _process_single_image].
  - specialize (Hexit st).
    destruct (try_ img light sat b st) as [[r'|e'] st1]; cbn [fst] in *;
      [congruence|].
    injection Hexit as ->. by rewrite Hne.
  - specialize (Hb0 st).
    destruct (try_ img light sat b0 st) as [[r'|e'] st1]; cbn [fst] in *;
      [congruence|].
    injection Hb0 as ->. rewrite He0. apply IH.
Qed.

Lemma single_of_all_fail img light sat backends :
  Forall (fails img light sat) backends ->
  ∀ st, fst (single img light backends sat st) = Ret None.
Proof.
  induction 1 as [|b0 rest (e0 & He0 & Hb0) _ IH]; intros st;
    cbn [_process_single_image]; [done|].
  specialize (Hb0 st).
  destruct (try_ img light sat b0 st) as [[r'|e'] st1]; cbn [fst] in *;
    [congruence|].
  injection Hb0 as ->. rewrite He0. apply IH.
Qed.

(** a task ends in one way only: an image for which every backend fails
    has no first success, and a task that ends with an exception has
    none either *)
Lemma all_fail_no_success img light sat backends r :
  Forall (fails img light sat) backends ->
  ¬ first_ok img light sat backends r.
Proof.
  intros Hall Hok.
  pose proof (single_of_all_fail _ _ _ _ Hall ProcStats.fresh) as H1.
  pose proof (single_of_first_success _ _ _ _ _ Hok ProcStats.fresh) as H2.
  congruence.
Qed.

Lemma collect_spec light backends sat results st img :
  match fst (collect_ light backends sat (Ret results, st) img) with
  | Ret results' =>
      (base.size results' <= S (base.size results))%nat
      ∧ (∀ img' r,
           results' !! img' = Some r ->
           results !! img' = Some r
           ∨ (img' = img ∧ first_ok img light sat backends r
              ∧ truthy r = true))
      ∧ (∀ img' r,
           first_ok img' light sat backends r -> truthy r = true ->
           img' = img ∨ results !! img' = Some r ->
           results' !! img' = Some r)
      ∧ ∀ e, ¬ exits img light sat backends e
  | Raise e =>
      is_exception e = false ∧ exits img light sat backends e
  end.
Proof.
  unfold collect.
  pose proof (process_single_image_spec img light sat backends st) as Hone.
  destruct (single img light backends sat st) as [[[r|]|e] st1] eqn:E;
    cbn [fst] in Hone.
  - assert (Hnot : ∀ e, ¬ exits img light sat backends e).
    { intros e He.
      pose proof (single_of_task_exits _ _ _ _ _ He st) as H.
      rewrite E in H. discriminate H. }
    assert (Hsame : ∀ img' r',
              first_ok img' light sat backends r' -> img' = img -> r' = r).
    { intros img' r' Hok ->.
      pose proof (single_of_first_success _ _ _ _ _ Hok st) as H.
      rewrite E in H. by injection H. }
    destruct (truthy r) eqn:Htrue; cbn [fst].
    + split; [|split; [|split; [|done]]].
      * pose proof (map_size_insert img r results) as Hins.
        destruct (results !! img); unfold Datatypes.id in Hins; lia.
      * intros img' r' Hlk.
        apply lookup_insert_Some in Hlk as [[<- <-]|[_ Hlk]]; auto.
      * intros img' r' Hok Htrue' Hor.
        destruct (decide (img' = img)) as [->|Hne].
        -- rewrite (Hsame img r' Hok eq_refl). apply lookup_insert_eq.
        -- rewrite lookup_insert_ne by done. by destruct Hor.
    + split; [lia|]. split; [auto|]. split; [|done].
      intros img' r' Hok Htrue' [->|Hlk]; [|done].
      rewrite (Hsame img r' Hok eq_refl) in Htrue'. congruence.
  - cbn [fst]. split; [lia|]. split; [auto|]. split.
    + intros img' r' Hok Htrue' [->|Hlk]; [|done].
      pose proof (single_of_first_success _ _ _ _ _ Hok st) as H.
      rewrite E in H. discriminate H.
    + intros e He.
      pose proof (single_of_task_exits _ _ _ _ _ He st) as H.
      rewrite E in H. discriminate H.
  - destruct Hone as (failed & b & rest & Hbs & Hfailed & Hne & Hexit).
    rewrite Hne. cbn [fst]. split; [done|].
    by exists failed, b, rest.
Qed.

(** once an exception has left the loop, it is what the loop ends with *)
Lemma collect_loop_raised light backends sat e tasks :
  ∀ st,
    fst (fold_left (collect_ light backends sat) tasks (Raise e, st))
    = Raise e.
Proof.
  induction tasks as [|img tasks IH]; intros st; cbn [fold_left]; [done|].
  unfold collect at 2.
  destruct (single img light backends sat st) as [outcome st1]. apply IH.
Qed.

Lemma collect_loop_spec light backends sat tasks :
  ∀ (results : gmap string Data) st,
    match
      fst (fold_left (collect_ light backends sat) tasks (Ret results, st))
    with
    | Ret results' =>
        (base.size results' <= base.size results + length tasks)%nat
        ∧ (∀ img r,
             results' !! img = Some r ->
             results !! img = Some r
             ∨ (In img tasks ∧ first_ok img light sat backends r
                ∧ truthy r = true))
        ∧ (∀ img r,
             first_ok img light sat backends r -> truthy r = true ->
             In img tasks ∨ results !! img = Some r ->
             results' !! img = Some r)
        ∧ ∀ img e, In img tasks -> ¬ exits img light sat backends e
    | Raise e =>
        is_exception e = false
        ∧ ∃ img, In img tasks ∧ exits img light sat backends e
    end.
Proof.
  induction tasks as [|img tasks IH]; intros results st; cbn [fold_left].
  - cbn [fst length]. split; [lia|]. split; [auto|].
    split; [by intros ? ? _ _ [[]|?] | by intros ? ? []].
  - pose proof (collect_spec light backends sat results st img) as Hone.
    destruct (collect_ light backends sat (Ret results, st) img)
      as [[results1|e] st1]; cbn [fst] in Hone.
    + destruct Hone as (Hsize1 & Hfrom1 & Hkeep1 & Hnot1).
      specialize (IH results1 st1).
      destruct (fst (fold_left _ tasks (Ret results1, st1)))
        as [results'|e].
      * destruct IH as (Hsize & Hfrom & Hkeep & Hnot).
        split; [cbn [length]; lia|]. split; [|split].
        -- intros img' r' Hlk.
           destruct (Hfrom img' r' Hlk) as [Hin|(Hin & Hok & Htrue)].
           ++ destruct (Hfrom1 img' r' Hin) as [?|(-> & Hok & Htrue)];
                [by left | right; split; [by left | done]].
           ++ right. split; [by right | done].
        -- intros img' r' Hok Htrue Hor. apply Hkeep; [done..|].
           destruct Hor as [[<-|Hin]|Hlk]; [right | by left | right].
           ++ apply Hkeep1; auto.
           ++ apply Hkeep1; auto.
        -- intros img' e [<-|Hin]; [apply Hnot1 | by apply Hnot].
      * destruct IH as (Hne & img' & Hin & Hexit).
        split; [done|]. exists img'. split; [by right | done].
    + rewrite collect_loop_raised. destruct Hone as [Hne Hexit].
      split; [done|]. exists img. split; [by left | done].
Qed.

(** X16 (what a batch returns).  Whatever the order in which the tasks
    complete, when [process_image_batch] returns, its map has at most as
    many entries as there are image paths; every entry belongs to a
    submitted image and holds the truthy scheme of the first backend, in
    the given order, that did not fail for it; every submitted image with
    such a scheme has its entry; and the task of no image ended with an
    exception that is no [Exception].  When it raises, the exception is no
    [Exception] and is the one with which the task of a submitted image
    ended. *)
Theorem batch_reports_every_success
    (elapsed : Z) (image_paths : list string) (light : bool)
    (backends : list string) (sat : string) (st : ProcStats.t) :
  match
    fst (process_image_batch truthy CACHE_DIR list_backends cache_fname
           isfile colors_file colors_get as_completed elapsed image_paths
           light backends sat st)
  with
  | Ret results =>
      (base.size results <= length image_paths)%nat
      ∧ (∀ img r,
           results !! img = Some r ->
           In img image_paths
           ∧ first_ok img light sat
               (backends_or_default list_backends backends) r
           ∧ truthy r = true)
      ∧ (∀ img r,
           In img image_paths ->
           first_ok img light sat
             (backends_or_default list_backends backends) r ->
           truthy r = true ->
           results !! img = Some r)
      ∧ (∀ img,
           Forall (fails img light sat)
             (backends_or_default list_backends backends) ->
           results !! img = None)
      ∧ ∀ img e,
          In img image_paths ->
          ¬ exits img light sat
              (backends_or_default list_backends backends) e
  | Raise e =>
      is_exception e = false
      ∧ ∃ img,
          In img image_paths
          ∧ exits img light sat
              (backends_or_default list_backends backends) e
  end.
Proof.
  unfold process_image_batch.
  change (match backends with [] => take 3 list_backends | _ => backends end)
    with (backends_or_default list_backends backends).
  pose proof (collect_loop_spec light
                (backends_or_default list_backends backends) sat
                (as_completed image_paths) ∅ st) as Hloop.
  assert (Hperm : ∀ img, In img (as_completed image_paths)
                         <-> In img image_paths).
  { intros img. rewrite <- !list_elem_of_In.
    by rewrite (as_completed_perm image_paths). }
  destruct (fold_left _ (as_completed image_paths) (Ret ∅, st))
    as [[results|e] st1]; cbn [fst] in *.
  - destruct Hloop as (Hsize & Hfrom & Hkeep & Hnot).
    assert (Hfrom' : ∀ img r, results !! img = Some r ->
              In img image_paths
              ∧ first_ok img light sat
                  (backends_or_default list_backends backends) r
              ∧ truthy r = true).
    { intros img r Hlk.
      destruct (Hfrom img r Hlk) as [Hin|(Hin & Hok & Htrue)].
      - by rewrite lookup_empty in Hin.
      - split; [by apply Hperm | done]. }
    split; [|split; [exact Hfrom'|split; [|split]]].
    + rewrite map_size_empty in Hsize.
      by rewrite (Permutation_length (as_completed_perm image_paths))
        in Hsize.
    + intros img r Hin Hok Htrue. apply Hkeep; [done..|].
      left. by apply Hperm.
    + intros img Hall. destruct (results !! img) as [r|] eqn:Hlk; [|done].
      exfalso. destruct (Hfrom' img r Hlk) as (_ & Hok & _).
      by eapply all_fail_no_success.
    + intros img e Hin. apply Hnot. by apply Hperm.
  - destruct Hloop as (Hne & img & Hin & Hexit).
    split; [done|]. exists img. split; [by apply Hperm | done].
Qed.

End Batch.

(** C5, as the code has it.  [colors.get] gives up with [sys.exit], and
    [SystemExit] is no [Exception]: neither [except Exception] of
    [_process_single_image] nor the one around [future.result()] takes
    it.  With one image for which the backend that is reached exits, the
    batch does not return a map without that image: it raises
    [SystemExit], whatever the other images gave. *)
Theorem process_image_batch_system_exit :
  fst (_process_single_image "/cache" demo_cache_fname (fun _ => false)
         (fun _ => Raise OSError) demo_colors_get "exit.png" false
         ["wal"; "colorthief"] "" ProcStats.fresh)
  = Raise SystemExit
  ∧ fst (demo_batch ["a.png"; "exit.png"; "b.png"]) = Raise SystemExit
  ∧ ProcStats.images_processed
      (snd (demo_batch ["a.png"; "exit.png"; "b.png"])) = 1.
Proof. repeat split; vm_compute; reflexivity. Qed.

Lemma batch_reports_every_success_witness :
  (∀ tasks : list string, rev tasks ≡ₚ tasks)
  ∧ ∃ results,
      fst (demo_batch ["a.png"; "broken.png"; "b.png"]) = Ret results
      ∧ (base.size results <= 3)%nat
      ∧ results !! "broken.png" = None.
Proof.
  assert (H : ∀ tasks : list string, rev tasks ≡ₚ tasks).
  { intros tasks. symmetry. apply Permutation_rev. }
  split; [exact H|].
  pose proof (batch_reports_every_success demo_truthy "/cache"
                ["wal"; "colorthief"] demo_cache_fname (fun _ => false)
                (fun _ => Raise OSError) demo_colors_get (@rev string) H 7
                ["a.png"; "broken.png"; "b.png"] false [] "" ProcStats.fresh)
    as Hbatch.
  change (process_image_batch demo_truthy "/cache" ["wal"; "colorthief"]
            demo_cache_fname (fun _ => false) (fun _ => Raise OSError)
            demo_colors_get (@rev string) 7 ["a.png"; "broken.png"; "b.png"]
            false [] "" ProcStats.fresh)
    with (demo_batch ["a.png"; "broken.png"; "b.png"]) in Hbatch.
  destruct (fst (demo_batch ["a.png"; "broken.png"; "b.png"]))
    as [results|e] eqn:E.
  - exists results. split; [reflexivity|].
    destruct Hbatch as (Hsize & _ & _ & Hnone & _).
    split; [exact Hsize|]. apply Hnone.
    constructor; [exists OSError|constructor; [exists ValueError|constructor]];
      (split; [reflexivity | intros st; reflexivity]).
  - exfalso. vm_compute in E. discriminate E.
Defined.

Example demo_batch_result :
  (map_to_list <$> match fst (demo_batch ["a.png"; "broken.png"; "b.png"])
                   with Ret results => Some results | Raise _ => None end)
  = Some [ ("a.png", "colorthief scheme of a.png");
           ("b.png", "colorthief scheme of b.png") ]
  ∧ ProcStats.images_processed
      (snd (demo_batch ["a.png"; "broken.png"; "b.png"])) = 2
  ∧ ProcStats.backend_attempts
      (snd (demo_batch ["a.png"; "broken.png"; "b.png"])) !! "wal" = Some 3.
Proof. repeat split; vm_compute; reflexivity. Qed.

(** ** The scorer *)

Local Open Scope R_scope.

Lemma unparsable_luminance color :
  unparsable color -> get_luminance color = Raise ValueError.
Proof.
  intros [Hlen Hparse]. unfold get_luminance. rewrite Hparse, Hlen.
  reflexivity.
Qed.

Lemma unparsable_nonempty color :
  unparsable color -> String.eqb color "" = false.
Proof.
  intros [Hlen _]. apply String.eqb_neq. intros ->. discriminate.
Qed.

Lemma contrast_of_unparsable color1 color2 :
  unparsable color1 ∨ unparsable color2 ->
  _calculate_contrast color1 color2 = 0.5.
Proof.
  intros H. unfold _calculate_contrast.
  destruct H as [H|H]; rewrite (unparsable_luminance _ H).
  - reflexivity.
  - by destruct (get_luminance color1).
Qed.

Lemma saturation_of_unparsable color :
  unparsable color -> _calculate_saturation color = 0.
Proof.
  intros [Hlen Hparse]. unfold _calculate_saturation.
  rewrite Hparse, Hlen. cbn [Nat.eqb negb]. lra.
Qed.

Lemma wrong_length_defaults color :
  String.length (lstrip_hash color) ≠ 6%nat ->
  get_luminance color = Ret 0.5 ∧ _calculate_saturation color = 0.
Proof.
  intros Hlen. apply Nat.eqb_neq in Hlen.
  unfold get_luminance, _calculate_saturation. rewrite Hlen.
  split; [reflexivity | cbn [negb]; lra].
Qed.

(** C7 (failure isolation), as the code has it.  No exception leaves
    the scorer.  When the background or the foreground is six characters
    that are not hexadecimal numbers, the failure is caught inside
    [_calculate_contrast], which then returns 0.5: the contrast summand is
    0.5 * 0.4 and the score is the diversity summand plus 0.2 plus the
    saturation summand.  A colour of another length is no failure at all:
    its luminance is taken to be 0.5 and its saturation 0.  A palette
    colour that cannot be parsed counts with saturation 0 among the
    samples of the variance. *)
Theorem scorer_isolates_failures (color_scheme : ColorScheme) :
  unparsable (background_of color_scheme)
  ∨ unparsable (foreground_of color_scheme) ->
  background_of color_scheme ≠ "" ->
  foreground_of color_scheme ≠ "" ->
  contrast_part color_scheme = 0.5 * 0.4
  ∧ _calculate_image_score color_scheme
    = diversity_part color_scheme + 0.2 + saturation_part color_scheme
  ∧ (∀ color, unparsable color -> _calculate_saturation color = 0)
  ∧ (∀ color, String.length (lstrip_hash color) ≠ 6%nat ->
              get_luminance color = Ret 0.5
              ∧ _calculate_saturation color = 0).
Proof.
  intros Hbad Hbg Hfg.
  assert (Hc : contrast_part color_scheme = 0.5 * 0.4).
  { unfold contrast_part.
    change (dict_get "background" "#000000"
              (default [] (scheme_special color_scheme)))
      with (background_of color_scheme).
    change (dict_get "foreground" "#ffffff"
              (default [] (scheme_special color_scheme)))
      with (foreground_of color_scheme).
    apply String.eqb_neq in Hbg, Hfg. rewrite Hbg, Hfg. cbn [negb andb].
    by rewrite contrast_of_unparsable. }
  split; [exact Hc|]. split.
  - unfold _calculate_image_score. rewrite Hc. lra.
  - split; [apply saturation_of_unparsable | apply wrong_length_defaults].
Qed.

Lemma scorer_isolates_failures_witness :
  (unparsable (background_of bad_background_scheme)
   ∨ unparsable (foreground_of bad_background_scheme))
  ∧ contrast_part bad_background_scheme = 0.5 * 0.4.
Proof.
  assert (H : unparsable (background_of bad_background_scheme)
              ∨ unparsable (foreground_of bad_background_scheme)).
  { left. split; vm_compute; reflexivity. }
  split; [exact H|].
  refine (proj1 (scorer_isolates_failures bad_background_scheme H _ _));
    discriminate.
Defined.

(** C7 as stated fails: the background ["#gggggg"] makes
    [int(..., 16)] raise; the contrast summand is then 0.5 * 0.4, not 0,
    and with no palette the score is 0.2. *)
Lemma malformed_background_scores :
  _calculate_contrast "#gggggg" "#ffffff" = 0.5
  ∧ contrast_part bad_background_scheme = 0.5 * 0.4
  ∧ _calculate_image_score bad_background_scheme = 0.2.
Proof.
  assert (Hc : _calculate_contrast "#gggggg" "#ffffff" = 0.5).
  { apply contrast_of_unparsable. left. split; vm_compute; reflexivity. }
  assert (Hp : contrast_part bad_background_scheme = 0.5 * 0.4).
  { unfold contrast_part.
    change (dict_get "background" "#000000"
              (default [] (scheme_special bad_background_scheme)))
      with "#gggggg"%string.
    change (dict_get "foreground" "#ffffff"
              (default [] (scheme_special bad_background_scheme)))
      with "#ffffff"%string.
    cbn [String.eqb Ascii.eqb Bool.eqb negb andb]. by rewrite Hc. }
  split; [exact Hc | split; [exact Hp|]].
  unfold _calculate_image_score. rewrite Hp.
  unfold diversity_part, saturation_part, saturations, color_values.
  cbn [scheme_colors bad_background_scheme default map length Nat.leb take
       firstn List.filter].
  lra.
Qed.

Local Close Scope R_scope.

(** ** Checks of the model against known values *)

(** the digests agree with [hashlib] on its documented test vectors *)
Example sha256_abc :
  Digest.sha256_hexdigest "abc"
  = "ba7816bf8f01cfea414140de5dae2223b00361a396177a9cb410ff61f20015ad".
Proof. vm_compute. reflexivity. Qed.

Example sha256_two_blocks :
  Digest.sha256_hexdigest
    "abcdbcdecdefdefgefghfghighijhijkijkljklmklmnlmnomnopnopq"
  = "248d6a61d20638b8e5c026930c3e6039a33ce45964ff2167f6ecedd419db06c1".
Proof. vm_compute. reflexivity. Qed.

Example md5_empty :
  Digest.md5_hexdigest "" = "d41d8cd98f00b204e9800998ecf8427e".
Proof. vm_compute. reflexivity. Qed.

Example md5_abc :
  Digest.md5_hexdigest "abc" = "900150983cd24fb0d6963f7d28e17f72".
Proof. vm_compute. reflexivity. Qed.

Example md5_alphabet :
  Digest.md5_hexdigest "abcdefghijklmnopqrstuvwxyz"
  = "c3fcd3d76192e4007dfb496cca67e13b".
Proof. vm_compute. reflexivity. Qed.

(** scenario A of the specification, for an image that is not on disk
    (the fallback key) and for one that is *)
Example key_of_missing_image :
  generate_cache_key "1.1.0" ∅ "img.jpg" "wal" false "0.5"
  = "10c0428de53574d3".
Proof. vm_compute. reflexivity. Qed.

Example key_of_scenario_image :
  generate_cache_key "1.1.0" scenario_images "img.jpg" "wal" false "0.5"
  = "135be5dd2d5ffea7"
  ∧ generate_cache_key "1.1.0" scenario_images "img.jpg" "colorthief" false
      "0.5"
    = "da2703d175084a23".
Proof. split; vm_compute; reflexivity. Qed.

(** a hit of [get] writes [access_count + 1] and the time of the hit into
    the row, and returns the stored document *)
Example get_hit_touches_row :
  fst (get 60 61 62 "k1" healthy_cache) = Ret (Some "doc")
  ∧ entries (snd (get 60 61 62 "k1" healthy_cache))
    = [CacheEntry.touch 61 4
         (demo_row "k1" "/cache/schemes/k1.json.gz" 120 50 3 "")]
  ∧ CacheStats.hit_count (stats (snd (get 60 61 62 "k1" healthy_cache))) = 1.
Proof. repeat split; vm_compute; reflexivity. Qed.

(** Scenario B of the specification: what [put] stores, [get]
    returns. *)
Example put_then_get :
  fst (get 2 3 4 "k1"
         (snd (put 1 (Written 40 60) "k1" "the document" "" "wal" true
                 (demo_cache [] ∅))))
  = Ret (Some "the document").
Proof. vm_compute. reflexivity. Qed.

(** Scenario C of the specification: with the size bound exceeded, a row
    last accessed two days ago goes at [max_age_days = 1] and a row
    accessed an hour ago stays *)
Example cleanup_by_age :
  map CacheEntry.key
    (entries
       (snd (cleanup 200000 1 1 0
               (demo_cache
                  [ demo_row "old" "/cache/schemes/old.json.gz" 600000
                      (200000 - 2 * 86400) 0 "";
                    demo_row "new" "/cache/schemes/new.json.gz" 600000
                      (200000 - 3600) 0 "" ] ∅))))
  = ["new"].
Proof. vm_compute. reflexivity. Qed.

Local Open Scope R_scope.

Lemma saturation_of_parsed color r g b :
  String.length (lstrip_hash color) = 6%nat ->
  parse_rgb (lstrip_hash color) = Some (r, g, b) ->
  _calculate_saturation color
  = (let max_val := Rmax (IZR r / 255.0) (Rmax (IZR g / 255.0) (IZR b / 255.0)) in
     let min_val := Rmin (IZR r / 255.0) (Rmin (IZR g / 255.0) (IZR b / 255.0)) in
     if Rlt_dec 0 max_val then (max_val - min_val) / max_val else 0.0).
Proof.
  intros Hlen Hparse. unfold _calculate_saturation.
  by rewrite Hparse, Hlen.
Qed.

Example saturation_of_red : _calculate_saturation "#ff0000" = 1.
Proof.
  rewrite (saturation_of_parsed "#ff0000" 255 0 0) by (vm_compute; reflexivity).
  cbv zeta.
  assert (Hmax : Rmax (255 / 255.0) (Rmax (0 / 255.0) (0 / 255.0)) = 1).
  { unfold Rmax. repeat destruct Rle_dec; lra. }
  assert (Hmin : Rmin (255 / 255.0) (Rmin (0 / 255.0) (0 / 255.0)) = 0).
  { unfold Rmin. repeat destruct Rle_dec; lra. }
  rewrite Hmax, Hmin. destruct (Rlt_dec 0 1); lra.
Qed.

(** A palette colour that cannot be parsed is not left out of the
    saturation summand: it enters the variance as a sample 0, and here it
    lifts the summand from 0 (one sample) to 0.25 * 0.3 *)
Example malformed_palette_color_counts :
  saturations bad_palette_scheme = [1; 0]
  ∧ saturation_part bad_palette_scheme = 0.075.
Proof.
  assert (Hs : saturations bad_palette_scheme = [1; 0]).
  { unfold saturations, color_values.
    change (List.filter _ _) with ["#ff0000"%string; "#zzzzzz"%string].
    cbn [map]. rewrite saturation_of_red.
    rewrite saturation_of_unparsable by (split; vm_compute; reflexivity).
    reflexivity. }
  split; [exact Hs|].
  unfold saturation_part. rewrite Hs.
  unfold _calculate_variance, Rsum. cbn [length Nat.ltb Nat.leb map foldr INR].
  unfold Rmin. destruct Rle_dec; lra.
Qed.

Local Close Scope R_scope.

(** * Further properties of the cache *)

Lemma string_length_app (s t : string) :
  String.length (s +:+ t) = (String.length s + String.length t)%nat.
Proof. induction s as [|a s IH]; simpl; [done | by rewrite IH]. Qed.

Lemma os_path_join_length (a b : string) :
  (String.length b <= String.length (os_path_join a b))%nat.
Proof.
  unfold os_path_join.
  destruct (String.prefix "/" b); [lia|].
  destruct (String.eqb a ""); [lia|].
  destruct (String.eqb _ "/"); rewrite !string_length_app; lia.
Qed.

Lemma keys_update_access k now count rows :
  map CacheEntry.key (update_access k now count rows)
  = map CacheEntry.key rows.
Proof.
  unfold update_access. rewrite map_map. apply map_ext.
  intros e. by destruct (String.eqb (CacheEntry.key e) k).
Qed.

Lemma NoDup_keys_insert e rows :
  NoDup (map CacheEntry.key rows) ->
  NoDup (map CacheEntry.key (insert_or_replace e rows)).
Proof.
  intros Hnd. unfold insert_or_replace. rewrite map_app.
  apply NoDup_app. split; [by apply NoDup_keys_delete|].
  split; [|apply NoDup_singleton].
  intros k Hk Hk'. apply list_elem_of_In in Hk', Hk.
  destruct Hk' as [<-|[]].
  apply in_map_iff in Hk as (x & Hx & Hin).
  by apply in_delete_by_key in Hin as [_ Hne].
Qed.

Section StoreMore.

Context {Data : Type}.
Implicit Types c : AdvancedCache Data.

Lemma cache_file_name_exists_after (f : SchemeFile Data) c key compress :
  existing_file
    (with_files (<[cache_file_name c key compress := f]> (files c)) c)
    (cache_file_name c key compress)
  = Some f.
Proof.
  unfold existing_file.
  assert (String.eqb (cache_file_name c key compress) "" = false) as ->.
  { apply String.eqb_neq. intros E.
    apply (f_equal String.length) in E. unfold cache_file_name in E.
    rewrite string_length_app in E.
    pose proof (os_path_join_length (schemes_dir c) (key +:+ ".json")) as H.
    rewrite string_length_app in H. simpl in *. lia. }
  cbn [files with_files]. apply lookup_insert_eq.
Qed.

Lemma get_after_put
    (t st_size plain t0 t1 t2 : Z) (key : string) (data : Data)
    (img backend : string) (compress : bool) (c : AdvancedCache Data) :
  db_up c = true ->
  fst (get t0 t1 t2 key
         (snd (put t (Written st_size plain) key data img backend compress
                 c)))
  = Ret (Some data).
Proof.
  intros Hup. unfold put. rewrite Hup. cbn [negb fst snd].
  unfold get. cbn [db_up with_stats with_entries with_files negb entries].
  rewrite Hup. cbn [negb].
  match goal with |- context [insert_or_replace ?row _] =>
    pose proof (select_insert_same row (entries c)) as Hsel end.
  cbn [CacheEntry.key] in Hsel. rewrite Hsel.
  cbn [CacheEntry.file_path CacheEntry.compressed].
  pose proof (cache_file_name_exists_after
                (MkFile (Stored compress data) false) c key compress) as Hf.
  unfold existing_file in *. cbn [files with_stats with_entries with_files] in *.
  rewrite Hf. unfold load_file. cbn [body].
  by rewrite Bool.eqb_reflx.
Qed.

(** X3 (round trip).  With the database reachable, a [put] whose write
    went through returns [True], and a [get] of the same key right after
    it returns the stored document, compressed or not, whatever the cache
    held before. *)
Theorem put_get_round_trip
    (t st_size plain t0 t1 t2 : Z) (key : string) (data : Data)
    (img backend : string) (compress : bool) (c : AdvancedCache Data) :
  db_up c = true ->
  fst (put t (Written st_size plain) key data img backend compress c)
  = Ret true
  ∧ fst (get t0 t1 t2 key
           (snd (put t (Written st_size plain) key data img backend compress
                   c)))
    = Ret (Some data).
Proof.
  intros Hup. split; [|by apply get_after_put].
  unfold put. by rewrite Hup.
Qed.

(** X4 (frame of [get]).  A [get] of one key never changes the row of
    another key, on any of its paths. *)
Theorem get_leaves_other_rows
    (t0 t1 t2 : Z) (key other : string) (c : AdvancedCache Data) :
  other ≠ key ->
  select_by_key other (entries (snd (get t0 t1 t2 key c)))
  = select_by_key other (entries c).
Proof.
  intros Hne.
  assert (Hrm : select_by_key other
                  (entries (snd (_remove_entry key "" c)))
                = select_by_key other (entries c)).
  { destruct (remove_entry_cases key "" c) as [->|(_ & fs & -> & _)];
      [done|]. cbn [snd entries with_files with_entries].
    by apply select_delete_other. }
  unfold get. destruct (db_up c); cbn [negb]; [|done].
  destruct (select_by_key key (entries c)) as [row|] eqn:Hrow; [|done].
  destruct (existing_file c (CacheEntry.file_path row)) as [f|]; [|done].
  destruct (load_file (CacheEntry.compressed row) f) as [data|e].
  - cbn [snd entries with_stats with_entries].
    rewrite select_update_access.
    destruct (select_by_key other (entries c)) as [r|] eqn:Hr; [|done].
    apply select_by_key_Some in Hr as [_ Hk]. simpl.
    assert (String.eqb (CacheEntry.key r) key = false) as ->; [|done].
    apply String.eqb_neq. congruence.
  - by destruct (except _ e).
Qed.

(** X7 ([_remove_entry] is idempotent).  Once a removal has succeeded,
    removing the same key again succeeds and changes nothing. *)
Theorem remove_entry_idempotent (key path : string) (c : AdvancedCache Data) :
  fst (_remove_entry key path c) = true ->
  _remove_entry key path (snd (_remove_entry key path c))
  = (true, snd (_remove_entry key path c)).
Proof.
  intros Hok.
  assert (Hgone : ∀ rows, delete_by_key key (delete_by_key key rows)
                          = delete_by_key key rows).
  { intros rows. apply delete_by_key_absent, select_delete_same. }
  unfold _remove_entry in *. destruct (db_up c) eqn:Hup; [|done].
  cbn [negb] in *.
  destruct (String.eqb path "") eqn:Hpath.
  - (* the path is looked up: the second time there is no row *)
    destruct (existing_file c _) as [f|] eqn:Hf.
    + destruct (unlink_raises f); [done|]. cbn [snd].
      cbn [db_up entries files with_files with_entries]. rewrite Hup.
      cbn [negb]. rewrite select_delete_same, Hgone.
      unfold existing_file. cbn [String.eqb]. by destruct c.
    + cbn [snd db_up entries files with_files with_entries].
      rewrite Hup. cbn [negb]. rewrite select_delete_same, Hgone.
      unfold existing_file. cbn [String.eqb]. by destruct c.
  - destruct (existing_file c path) as [f|] eqn:Hf.
    + destruct (unlink_raises f); [done|]. cbn [snd].
      cbn [db_up entries files with_files with_entries]. rewrite Hup.
      cbn [negb]. rewrite Hgone.
      unfold existing_file. rewrite Hpath.
      cbn [files with_files with_entries]. rewrite lookup_delete_eq.
      by destruct c.
    + cbn [snd db_up entries files with_files with_entries].
      rewrite Hup. cbn [negb]. rewrite Hgone.
      unfold existing_file in *. rewrite Hpath in *.
      cbn [files with_files with_entries]. rewrite Hf. by destruct c.
Qed.

End StoreMore.

(** ** What every removal loop preserves *)

Section Preserved.

Context {Data : Type}.
Implicit Types c : AdvancedCache Data.

(** a property of tables that deleting the rows of a key cannot break *)
Variable P : list CacheEntry.t -> Prop.
Hypothesis P_delete : ∀ k rows, P rows -> P (delete_by_key k rows).

Lemma remove_entry_preserves key path c :
  P (entries c) -> P (entries (snd (_remove_entry key path c))).
Proof.
  intros HP.
  destruct (remove_entry_cases key path c) as [->|(_ & fs & -> & _)];
    [done|]. by apply P_delete.
Qed.

Lemma cleanup_preserves now mb days keep c :
  P (entries c) -> P (entries (snd (cleanup now mb days keep c))).
Proof.
  intros HP. unfold cleanup, cleanup_with.
  destruct (db_up c); cbn [negb]; [|done].
  match goal with |- context [if ?b then (0, c) else _] => destruct b end;
    [done|].
  assert (Hloop : ∀ l (acc : AdvancedCache Data * Z * Z),
            P (entries acc.1.1) ->
            P (entries
                 (fold_left (cleanup_step now (days * 24 * 3600)
                               (mb * 1024 * 1024) (sum_size (entries c)))
                    l acc).1.1)).
  { induction l as [|row l IH]; intros acc Hacc; [done|].
    cbn [fold_left]. apply IH. destruct acc as [[c0 n] freed].
    unfold cleanup_step.
    match goal with |- context [if ?b then _ else (c0, n, freed)] =>
      destruct b end; [|done].
    pose proof (remove_entry_preserves (CacheEntry.key row)
                  (CacheEntry.file_path row) c0 Hacc) as Hs.
    by destruct (_remove_entry _ _ c0) as [[] c1]. }
  specialize (Hloop (cleanup_candidates keep (entries c)) (c, 0, 0) HP).
  by destruct (fold_left _ _ (c, 0, 0)) as [[c1 n] freed].
Qed.

Lemma deduplicate_preserves c :
  P (entries c) -> P (entries (snd (deduplicate c))).
Proof.
  intros HP. unfold deduplicate. destruct (db_up c); cbn [negb]; [|done].
  assert (Hinner : ∀ l (acc : AdvancedCache Data * Z),
            P (entries acc.1) ->
            P (entries (fold_left dedup_remove l acc).1)).
  { induction l as [|row l IH]; intros acc Hacc; [done|].
    cbn [fold_left]. apply IH. destruct acc as [c0 n]. unfold dedup_remove.
    pose proof (remove_entry_preserves (CacheEntry.key row)
                  (CacheEntry.file_path row) c0 Hacc) as Hs.
    by destruct (_remove_entry _ _ c0) as [[] c1]. }
  assert (Houter : ∀ hs (acc : AdvancedCache Data * Z),
            P (entries acc.1) ->
            P (entries (fold_left dedup_group hs acc).1)).
  { induction hs as [|h hs IH]; intros acc Hacc; [done|].
    cbn [fold_left]. apply IH. unfold dedup_group. by apply Hinner. }
  specialize (Houter (duplicated_hashes (entries c)) (c, 0) HP).
  by destruct (fold_left _ _ (c, 0)) as [c1 n].
Qed.

End Preserved.

Section Invariants.

Context {Data : Type}.
Implicit Types c : AdvancedCache Data.

Lemma run_keeps_keys_distinct (o : @op Data) c :
  NoDup (map CacheEntry.key (entries c)) ->
  NoDup (map CacheEntry.key (entries (run o c))).
Proof.
  intros Hnd.
  destruct o as [t0 t1 t2 k|t io k data img b z|t mb days keep| | | |up fs imgs];
    cbn [run].
  - unfold get. destruct (db_up c); cbn [negb]; [|done].
    destruct (select_by_key k (entries c)) as [row|]; [|done].
    assert (Hrm : NoDup (map CacheEntry.key
                           (entries (snd (_remove_entry k "" c))))).
    { apply (remove_entry_preserves
               (fun rows => NoDup (map CacheEntry.key rows)));
        [intros; by apply NoDup_keys_delete | done]. }
    destruct (existing_file c (CacheEntry.file_path row)) as [f|]; [|done].
    destruct (load_file (CacheEntry.compressed row) f) as [data|e].
    + cbn [snd entries with_stats with_entries].
      by rewrite keys_update_access.
    + by destruct (except _ e).
  - unfold put. destruct io as [sz plain|e partial].
    + destruct (db_up c); cbn [negb snd entries with_stats with_entries
                                 with_files]; [|done].
      by apply NoDup_keys_insert.
    + by destruct (except _ e), partial.
  - apply (cleanup_preserves (fun rows => NoDup (map CacheEntry.key rows)));
      [intros; by apply NoDup_keys_delete | done].
  - apply (deduplicate_preserves
             (fun rows => NoDup (map CacheEntry.key rows)));
      [intros; by apply NoDup_keys_delete | done].
  - unfold get_analytics. by destruct (db_up c).
  - unfold clear_all.
    destruct (rmtree_walk (map_to_list (files c)) (files c)) as [[] fs];
      cbn [negb]; [|done].
    destruct (db_up c); cbn [negb snd entries with_files]; [|done].
    apply NoDup_nil_2.
  - done.
Qed.

(** X8 (the keys stay distinct).  Whatever the history of calls and of
    changes from outside, a table whose keys are pairwise distinct keeps
    pairwise distinct keys: the model never needs more than what
    [PRIMARY KEY] gives. *)
Theorem keys_stay_distinct (history : list (@op Data)) (c : AdvancedCache Data) :
  NoDup (map CacheEntry.key (entries c)) ->
  NoDup (map CacheEntry.key (entries (run_all history c))).
Proof.
  revert c. induction history as [|o history IH]; intros c Hnd; [done|].
  unfold run_all. cbn [fold_left]. apply IH. by apply run_keeps_keys_distinct.
Qed.

(** X9 (maintenance only removes).  [cleanup] and [deduplicate] never
    add or rewrite a row: every row of the table after the call is a row of
    the table before it, on every path (database unreachable, files that
    cannot be unlinked, early return). *)
Theorem maintenance_only_removes
    (now mb days keep : Z) (c : AdvancedCache Data) (e : CacheEntry.t) :
  (In e (entries (snd (cleanup now mb days keep c))) -> In e (entries c))
  ∧ (In e (entries (snd (deduplicate c))) -> In e (entries c)).
Proof.
  split.
  - apply (cleanup_preserves (fun rows => In e rows -> In e (entries c)));
      [|done].
    intros k rows H Hin. apply H. by apply in_delete_by_key in Hin as [? _].
  - apply (deduplicate_preserves (fun rows => In e rows -> In e (entries c)));
      [|done].
    intros k rows H Hin. apply H. by apply in_delete_by_key in Hin as [? _].
Qed.

End Invariants.

Section ClearAndAnalytics.

Context {Data : Type}.
Implicit Types c : AdvancedCache Data.

Lemma rmtree_walk_spec (listing : list (string * SchemeFile Data)) :
  ∀ fs,
    rmtree_walk listing fs
    = if forallb (fun pf => negb (unlink_raises pf.2)) listing
      then (true, foldr (fun pf m => delete pf.1 m) fs (reverse listing))
      else (false, (rmtree_walk listing fs).2).
Proof.
  induction listing as [|[p f] rest IH]; intros fs; [done|].
  cbn [rmtree_walk forallb snd]. destruct (unlink_raises f); [done|].
  cbn [negb andb]. rewrite IH.
  destruct (forallb _ rest); [|done].
  by rewrite reverse_cons, foldr_app.
Qed.

Lemma delete_all_lookup (keys : list (string * SchemeFile Data))
    (fs : gmap string (SchemeFile Data)) p :
  foldr (fun pf m => delete pf.1 m) fs keys !! p
  = if bool_decide (p ∈ map fst keys) then None else fs !! p.
Proof.
  induction keys as [|[k f] rest IH]; [done|].
  cbn [foldr map fst]. destruct (decide (p = k)) as [->|Hne].
  - rewrite lookup_delete_eq, bool_decide_eq_true_2; [done|].
    apply list_elem_of_In. by left.
  - rewrite lookup_delete_ne, IH by done.
    destruct (bool_decide (p ∈ map fst rest)) eqn:E.
    + apply bool_decide_eq_true in E.
      rewrite bool_decide_eq_true_2; [done|].
      apply list_elem_of_In. right. by apply list_elem_of_In.
    + apply bool_decide_eq_false in E.
      rewrite bool_decide_eq_false_2; [done|].
      intros [H|H]%list_elem_of_In; [congruence|].
      by apply E, list_elem_of_In.
Qed.

(** [clear_all] without a failure: no file, no row, fresh statistics *)
Lemma clear_all_ok c :
  removable c ->
  clear_all c
  = (true, MkCache (schemes_dir c) CacheStats.fresh true [] ∅ (images c)).
Proof.
  intros [Hup Hunl]. unfold clear_all. rewrite rmtree_walk_spec.
  assert (forallb (fun pf : string * SchemeFile Data =>
                     negb (unlink_raises pf.2)) (map_to_list (files c))
          = true) as ->.
  { apply forallb_forall. intros [p f] Hin.
    apply list_elem_of_In, elem_of_map_to_list in Hin.
    cbn [snd]. by rewrite (Hunl p f Hin). }
  cbn [negb]. rewrite Hup. cbn [negb]. do 2 f_equal.
  apply map_eq. intros p. rewrite delete_all_lookup, lookup_empty.
  destruct (bool_decide _) eqn:E; [done|].
  apply bool_decide_eq_false in E.
  destruct (files c !! p) as [f|] eqn:Hf; [|done].
  exfalso. apply E. apply list_elem_of_In, in_map_iff.
  exists (p, f). split; [done|].
  apply list_elem_of_In, elem_of_reverse. by apply elem_of_map_to_list.
Qed.

(** X10 ([clear_all]).  [clear_all] returns [True] exactly when the
    database is reachable and no file refuses to be unlinked; it then
    leaves no row and no file and resets the statistics.  When it returns
    [False] the table and the statistics are untouched. *)
Theorem clear_all_resets (c : AdvancedCache Data) :
  (fst (clear_all c) = true <-> removable c)
  ∧ (fst (clear_all c) = true ->
     entries (snd (clear_all c)) = []
     ∧ files (snd (clear_all c)) = ∅
     ∧ stats (snd (clear_all c)) = CacheStats.fresh)
  ∧ (fst (clear_all c) = false ->
     entries (snd (clear_all c)) = entries c
     ∧ stats (snd (clear_all c)) = stats c).
Proof.
  assert (Hiff : fst (clear_all c) = true <-> removable c).
  { split; [|intros H; by rewrite (clear_all_ok c H)].
    unfold clear_all. rewrite rmtree_walk_spec.
    destruct (forallb _ (map_to_list (files c))) eqn:Hall; [|done].
    cbn [negb]. destruct (db_up c) eqn:Hup; [|done]. intros _.
    split; [done|]. intros p f Hf.
    rewrite forallb_forall in Hall.
    specialize (Hall (p, f)). cbn [snd] in Hall.
    apply negb_true_iff, Hall, list_elem_of_In.
    by apply elem_of_map_to_list. }
  split; [exact Hiff|]. split.
  - intros H. apply Hiff in H. by rewrite (clear_all_ok c H).
  - unfold clear_all.
    destruct (rmtree_walk (map_to_list (files c)) (files c)) as [[] fs];
      cbn [negb]; [|done].
    by destruct (db_up c).
Qed.

Lemma usage_by_backend_lookup rows b :
  usage_by_backend rows !! b
  = match length (with_backend b rows) with
    | O => None
    | n => Some (Z.of_nat n)
    end.
Proof.
  induction rows as [|e rows IH]; [done|].
  cbn [usage_by_backend foldr with_backend List.filter].
  fold (usage_by_backend rows). fold (with_backend b rows).
  destruct (String.eqb (CacheEntry.backend e) b) eqn:E.
  - apply String.eqb_eq in E. subst b. rewrite lookup_insert_eq.
    rewrite IH. cbn [length].
    destruct (length (with_backend (CacheEntry.backend e) rows)); simpl;
      f_equal; lia.
  - apply String.eqb_neq in E. by rewrite lookup_insert_ne.
Qed.

(** X11 ([get_analytics]).  With the database reachable the refreshed
    statistics hold the number of rows, the sum of their sizes, at most ten
    most-accessed keys, and for every backend the number of rows it
    produced (a backend with no row has no entry); the hit, miss, cleanup
    and compression counters are not touched.  With the database
    unreachable the previous statistics are returned unchanged.  The
    table is never changed. *)
Theorem get_analytics_refreshes (c : AdvancedCache Data) :
  entries (snd (get_analytics c)) = entries c
  ∧ stats (snd (get_analytics c)) = fst (get_analytics c)
  ∧ CacheStats.hit_count (fst (get_analytics c))
    = CacheStats.hit_count (stats c)
  ∧ CacheStats.miss_count (fst (get_analytics c))
    = CacheStats.miss_count (stats c)
  ∧ CacheStats.cleanup_count (fst (get_analytics c))
    = CacheStats.cleanup_count (stats c)
  ∧ CacheStats.compression_saved (fst (get_analytics c))
    = CacheStats.compression_saved (stats c)
  ∧ (db_up c = false -> fst (get_analytics c) = stats c)
  ∧ (db_up c = true ->
     CacheStats.total_entries (fst (get_analytics c))
     = Z.of_nat (length (entries c))
     ∧ CacheStats.total_size (fst (get_analytics c)) = sum_size (entries c)
     ∧ (length (CacheStats.most_accessed (fst (get_analytics c))) <= 10)%nat
     ∧ ∀ b n,
         CacheStats.backend_usage (fst (get_analytics c)) !! b = Some n
         <-> n = Z.of_nat (length (with_backend b (entries c))) ∧ 0 < n).
Proof.
  unfold get_analytics. destruct (db_up c); cbn [negb fst snd].
  - do 7 (split; [done|]). intros _.
    cbn [CacheStats.refreshed CacheStats.total_entries CacheStats.total_size
         CacheStats.most_accessed CacheStats.backend_usage].
    split; [done|]. split; [done|]. split.
    + rewrite length_map. unfold sql_limit. cbn [Z.ltb Z.compare].
      rewrite length_take. lia.
    + intros b n. rewrite usage_by_backend_lookup.
      destruct (length (with_backend b (entries c))) as [|k].
      * split; [done | lia].
      * split; [intros [= <-]; lia | intros [-> _]; done].
  - do 7 (split; [done|]). done.
Qed.

End ClearAndAnalytics.

Section CleanupAge.

Context {Data : Type}.
Implicit Types c : AdvancedCache Data.

(** a candidate that is too old is removed at its turn *)
Lemma cleanup_step_old now age bytes total c n freed r :
  removable c ->
  age < now - CacheEntry.last_accessed r ->
  ∃ c1, cleanup_step now age bytes total (c, n, freed) r
        = (c1, n + 1, freed + CacheEntry.size r)
        ∧ entries c1 = delete_by_key (CacheEntry.key r) (entries c).
Proof.
  intros Hrem Hold. unfold cleanup_step.
  apply Z.ltb_lt in Hold. rewrite Hold.
  destruct (remove_entry_ok (CacheEntry.key r) (CacheEntry.file_path r)
              c Hrem) as (fs & -> & _).
  eexists. split; reflexivity.
Qed.

Lemma cleanup_step_removable now age bytes total c n freed r :
  removable c ->
  removable (cleanup_step now age bytes total (c, n, freed) r).1.1.
Proof.
  intros Hrem.
  destruct (cleanup_step_cases now age bytes total c n freed r Hrem)
    as [[-> _]|(c1 & -> & _ & Hrem1 & _)]; cbn [fst]; assumption.
Qed.

Lemma cleanup_loop_in now age bytes total rest :
  ∀ (acc : AdvancedCache Data * Z * Z) r,
    In r (entries (fold_left (cleanup_step now age bytes total) rest acc).1.1)
    -> In r (entries acc.1.1).
Proof.
  induction rest as [|y rest IH]; intros acc r H; [done|].
  cbn [fold_left] in H. apply IH in H. destruct acc as [[c0 m] fr].
  unfold cleanup_step in H. cbn [fst].
  match type of H with context [if ?b then _ else (c0, m, fr)] =>
    destruct b end; [|done].
  pose proof (remove_entry_preserves
                (fun rows => In r rows -> In r (entries c0))
                (fun k rows Hr Hd =>
                   Hr (proj1 (proj1 (in_delete_by_key r k rows) Hd)))
                (CacheEntry.key y) (CacheEntry.file_path y) c0
                (fun x => x)) as Hp.
  destruct (_remove_entry _ _ c0) as [[] c2]; by apply Hp.
Qed.

Lemma cleanup_loop_removes_old now age bytes total rest :
  ∀ (acc : AdvancedCache Data * Z * Z) r,
    removable acc.1.1 ->
    In r rest ->
    age < now - CacheEntry.last_accessed r ->
    ¬ In r (entries (fold_left (cleanup_step now age bytes total) rest acc).1.1).
Proof.
  induction rest as [|x rest IH]; intros [[c n] freed] r Hrem Hin Hold;
    [done|].
  cbn [fold_left]. destruct Hin as [->|Hin].
  - destruct (cleanup_step_old now age bytes total c n freed r Hrem Hold)
      as (c1 & -> & Hrows).
    intros Hafter.
    apply cleanup_loop_in in Hafter as Hsub. cbn [fst] in Hsub.
    rewrite Hrows in Hsub. by apply in_delete_by_key in Hsub as [_ ?].
  - apply IH; [|done|done].
    pose proof (cleanup_step_removable now age bytes total c n freed x Hrem).
    done.
Qed.

(** X12 (eviction by age).  [ranked] is what the inner query of
    [cleanup] returns, the ties in whatever order the database leaves them,
    and [candidates] what the outer query returns.  When [cleanup] does not
    return early (the table is over the size bound, or holds 1000 rows or
    more) and every removal can succeed, no row outside the first
    [keep_most_accessed] rows of [ranked] that was last accessed more than
    [max_age_days] days before [current_time] is left, whether or not the
    size bound has been reached in the meantime. *)
Theorem cleanup_removes_old
    (now mb days keep : Z) (c : AdvancedCache Data)
    (ranked candidates : list CacheEntry.t) (e : CacheEntry.t) :
  removable c ->
  ordered_by most_accessed_first (entries c) ranked ->
  ordered_by oldest_first (unprotected keep ranked (entries c)) candidates ->
  mb * 1024 * 1024 < sum_size (entries c) ∨ 1000 <= count_rows (entries c) ->
  In e (entries c) ->
  ¬ In (CacheEntry.key e) (map CacheEntry.key (sql_limit keep ranked)) ->
  days * 24 * 3600 < now - CacheEntry.last_accessed e ->
  ¬ In e (entries (snd (cleanup_with candidates now mb days c))).
Proof.
  intros Hrem _ Hcand Hover He Hunprot Hold. unfold cleanup_with.
  rewrite (proj1 Hrem). cbn [negb].
  assert ((sum_size (entries c) <=? mb * 1024 * 1024)
          && (count_rows (entries c) <? 1000) = false) as ->.
  { apply andb_false_iff.
    destruct Hover; [left; by apply Z.leb_gt | right; by apply Z.ltb_ge]. }
  pose proof (cleanup_loop_removes_old now (days * 24 * 3600)
                (mb * 1024 * 1024) (sum_size (entries c))
                candidates (c, 0, 0) e Hrem)
    as Hloop.
  destruct (fold_left _ _ (c, 0, 0)) as [[c1 n] freed].
  cbn [snd entries with_stats]. apply Hloop; [|done].
  by apply (ordered_by_in _ _ _ _ Hcand), unprotected_in.
Qed.

End CleanupAge.

Section DeduplicateTwice.

Context {Data : Type}.
Implicit Types c : AdvancedCache Data.

Lemma NoDup_rows_of_keys (rows : list CacheEntry.t) :
  NoDup (map CacheEntry.key rows) -> List.NoDup rows.
Proof.
  intros Hnd. apply NoDup_ListNoDup in Hnd.
  by apply List.NoDup_map_inv in Hnd.
Qed.

Lemma no_duplicates_no_work c :
  duplicated_hashes (entries c) = [] -> deduplicate c = (0, c).
Proof. intros E. unfold deduplicate. rewrite E. by destruct (db_up c). Qed.

Lemma duplicated_hashes_nil rows :
  (∀ h, h ≠ "" -> (length (with_hash h rows) <= 1)%nat) ->
  duplicated_hashes rows = [].
Proof.
  intros Hfew.
  destruct (duplicated_hashes rows) as [|h l] eqn:E; [done|].
  assert (In h (duplicated_hashes rows)) as Hin by (rewrite E; by left).
  apply in_duplicated_hashes in Hin as [Hne Hmany].
  specialize (Hfew h Hne). lia.
Qed.

(** X13 ([deduplicate] is idempotent).  When every removal can succeed
    and the keys are distinct, a second [deduplicate] right after the first
    finds nothing to do: it returns 0 and leaves the cache as it is. *)
Theorem deduplicate_idempotent (c : AdvancedCache Data) :
  removable c -> NoDup (map CacheEntry.key (entries c)) ->
  deduplicate (snd (deduplicate c)) = (0, snd (deduplicate c)).
Proof.
  intros Hrem Hnd. apply no_duplicates_no_work. unfold deduplicate.
  rewrite (proj1 Hrem). cbn [negb].
  destruct (dedup_groups_spec (duplicated_hashes (entries c)) c 0 Hrem Hnd)
    as (c' & n' & -> & _ & Hnd' & Hsub & _ & Hone & _).
  { unfold duplicated_hashes. apply NoDup_remove_dups. }
  cbn [snd]. apply duplicated_hashes_nil. intros h Hne.
  destruct (le_lt_dec (length (with_hash h (entries c))) 1) as [Hfew|Hmany].
  - etrans; [|exact Hfew]. apply List.NoDup_incl_length.
    + apply NoDup_rows_of_keys. by apply NoDup_keys_filter.
    + intros x Hx. apply in_with_hash in Hx as [Hx Hh].
      apply in_with_hash. auto.
  - destruct (Hone h) as (s & -> & _); [|  |cbn; lia].
    + by apply in_duplicated_hashes.
    + intros E. rewrite E in Hmany. cbn in Hmany. lia.
Qed.

End DeduplicateTwice.

(** * Further properties of the key generator *)

Lemma str_take_app_exact (a rest : string) :
  str_take (String.length a) (a +:+ rest) = a.
Proof.
  unfold str_take. rewrite list_ascii_app, <- length_list_ascii.
  rewrite firstn_app, Nat.sub_diag, firstn_all. cbn [firstn].
  rewrite app_nil_r. apply string_of_list_ascii_of_string.
Qed.

Lemma str_take_all (n : nat) (s : string) :
  (String.length s <= n)%nat -> str_take n s = s.
Proof.
  intros H. unfold str_take. rewrite firstn_all2.
  - apply string_of_list_ascii_of_string.
  - by rewrite length_list_ascii.
Qed.

Lemma str_drop_app_exact (a rest : string) :
  str_drop (String.length a) (a +:+ rest) = rest.
Proof.
  unfold str_drop. rewrite list_ascii_app, <- length_list_ascii.
  rewrite skipn_app, Nat.sub_diag, skipn_all. cbn [skipn app].
  apply string_of_list_ascii_of_string.
Qed.

Lemma string_app_assoc (a b c : string) : (a +:+ b) +:+ c = a +:+ b +:+ c.
Proof.
  apply list_ascii_inj. rewrite !list_ascii_app. symmetry. apply app_assoc.
Qed.

(** the image hash of a file that begins with the chunk [head] and ends
    with the chunk [tail] *)
Lemma image_hash_of_sandwich images path chunk_size head middle tail f :
  images !! path = Some f ->
  im_bytes f = Some (head +:+ middle +:+ tail) ->
  String.length head = chunk_size ->
  String.length tail = chunk_size ->
  _get_image_hash images path chunk_size
  = str_take 12 (Digest.md5_hexdigest (head +:+ tail)).
Proof.
  intros Hf Hbytes Hhead Htail. unfold _get_image_hash, read_bytes.
  rewrite Hf. cbn [option_bind mbind]. rewrite Hbytes. cbv zeta.
  assert (Hfirst : str_take chunk_size (head +:+ middle +:+ tail) = head).
  { rewrite <- Hhead. apply str_take_app_exact. }
  rewrite Hfirst, Hhead, Nat.min_id.
  replace (String.length (head +:+ middle +:+ tail) - chunk_size)%nat
    with (String.length (head +:+ middle)).
  - rewrite <- string_app_assoc, str_drop_app_exact.
    by rewrite (str_take_all chunk_size tail) by lia.
  - rewrite !string_length_app. lia.
Qed.

(** X14 (the content sample).  [_get_image_hash] reads the first and the
    last [chunk_size] bytes only: two files that begin with the same chunk
    and end with the same chunk have the same image hash whatever lies
    between, and when they also show the same size and the same
    modification time (in whole seconds) [generate_cache_key] gives them
    the same key. *)
Theorem image_hash_ignores_the_middle
    (ver : string) (images1 images2 : gmap string ImageFile)
    (path head middle1 middle2 tail : string) (f1 f2 : ImageFile)
    (backend : string) (light : bool) (sat : string) :
  images1 !! path = Some f1 ->
  images2 !! path = Some f2 ->
  im_bytes f1 = Some (head +:+ middle1 +:+ tail) ->
  im_bytes f2 = Some (head +:+ middle2 +:+ tail) ->
  String.length head = default_chunk_size ->
  String.length tail = default_chunk_size ->
  _get_image_hash images1 path default_chunk_size
  = _get_image_hash images2 path default_chunk_size
  ∧ (st_size f1 = st_size f2 ->
     int_of_float (st_mtime f1) = int_of_float (st_mtime f2) ->
     generate_cache_key ver images1 path backend light sat
     = generate_cache_key ver images2 path backend light sat).
Proof.
  intros H1 H2 Hb1 Hb2 Hhead Htail.
  assert (Hhash : _get_image_hash images1 path default_chunk_size
                  = _get_image_hash images2 path default_chunk_size).
  { rewrite (image_hash_of_sandwich images1 path _ head middle1 tail f1)
      by done.
    by rewrite (image_hash_of_sandwich images2 path _ head middle2 tail f2). }
  split; [exact Hhash|]. intros Hsize Hmtime.
  unfold generate_cache_key, key_components, os_stat.
  rewrite H1, H2. cbn. by rewrite Hhash, Hsize, Hmtime.
Qed.

(** * Further properties of the cache, across operations *)

Section PutThenMaintain.

Context {Data : Type}.
Implicit Types c : AdvancedCache Data.

(** a [put] whose write went through: the reply and the new table *)
Lemma put_written (t sz plain : Z) (key : string) (data : Data)
    (img backend : string) (compress : bool) c :
  db_up c = true ->
  let row :=
    CacheEntry.Make key (cache_file_name c key compress) sz t t 0 backend
      (if String.eqb img "" then ""
       else _get_image_hash (images c) img default_chunk_size)
      compress in
  fst (put t (Written sz plain) key data img backend compress c) = Ret true
  ∧ entries (snd (put t (Written sz plain) key data img backend compress c))
    = insert_or_replace row (entries c)
  ∧ images (snd (put t (Written sz plain) key data img backend compress c))
    = images c
  ∧ db_up (snd (put t (Written sz plain) key data img backend compress c))
    = true
  ∧ files (snd (put t (Written sz plain) key data img backend compress c))
    = <[cache_file_name c key compress := MkFile (Stored compress data) false]>
        (files c).
Proof.
  intros Hup row. unfold put. rewrite Hup. cbn [negb fst snd].
  by cbn [entries images db_up files with_stats with_entries with_files].
Qed.

Lemma put_written_removable (t sz plain : Z) (key : string) (data : Data)
    (img backend : string) (compress : bool) c :
  removable c ->
  removable (snd (put t (Written sz plain) key data img backend compress c)).
Proof.
  intros [Hup Hfiles].
  destruct (put_written t sz plain key data img backend compress c Hup)
    as (_ & _ & _ & Hup' & Hfs).
  split; [exact Hup'|]. rewrite Hfs. by apply map_Forall_insert_2.
Qed.

Lemma select_by_key_None k rows :
  (∀ e, In e rows -> CacheEntry.key e ≠ k) -> select_by_key k rows = None.
Proof.
  intros H. unfold select_by_key.
  destruct (find _ rows) as [e|] eqn:E; [|done].
  apply find_some in E as [Hin Hk]. apply String.eqb_eq in Hk.
  by destruct (H e Hin).
Qed.

Lemma two_rows_length (e1 e2 : CacheEntry.t) (rows : list CacheEntry.t) :
  In e1 rows -> In e2 rows -> e1 ≠ e2 -> (1 < length rows)%nat.
Proof.
  destruct rows as [|x [|y rows]]; cbn [length]; [done| |lia].
  intros [<-|[]] [<-|[]] Hne. done.
Qed.

(** X6 (images that cannot be read).  [put] asks [_get_image_hash] for
    the hash of the image, and for an image that cannot be opened the
    answer is ["unknown"], not the empty text.  So the schemes of two
    different unreadable images, stored one after the other under two
    different keys, form one group of duplicates: the rows carry the hash
    ["unknown"], and a [deduplicate()] right after removes the row stored
    first, although the two images may have nothing in common. *)
Theorem unreadable_images_are_deduplicated
    (t1 t2 sz1 plain1 sz2 plain2 : Z) (key1 key2 : string)
    (data1 data2 : Data) (img1 img2 backend1 backend2 : string)
    (compress1 compress2 : bool) (c : AdvancedCache Data) :
  removable c ->
  NoDup (map CacheEntry.key (entries c)) ->
  key1 ≠ key2 -> img1 ≠ "" -> img2 ≠ "" ->
  read_bytes (images c) img1 = None ->
  read_bytes (images c) img2 = None ->
  t1 < t2 ->
  (CacheEntry.image_hash
     <$> select_by_key key1
           (entries
              (snd (put t2 (Written sz2 plain2) key2 data2 img2 backend2
                      compress2
                      (snd (put t1 (Written sz1 plain1) key1 data1 img1
                              backend1 compress1 c)))))
   = Some "unknown")
  ∧ (CacheEntry.image_hash
       <$> select_by_key key2
             (entries
                (snd (put t2 (Written sz2 plain2) key2 data2 img2 backend2
                        compress2
                        (snd (put t1 (Written sz1 plain1) key1 data1 img1
                                backend1 compress1 c)))))
     = Some "unknown")
  ∧ select_by_key key1
      (entries
         (snd (deduplicate
                 (snd (put t2 (Written sz2 plain2) key2 data2 img2 backend2
                         compress2
                         (snd (put t1 (Written sz1 plain1) key1 data1 img1
                                 backend1 compress1 c)))))))
    = None
  ∧ 0 < fst (deduplicate
               (snd (put t2 (Written sz2 plain2) key2 data2 img2 backend2
                       compress2
                       (snd (put t1 (Written sz1 plain1) key1 data1 img1
                               backend1 compress1 c))))).
Proof.
  intros Hrem Hnd Hkeys Himg1 Himg2 Hread1 Hread2 Ht.
  pose proof (put_written_removable t1 sz1 plain1 key1 data1 img1 backend1
                compress1 c Hrem) as Hrem1.
  destruct (put_written t1 sz1 plain1 key1 data1 img1 backend1 compress1 c
              (proj1 Hrem)) as (_ & Hrows1 & Himgs1 & _ & _).
  set (c1 := snd (put t1 (Written sz1 plain1) key1 data1 img1 backend1
                    compress1 c)) in *.
  pose proof (put_written_removable t2 sz2 plain2 key2 data2 img2 backend2
                compress2 c1 Hrem1) as Hrem2.
  destruct (put_written t2 sz2 plain2 key2 data2 img2 backend2 compress2 c1
              (proj1 Hrem1)) as (_ & Hrows2 & _ & _ & _).
  set (c2 := snd (put t2 (Written sz2 plain2) key2 data2 img2 backend2
                    compress2 c1)) in *.
  apply String.eqb_neq in Himg1, Himg2.
  rewrite Himg1 in Hrows1. rewrite Himg2, Himgs1 in Hrows2.
  unfold _get_image_hash in Hrows1, Hrows2.
  rewrite Hread1 in Hrows1. rewrite Hread2 in Hrows2.
  set (row1 := CacheEntry.Make key1 (cache_file_name c key1 compress1) sz1
                 t1 t1 0 backend1 "unknown" compress1) in *.
  set (row2 := CacheEntry.Make key2 (cache_file_name c1 key2 compress2) sz2
                 t2 t2 0 backend2 "unknown" compress2) in *.
  assert (Hnd2 : NoDup (map CacheEntry.key (entries c2))).
  { rewrite Hrows2, Hrows1. by do 2 apply NoDup_keys_insert. }
  assert (Hsel1 : select_by_key key1 (entries c2) = Some row1).
  { rewrite Hrows2, select_insert_other by (cbn; congruence).
    rewrite Hrows1. apply (select_insert_same row1). }
  assert (Hsel2 : select_by_key key2 (entries c2) = Some row2).
  { rewrite Hrows2. apply (select_insert_same row2). }
  split; [by rewrite Hsel1|]. split; [by rewrite Hsel2|].
  apply select_by_key_Some in Hsel1 as [Hin1 _].
  apply select_by_key_Some in Hsel2 as [Hin2 _].
  assert (Hmany : (1 < length (with_hash "unknown" (entries c2)))%nat).
  { apply (two_rows_length row1 row2).
    - by apply in_with_hash.
    - by apply in_with_hash.
    - intros E. apply (f_equal CacheEntry.key) in E. by cbn in E. }
  unfold deduplicate. rewrite (proj1 Hrem2). cbn [negb].
  destruct (dedup_groups_spec (duplicated_hashes (entries c2)) c2 0 Hrem2
              Hnd2) as (c' & n' & -> & _ & Hnd' & Hsub & _ & Hone & Hn).
  { unfold duplicated_hashes. apply NoDup_remove_dups. }
  cbn [fst snd].
  destruct (Hone "unknown") as (s & Es & Hs & Hmax).
  { by apply in_duplicated_hashes. }
  { intros E. rewrite E in Hmany. cbn in Hmany. lia. }
  assert (Hgone : ¬ In row1 (entries c')).
  { intros Hin. assert (In row1 (with_hash "unknown" (entries c'))) as Hw
      by by apply in_with_hash.
    rewrite Es in Hw. destruct Hw as [->|[]].
    specialize (Hmax row2 Hin2 eq_refl). cbn in Hmax. lia. }
  split.
  - apply select_by_key_None. intros e He Hk. apply Hgone.
    replace row1 with e; [done|].
    by apply (NoDup_keys_inj (entries c2)); auto.
  - assert (length (entries c') < length (entries c2))%nat; [|lia].
    assert (Hincl : incl (entries c') (delete_by_key key1 (entries c2))).
    { intros e He. apply in_delete_by_key. split; [auto|].
      intros Hk. apply Hgone. replace row1 with e; [done|].
      by apply (NoDup_keys_inj (entries c2)); auto. }
    apply NoDup_fmap_1, NoDup_ListNoDup in Hnd'.
    pose proof (NoDup_incl_length Hnd' Hincl) as Hlen.
    pose proof (length_delete (entries c2) row1 Hnd2 Hin1) as Hdel.
    cbn [CacheEntry.key row1] in Hdel. subst row1. cbn [CacheEntry.key] in Hdel.
    lia.
Qed.

End PutThenMaintain.

(** ** The module-level wrappers *)

Section WrapperProperties.

Context {Data : Type}.
Variable cache_version : string.

(** X2 (the wrappers agree on the key).  With the database reachable
    and the image left as it is, what [cache_put] stored for an image, a
    backend, a mode and a saturation is what [cache_get] returns for the
    same four right after: both derive the same key, and [put] does not
    touch the image. *)
Theorem cache_put_get_round_trip
    (t st_size plain t0 t1 t2 : Z) (img backend : string) (light : bool)
    (data : Data) (sat : string) (c : AdvancedCache Data) :
  db_up c = true ->
  fst (cache_put cache_version t (Written st_size plain) img backend light
         data sat c)
  = Ret true
  ∧ fst (cache_get cache_version t0 t1 t2 img backend light sat
           (snd (cache_put cache_version t (Written st_size plain) img
                   backend light data sat c)))
    = Ret (Some data).
Proof.
  intros Hup. unfold cache_put, cache_get.
  destruct (put_written t st_size plain
              (generate_cache_key cache_version (images c) img backend light
                 sat)
              data img backend true c Hup) as (Hret & _ & -> & _ & _).
  split; [exact Hret|]. by apply get_after_put.
Qed.

End WrapperProperties.

(** * Further properties of the batch producer *)

Section BatchMore.

Context {Data : Type}.
Variable truthy : Data -> bool.
Variable CACHE_DIR : string.
Variable list_backends : list string.
Variable cache_fname :
  string -> string -> bool -> string -> string -> result (list string).
Variable isfile : string -> bool.
Variable colors_file : string -> result Data.
Variable colors_get : string -> bool -> string -> string -> string -> result Data.
Variable as_completed : list string -> list string.

Local Abbreviation try_ :=
  (try_backend CACHE_DIR cache_fname isfile colors_file colors_get).
Local Abbreviation single :=
  (_process_single_image CACHE_DIR cache_fname isfile colors_file colors_get).
Local Abbreviation collect_ :=
  (collect truthy CACHE_DIR cache_fname isfile colors_file colors_get).
Local Abbreviation fails :=
  (backend_fails CACHE_DIR cache_fname isfile colors_file colors_get).
Local Abbreviation first_ok :=
  (first_success CACHE_DIR cache_fname isfile colors_file colors_get).

(** ** The counters *)

Lemma bump_lookup k b (d : gmap string Z) :
  default 0 (ProcStats.bump k d !! b)
  = if decide (k = b) then default 0 (d !! b) + 1 else default 0 (d !! b).
Proof.
  unfold ProcStats.bump. destruct (decide (k = b)) as [->|Hne].
  - by rewrite lookup_insert_eq.
  - by rewrite lookup_insert_ne.
Qed.

(** what one attempt does to the counters: a returned scheme was counted
    as a hit or as a miss *)
Lemma try_backend_counters img light sat backend st :
  stats_consistent st ->
  let out := try_ img light sat backend st in
  stats_consistent (snd out)
  ∧ ProcStats.images_processed (snd out) = ProcStats.images_processed st
  ∧ ProcStats.cache_hits st + ProcStats.cache_misses st
    <= ProcStats.cache_hits (snd out) + ProcStats.cache_misses (snd out)
  ∧ (∀ r, fst out = Ret r ->
          ProcStats.cache_hits st + ProcStats.cache_misses st
          < ProcStats.cache_hits (snd out) + ProcStats.cache_misses (snd out)).
Proof.
  intros (Hp & Hh & Hm & Hb). cbv zeta. unfold try_backend, stats_consistent.
  assert (Hatt : ∀ b, 0 <= default 0 (ProcStats.backend_successes st !! b)
                      <= default 0
                           (ProcStats.bump backend
                              (ProcStats.backend_attempts st) !! b)).
  { intros b. rewrite bump_lookup. specialize (Hb b).
    destruct (decide (backend = b)); lia. }
  assert (Hsucc : ∀ b, 0 <= default 0
                             (ProcStats.bump backend
                                (ProcStats.backend_successes st) !! b)
                       <= default 0
                            (ProcStats.bump backend
                               (ProcStats.backend_attempts st) !! b)).
  { intros b. rewrite !bump_lookup. specialize (Hb b).
    destruct (decide (backend = b)); lia. }
  destruct (cache_fname img backend light CACHE_DIR sat) as [parts|e];
    [destruct (join_parts parts) as [cache_file|e];
     [destruct (isfile cache_file);
      [|destruct (colors_get img light backend CACHE_DIR sat) as [r|e]]|]|];
    cbn [fst snd ProcStats.images_processed ProcStats.cache_hits
         ProcStats.cache_misses ProcStats.backend_attempts
         ProcStats.backend_successes ProcStats.attempt ProcStats.hit
         ProcStats.miss ProcStats.success];
    (split; [split; [lia|split; [lia|split; [lia|done]]]|]);
    (split; [done|]); (split; [lia|]); intros r0 Hr0; try done; lia.
Qed.

Lemma single_counters img light sat backends :
  ∀ st,
    stats_consistent st ->
    let out := single img light backends sat st in
    stats_consistent (snd out)
    ∧ ProcStats.images_processed (snd out) = ProcStats.images_processed st
    ∧ ProcStats.cache_hits st + ProcStats.cache_misses st
      <= ProcStats.cache_hits (snd out) + ProcStats.cache_misses (snd out)
    ∧ (∀ r, fst out = Ret (Some r) ->
            ProcStats.cache_hits st + ProcStats.cache_misses st
            < ProcStats.cache_hits (snd out)
              + ProcStats.cache_misses (snd out)).
Proof.
  induction backends as [|b rest IH]; intros st Hst; cbv zeta;
    cbn [_process_single_image].
  - cbn. repeat split; try lia; try apply Hst. done.
  - destruct (try_backend_counters img light sat b st Hst)
      as (Hst1 & Hp1 & Hle1 & Hlt1).
    destruct (try_ img light sat b st) as [[r|e] st1]; cbn [fst snd] in *.
    + split; [done|]. split; [done|]. split; [done|]. intros r' _.
      by apply (Hlt1 r).
    + destruct (is_exception e); [|by cbn [fst snd]].
      destruct (IH st1 Hst1) as (Hst2 & Hp2 & Hle2 & Hlt2).
      split; [done|]. split; [lia|]. split; [lia|].
      intros r Hr. specialize (Hlt2 r Hr). lia.
Qed.

Lemma collect_counters light backends sat collected st img :
  stats_consistent st ->
  stats_consistent (snd (collect_ light backends sat (collected, st) img)).
Proof.
  intros Hst. unfold collect.
  destruct (single_counters img light sat backends st Hst)
    as (Hst1 & Hp1 & Hle1 & Hlt1).
  destruct (single img light backends sat st) as [outcome st1];
    cbn [fst snd] in *.
  destruct collected as [results|e]; [|done].
  destruct outcome as [[r|]|e]; [|done|by destruct (is_exception e)].
  destruct (truthy r); cbn [snd]; [|done].
  specialize (Hlt1 r eq_refl).
  destruct Hst as (Hp & _), Hst1 as (_ & Hh1 & Hm1 & Hb1).
  repeat split; cbn; try lia; apply Hb1.
Qed.

(** X17 (the counters stay consistent).  With the tasks run one after
    the other, as modelled, a batch leaves the counters of the processor
    consistent when it found them so (as [__init__] and [reset_stats] leave
    them), whether it returns or raises: no counter is negative, the images
    processed are at most the cache hits and misses together, and no
    backend has more successes than attempts. *)
Theorem process_image_batch_keeps_stats_consistent
    (elapsed : Z) (image_paths : list string) (light : bool)
    (backends : list string) (sat : string) (st : ProcStats.t) :
  stats_consistent st ->
  stats_consistent
    (snd (process_image_batch truthy CACHE_DIR list_backends cache_fname
            isfile colors_file colors_get as_completed elapsed image_paths
            light backends sat st)).
Proof.
  intros Hst. unfold process_image_batch.
  set (bs := match backends with [] => take 3 list_backends | _ => backends
             end).
  assert (H : ∀ tasks collected st0,
            stats_consistent st0 ->
            stats_consistent
              (snd (fold_left (collect_ light bs sat) tasks
                      (collected, st0)))).
  { induction tasks as [|img tasks IH]; intros collected st0 H0;
      cbn [fold_left]; [done|].
    pose proof (collect_counters light bs sat collected st0 img H0) as H1.
    destruct (collect_ light bs sat (collected, st0) img)
      as [collected1 st1].
    by apply IH. }
  specialize (H (as_completed image_paths) (Ret ∅) st Hst).
  destruct (fold_left _ (as_completed image_paths) (Ret ∅, st))
    as [[results|e] st1]; exact H.
Qed.

End BatchMore.

(** ** [get_stats] *)

Lemma rate_bounds (a b : Z) :
  0 <= a <= b -> 0 < b ->
  (0 <= Qdiv (inject_Z a) (inject_Z b))%Q
  ∧ (Qdiv (inject_Z a) (inject_Z b) <= 1)%Q.
Proof.
  intros Hab Hb.
  assert (Hpos : (0 < inject_Z b)%Q).
  { unfold Qlt, inject_Z. cbn. lia. }
  split.
  - apply Qle_shift_div_l; [done|]. unfold Qle, inject_Z. cbn. lia.
  - apply Qle_shift_div_r; [done|]. unfold Qle, inject_Z. cbn. lia.
Qed.

Lemma successes_read_lookup (s : ProcStats.t) (b : string) :
  default 0 (successes_read s !! b)
  = default 0 (ProcStats.backend_successes s !! b).
Proof.
  unfold successes_read. rewrite lookup_union, lookup_fmap.
  destruct (ProcStats.backend_successes s !! b);
    by destruct (attempted s !! b).
Qed.

Lemma attempted_lookup (s : ProcStats.t) (b : string) (n : Z) :
  attempted s !! b = Some n
  <-> ProcStats.backend_attempts s !! b = Some n ∧ 0 < n.
Proof. unfold attempted. by rewrite map_lookup_filter_Some. Qed.

(** X18 ([get_stats] never divides by zero).  On consistent counters
    [get_stats] returns its report, no division by zero interrupting it:
    when an image was processed the hit rate and the average time are
    there, and the hit rate lies between 0 and 1; the success rate of a
    backend is reported exactly when the backend was attempted, and lies
    between 0 and 1.  Reading the successes of a backend makes it a key
    of the dictionary of the processor, so afterwards every backend that
    was attempted is one; the counters are consistent afterwards too. *)
Theorem get_stats_rates (s : ProcStats.t) :
  stats_consistent s ->
  ∃ report,
    fst (get_stats s) = Some report
    ∧ (0 < ProcStats.images_processed s ->
       ∃ rate avg,
         cache_hit_rate report = Some rate
         ∧ avg_processing_time report = Some avg
         ∧ (0 <= rate)%Q ∧ (rate <= 1)%Q)
    ∧ (ProcStats.images_processed s = 0 ->
       cache_hit_rate report = None ∧ avg_processing_time report = None)
    ∧ (∀ b, is_Some (backend_success_rates report !! b)
            <-> 0 < default 0 (ProcStats.backend_attempts s !! b))
    ∧ (∀ b rate, backend_success_rates report !! b = Some rate ->
                 (0 <= rate)%Q ∧ (rate <= 1)%Q)
    ∧ (∀ b, 0 < default 0 (ProcStats.backend_attempts s !! b) ->
            is_Some (ProcStats.backend_successes (snd (get_stats s)) !! b))
    ∧ stats_consistent (snd (get_stats s)).
Proof.
  intros (Hp & Hh & Hm & Hb). unfold get_stats, py_truediv.
  assert (Htouched :
    ∀ b, 0 < default 0 (ProcStats.backend_attempts s !! b) ->
         is_Some (successes_read s !! b)).
  { intros b Hpos. unfold successes_read.
    destruct (ProcStats.backend_attempts s !! b) as [n|] eqn:En;
      [|cbn in Hpos; lia].
    assert (attempted s !! b = Some n) as Hatt by by apply attempted_lookup.
    rewrite lookup_union, lookup_fmap, Hatt.
    by destruct (ProcStats.backend_successes s !! b). }
  assert (Hrates :
    ∀ b rate,
      map_imap
        (fun backend attempts =>
           Some (Qdiv (inject_Z (default 0 (successes_read s !! backend)))
                      (inject_Z attempts)))
        (attempted s) !! b = Some rate ->
      (0 <= rate)%Q ∧ (rate <= 1)%Q).
  { intros b rate. rewrite map_lookup_imap.
    destruct (attempted s !! b) as [n|] eqn:E; [|done].
    cbn. intros [= <-]. apply attempted_lookup in E as [E Hn].
    rewrite successes_read_lookup. apply rate_bounds; [|done].
    specialize (Hb b). by rewrite E in Hb. }
  assert (Hkeys :
    ∀ b,
      is_Some
        (map_imap
           (fun backend attempts =>
              Some (Qdiv (inject_Z (default 0 (successes_read s !! backend)))
                         (inject_Z attempts)))
           (attempted s) !! b)
      <-> 0 < default 0 (ProcStats.backend_attempts s !! b)).
  { intros b. rewrite map_lookup_imap. split.
    - intros [rate E].
      destruct (attempted s !! b) as [n|] eqn:En; [|done].
      apply attempted_lookup in En as [-> Hn]. done.
    - intros Hpos.
      destruct (ProcStats.backend_attempts s !! b) as [n|] eqn:En;
        [|cbn in Hpos; lia].
      assert (attempted s !! b = Some n) as -> by by apply attempted_lookup.
      by eexists. }
  assert (Hcons :
    stats_consistent
      (ProcStats.Make (ProcStats.images_processed s) (ProcStats.cache_hits s)
         (ProcStats.cache_misses s) (ProcStats.total_time s)
         (ProcStats.backend_attempts s) (successes_read s))).
  { split; [done|]. split; [done|]. split; [done|]. intros b.
    cbn [ProcStats.backend_successes ProcStats.backend_attempts].
    rewrite successes_read_lookup. apply Hb. }
  destruct (0 <? ProcStats.images_processed s) eqn:Hproc.
  - apply Z.ltb_lt in Hproc.
    assert ((ProcStats.cache_hits s + ProcStats.cache_misses s =? 0) = false)
      as -> by (apply Z.eqb_neq; lia).
    assert ((ProcStats.images_processed s =? 0) = false)
      as -> by (apply Z.eqb_neq; lia).
    eexists. split; [done|]. cbn [cache_hit_rate avg_processing_time
                                  backend_success_rates fst snd].
    split.
    { intros _. do 2 eexists. split; [done|]. split; [done|].
      apply rate_bounds; lia. }
    split; [lia|]. by split; [|split; [|split]].
  - apply Z.ltb_ge in Hproc.
    eexists. split; [done|]. cbn [cache_hit_rate avg_processing_time
                                  backend_success_rates fst snd].
    split; [lia|]. split; [done|]. by split; [|split; [|split]].
Qed.

(** * Further properties of the scorer *)

Lemma in_all_ascii (a : ascii) : In a all_ascii.
Proof.
  unfold all_ascii. rewrite <- (ascii_nat_embedding a).
  apply in_map, in_seq. pose proof (nat_ascii_bounded a). lia.
Qed.

Lemma channels_in_range_ok :
  forallb (fun a => forallb (channel_in_range a) all_ascii) all_ascii = true.
Proof. vm_compute. reflexivity. Qed.

(** [int(s, 16)] of a text of two characters lies between [-15] (["-f"])
    and [255] (["ff"]) *)
Lemma py_int16_two_chars (a b : ascii) (v : Z) :
  py_int16 (String a (String b "")) = Some v -> -15 <= v <= 255.
Proof.
  intros Hv.
  pose proof (proj1 (forallb_forall _ _) channels_in_range_ok a
                (in_all_ascii a)) as H.
  cbv beta in H.
  pose proof (proj1 (forallb_forall _ _) H b (in_all_ascii b)) as Hab.
  unfold channel_in_range in Hab. rewrite Hv in Hab. lia.
Qed.

Lemma parse_rgb_range (hex_color : string) (r g b : Z) :
  String.length hex_color = 6%nat ->
  parse_rgb hex_color = Some (r, g, b) ->
  -15 <= r <= 255 ∧ -15 <= g <= 255 ∧ -15 <= b <= 255.
Proof.
  intros Hlen.
  destruct hex_color as [|c1 [|c2 [|c3 [|c4 [|c5 [|c6 [|c7 rest]]]]]]];
    try discriminate Hlen.
  unfold parse_rgb.
  change (substring 0 2 (String c1 (String c2 (String c3 (String c4
            (String c5 (String c6 "")))))))
    with (String c1 (String c2 "")).
  change (substring 2 2 (String c1 (String c2 (String c3 (String c4
            (String c5 (String c6 "")))))))
    with (String c3 (String c4 "")).
  change (substring 4 2 (String c1 (String c2 (String c3 (String c4
            (String c5 (String c6 "")))))))
    with (String c5 (String c6 "")).
  destruct (py_int16 (String c1 (String c2 ""))) as [r'|] eqn:Hr; [|done].
  destruct (py_int16 (String c3 (String c4 ""))) as [g'|] eqn:Hg; [|done].
  destruct (py_int16 (String c5 (String c6 ""))) as [b'|] eqn:Hb; [|done].
  intros [= <- <- <-].
  split; [|split]; by eapply py_int16_two_chars.
Qed.

Local Open Scope R_scope.

Lemma linear_channel_lower (c : R) :
  -15 / 255 <= c -> -0.005 <= linear_channel c.
Proof.
  intros Hc. unfold linear_channel. destruct (Rle_dec c 0.03928).
  - lra.
  - unfold Rpower. pose proof (exp_pos (2.4 * ln ((c + 0.055) / 1.055))).
    lra.
Qed.

Lemma channel_lower (v : Z) : (-15 <= v)%Z -> -15 / 255 <= IZR v / 255.0.
Proof. intros Hv. apply IZR_le in Hv. lra. Qed.

Lemma channel_upper (v : Z) : (v <= 255)%Z -> IZR v / 255.0 <= 1.
Proof. intros Hv. apply IZR_le in Hv. lra. Qed.

(** the luminance that [get_luminance] returns is never below [-0.005]:
    the denominator [darker + 0.05] of the contrast is positive *)
Lemma get_luminance_lower (color : string) (l : R) :
  get_luminance color = Ret l -> -0.005 <= l.
Proof.
  unfold get_luminance.
  destruct (String.length (lstrip_hash color) =? 6)%nat eqn:Hlen;
    cbn [negb]; [|intros [= <-]; lra].
  apply Nat.eqb_eq in Hlen.
  destruct (parse_rgb (lstrip_hash color)) as [[[r g] b]|] eqn:Hrgb; [|done].
  destruct (parse_rgb_range _ r g b Hlen Hrgb) as ([Hr _] & [Hg _] & [Hb _]).
  intros [= <-].
  pose proof (linear_channel_lower _ (channel_lower r Hr)).
  pose proof (linear_channel_lower _ (channel_lower g Hg)).
  pose proof (linear_channel_lower _ (channel_lower b Hb)).
  lra.
Qed.

Lemma contrast_range (color1 color2 : string) :
  1 / 21 <= _calculate_contrast color1 color2 <= 1.
Proof.
  unfold _calculate_contrast.
  destruct (get_luminance color1) as [l1|e1] eqn:H1;
    destruct (get_luminance color2) as [l2|e2] eqn:H2; try lra.
  apply get_luminance_lower in H1, H2. cbv zeta.
  assert (Hd : 0 < Rmin l1 l2 + 0.05).
  { unfold Rmin. destruct (Rle_dec l1 l2); lra. }
  assert (Hl : Rmin l1 l2 + 0.05 <= Rmax l1 l2 + 0.05).
  { pose proof (Rmin_l l1 l2). pose proof (Rmax_l l1 l2). lra. }
  assert (Hratio : 1 <= (Rmax l1 l2 + 0.05) / (Rmin l1 l2 + 0.05)).
  { apply (Rmult_le_reg_r (Rmin l1 l2 + 0.05)); [done|].
    unfold Rdiv. rewrite Rmult_assoc, Rinv_l by lra. lra. }
  unfold Rmin at 1 3. destruct (Rle_dec _ 1.0); lra.
Qed.

(** X19 (the contrast score).  For any two texts whatever, well-formed
    colours or not, [_calculate_contrast] returns a number between 1/21 and
    1, and the same number when the two are exchanged. *)
Theorem contrast_bounds (color1 color2 : string) :
  1 / 21 <= _calculate_contrast color1 color2 <= 1
  ∧ _calculate_contrast color1 color2 = _calculate_contrast color2 color1.
Proof.
  split; [apply contrast_range|]. unfold _calculate_contrast.
  destruct (get_luminance color1) as [l1|e1];
    destruct (get_luminance color2) as [l2|e2]; try reflexivity.
  cbv zeta. by rewrite (Rmax_comm l1 l2), (Rmin_comm l1 l2).
Qed.

Local Close Scope R_scope.

Local Open Scope R_scope.

Lemma positive_channel (v : Z) :
  0 < IZR v / 255.0 -> 1 / 255 <= IZR v / 255.0.
Proof.
  intros Hpos. assert (H : 0 < IZR v) by lra.
  apply lt_IZR in H. assert (H1 : (1 <= v)%Z) by lia.
  apply IZR_le in H1. lra.
Qed.

Lemma ratio_bounds (hi lo : R) :
  1 / 255 <= hi -> -15 / 255 <= lo -> lo <= hi ->
  0 <= (hi - lo) / hi <= 16 ∧ (0 <= lo -> (hi - lo) / hi <= 1).
Proof.
  intros Hhi Hlo Hle.
  assert (Hpos : 0 < hi) by lra.
  assert (E : ∀ x, x / hi * hi = x).
  { intros x. unfold Rdiv. rewrite Rmult_assoc, Rinv_l by lra. lra. }
  split; [split|intros Hlo0].
  - apply (Rmult_le_reg_r hi); [done|]. rewrite E. lra.
  - apply (Rmult_le_reg_r hi); [done|]. rewrite E. lra.
  - apply (Rmult_le_reg_r hi); [done|]. rewrite E. lra.
Qed.

(** X20 (the saturation).  [_calculate_saturation] returns a number
    between 0 and 16 for any text whatever, and between 0 and 1 when no
    channel is read as a negative number.  ([int(s, 16)] takes a sign, so a
    text such as ["#01-f-f"] has the channels 1, -15 and -15.) *)
Theorem saturation_bounds (color : string) :
  0 <= _calculate_saturation color <= 16
  ∧ (∀ r g b,
       parse_rgb (lstrip_hash color) = Some (r, g, b) ->
       (0 <= r)%Z -> (0 <= g)%Z -> (0 <= b)%Z ->
       _calculate_saturation color <= 1).
Proof.
  unfold _calculate_saturation.
  destruct (String.length (lstrip_hash color) =? 6)%nat eqn:Hlen;
    cbn [negb]; [|split; [lra | intros; lra]].
  apply Nat.eqb_eq in Hlen.
  destruct (parse_rgb (lstrip_hash color)) as [[[r g] b]|] eqn:Hrgb;
    [|split; [lra | intros; lra]].
  destruct (parse_rgb_range _ r g b Hlen Hrgb)
    as ([Hr Hr'] & [Hg Hg'] & [Hb Hb']).
  cbv zeta.
  set (hi := Rmax (IZR r / 255.0) (Rmax (IZR g / 255.0) (IZR b / 255.0))).
  set (lo := Rmin (IZR r / 255.0) (Rmin (IZR g / 255.0) (IZR b / 255.0))).
  assert (Hlo : -15 / 255 <= lo).
  { unfold lo. repeat apply Rmin_case; by apply channel_lower. }
  assert (Hle : lo <= hi).
  { pose proof (Rmin_l (IZR r / 255.0) (Rmin (IZR g / 255.0) (IZR b / 255.0))).
    pose proof (Rmax_l (IZR r / 255.0) (Rmax (IZR g / 255.0) (IZR b / 255.0))).
    unfold lo, hi. lra. }
  assert (Hhi : 0 < hi -> 1 / 255 <= hi).
  { unfold hi. repeat apply Rmax_case; apply positive_channel. }
  destruct (Rlt_dec 0 hi) as [Hpos|Hnot].
  - destruct (ratio_bounds hi lo (Hhi Hpos) Hlo Hle) as [Hb16 Hb1].
    split; [exact Hb16|].
    intros r0 g0 b0 [= <- <- <-] Hr0 Hg0 Hb0. apply Hb1.
    unfold lo. apply IZR_le in Hr0, Hg0, Hb0.
    repeat apply Rmin_case; lra.
  - split; [lra | intros; lra].
Qed.

(** the bound 16 is attained *)
Example saturation_of_signed_channels : _calculate_saturation "#01-f-f" = 16.
Proof.
  rewrite (saturation_of_parsed "#01-f-f" 1 (-15) (-15))
    by (vm_compute; reflexivity).
  cbv zeta.
  assert (Hmax : Rmax (1 / 255.0) (Rmax (-15 / 255.0) (-15 / 255.0))
                 = 1 / 255).
  { unfold Rmax. repeat destruct Rle_dec; lra. }
  assert (Hmin : Rmin (1 / 255.0) (Rmin (-15 / 255.0) (-15 / 255.0))
                 = -15 / 255).
  { unfold Rmin. repeat destruct Rle_dec; lra. }
  rewrite Hmax, Hmin. destruct (Rlt_dec 0 (1 / 255)); lra.
Qed.

Local Close Scope R_scope.

Local Open Scope R_scope.

Lemma Rsum_nonneg (values : list R) :
  Forall (fun x => 0 <= x) values -> 0 <= Rsum values.
Proof.
  unfold Rsum. induction 1 as [|x l Hx _ IH]; cbn [foldr]; lra.
Qed.

Lemma variance_nonneg (values : list R) : 0 <= _calculate_variance values.
Proof.
  unfold _calculate_variance.
  destruct (length values <? 2)%nat eqn:Hlen; [lra|].
  apply Nat.ltb_ge in Hlen.
  assert (Hn : 0 < INR (length values)) by (apply lt_0_INR; lia).
  apply Rmult_le_pos; [|left; by apply Rinv_0_lt_compat].
  apply Rsum_nonneg, Forall_forall. intros y Hy.
  apply list_elem_of_In, in_map_iff in Hy as (x & <- & _). apply pow2_ge_0.
Qed.

Lemma length_remove_dups (l : list string) :
  (length (remove_dups l) <= length l)%nat.
Proof.
  apply NoDup_incl_length.
  - apply NoDup_ListNoDup, NoDup_remove_dups.
  - intros x Hx. by apply list_elem_of_In, elem_of_remove_dups,
                          list_elem_of_In.
Qed.

Lemma diversity_part_range (color_scheme : ColorScheme) :
  0 <= diversity_part color_scheme
  ∧ ((length (color_values color_scheme) <= 16)%nat ->
     diversity_part color_scheme <= 0.3).
Proof.
  unfold diversity_part. cbv zeta.
  destruct (16 <=? length (color_values color_scheme))%nat eqn:H16;
    [|split; [lra | intros; lra]].
  pose proof (pos_INR (length (remove_dups (color_values color_scheme))))
    as Hpos.
  split; [lra|]. intros Hle.
  pose proof (length_remove_dups (color_values color_scheme)) as Hu.
  assert (H : (length (remove_dups (color_values color_scheme)) <= 16)%nat)
    by lia.
  apply le_INR in H. replace (INR 16) with 16 in H by (simpl; lra). lra.
Qed.

Lemma contrast_part_range (color_scheme : ColorScheme) :
  0 <= contrast_part color_scheme <= 0.4.
Proof.
  unfold contrast_part. cbv zeta.
  destruct (negb _ && negb _); [|lra].
  pose proof (contrast_range
                (dict_get "background" "#000000"
                   (default [] (scheme_special color_scheme)))
                (dict_get "foreground" "#ffffff"
                   (default [] (scheme_special color_scheme)))).
  lra.
Qed.

Lemma saturation_part_range (color_scheme : ColorScheme) :
  0 <= saturation_part color_scheme <= 0.3.
Proof.
  unfold saturation_part.
  destruct (saturations color_scheme) as [|x l]; [lra|].
  pose proof (variance_nonneg (x :: l)).
  unfold Rmin. destruct (Rle_dec _ 1.0); lra.
Qed.

(** X21 (the score).  [_calculate_image_score] is never negative, and
    for a scheme of at most sixteen palette colours it is at most 1: at
    most 0.3 for the diversity, 0.4 for the contrast and 0.3 for the
    saturations.  (With more than sixteen colours, all different, the
    diversity summand alone exceeds 0.3.) *)
Theorem image_score_bounds (color_scheme : ColorScheme) :
  0 <= _calculate_image_score color_scheme
  ∧ ((length (color_values color_scheme) <= 16)%nat ->
     _calculate_image_score color_scheme <= 1).
Proof.
  unfold _calculate_image_score.
  destruct (diversity_part_range color_scheme) as [Hd0 Hd1].
  pose proof (contrast_part_range color_scheme).
  pose proof (saturation_part_range color_scheme).
  split; [lra|]. intros Hle. specialize (Hd1 Hle). lra.
Qed.

Local Close Scope R_scope.

(** * [benchmark_backends] *)

Section BenchmarkProperties.

Variable available : string -> bool.
Variable list_backends : list string.
Variable run : nat -> string -> nat -> result Q.

Lemma bench_runs_spec (outcomes : list (result Q)) :
  ∀ ts ok err,
    match bench_runs outcomes (ts, ok, err) with
    | Ret (ts', ok', err') =>
        ok' + err' = ok + err + Z.of_nat (length outcomes)
        ∧ Z.of_nat (length ts') - Z.of_nat (length ts) = ok' - ok
        ∧ err <= err'
    | Raise e => is_exception e = false ∧ In (Raise e) outcomes
    end.
Proof.
  induction outcomes as [|o outcomes IH]; intros ts ok err;
    cbn [bench_runs].
  - cbn [length]. repeat split; lia.
  - destruct o as [t|e].
    + specialize (IH (ts ++ [t])%list (ok + 1) err).
      destruct (bench_runs outcomes _) as [[[ts' ok'] err']|e'].
      * destruct IH as (H1 & H2 & H3). rewrite length_app in H2.
        cbn [length] in *. repeat split; lia.
      * destruct IH as [Hne Hin]. split; [done | by right].
    + destruct (is_exception e) eqn:He.
      * specialize (IH ts ok (err + 1)).
        destruct (bench_runs outcomes _) as [[[ts' ok'] err']|e'].
        -- destruct IH as (H1 & H2 & H3). cbn [length] in *.
           repeat split; lia.
        -- destruct IH as [Hne Hin]. split; [done | by right].
      * split; [done | by left].
Qed.

Lemma bench_backend_spec (k : nat) (backend : string) (iterations : Z) :
  match bench_backend run k backend iterations with
  | Ret r => iterations ≠ 0 ∧ benchmarked iterations r
  | Raise e =>
      (e = ZeroDivisionError ∧ iterations = 0)
      ∨ (is_exception e = false
         ∧ ∃ i, (i < Z.to_nat iterations)%nat ∧ run k backend i = Raise e)
  end.
Proof.
  unfold bench_backend.
  pose proof (bench_runs_spec
                (map (run k backend) (seq 0 (Z.to_nat iterations))) [] 0 0)
    as Hruns.
  destruct (bench_runs _ _) as [[[ts ok] err]|e].
  - destruct Hruns as (H1 & H2 & H3).
    rewrite length_map, length_seq in H1. cbn [length] in H2.
    unfold py_truediv. destruct (iterations =? 0) eqn:Hz.
    + apply Z.eqb_eq in Hz. destruct ts; left; done.
    + apply Z.eqb_neq in Hz.
      destruct ts as [|t rest]; (split; [done|]); unfold benchmarked;
        cbn [status success_count error_count times success_rate length]
          in *;
        repeat split; lia.
  - destruct Hruns as [Hne Hin]. right. split; [done|].
    apply in_map_iff in Hin as (i & Hi & Hseq).
    apply in_seq in Hseq. exists i. split; [lia | done].
Qed.

Lemma bench_loop_spec (iterations : Z) (available_backends : list string) :
  ∀ k results,
    match bench_loop run k available_backends iterations results with
    | Ret results' =>
        (available_backends = [] ∨ iterations ≠ 0)
        ∧ ∀ b,
            (In b available_backends ->
             ∃ r, results' !! b = Some r ∧ benchmarked iterations r)
            ∧ (¬ In b available_backends -> results' !! b = results !! b)
    | Raise e =>
        (e = ZeroDivisionError ∧ iterations = 0
         ∧ available_backends ≠ [])
        ∨ (is_exception e = false
           ∧ ∃ k' b i,
               In b available_backends
               ∧ (i < Z.to_nat iterations)%nat
               ∧ run k' b i = Raise e)
    end.
Proof.
  induction available_backends as [|b0 rest IH]; intros k results;
    cbn [bench_loop].
  - split; [by left|]. intros b. split; [by intros []|done].
  - pose proof (bench_backend_spec k b0 iterations) as Hone.
    destruct (bench_backend run k b0 iterations) as [r0|e].
    + destruct Hone as [Hne Hr0].
      specialize (IH (S k) (<[b0 := r0]> results)).
      destruct (bench_loop run (S k) rest iterations _) as [results'|e].
      * destruct IH as [_ Hres]. split; [by right|]. intros b. split.
        -- intros Hin. destruct (in_dec string_dec b rest) as [Hrest|Hrest].
           ++ by apply Hres.
           ++ destruct Hin as [->|Hin]; [|done].
              exists r0. split; [|done].
              rewrite (proj2 (Hres b) Hrest). apply lookup_insert_eq.
        -- intros Hnot. rewrite (proj2 (Hres b)).
           ++ apply lookup_insert_ne. intros ->. apply Hnot. by left.
           ++ intros Hin. apply Hnot. by right.
      * destruct IH as [(-> & Hz & _)|(He & k' & b & i & Hin & Hi & Hrun)].
        -- done.
        -- right. split; [done|]. exists k', b, i.
           split; [by right | done].
    + destruct Hone as [[-> Hz]|(He & i & Hi & Hrun)].
      * left. done.
      * right. split; [done|]. exists k, b0, i. split; [by left | done].
Qed.

Lemma unavailable_loop_spec (iterations : Z)
    (unavailable_backends : list string) :
  ∀ (results : gmap string BackendResults) b,
    fold_left (fun res b => <[b := unavailable_results iterations]> res)
      unavailable_backends results !! b
    = if in_dec string_dec b unavailable_backends
      then Some (unavailable_results iterations)
      else results !! b.
Proof.
  induction unavailable_backends as [|b0 rest IH]; intros results b;
    cbn [fold_left].
  - by destruct (in_dec string_dec b []) as [[]|].
  - rewrite IH. destruct (in_dec string_dec b rest) as [Hrest|Hrest].
    + destruct (in_dec string_dec b (b0 :: rest)) as [|Hnot]; [done|].
      exfalso. apply Hnot. by right.
    + destruct (in_dec string_dec b (b0 :: rest)) as [[->|Hin]|Hnot].
      * apply lookup_insert_eq.
      * done.
      * apply lookup_insert_ne. intros ->. apply Hnot. by left.
Qed.

(** X22 (the report of a benchmark).  With a positive number of
    iterations and at least one backend that can be imported,
    [benchmark_backends] either returns a report or raises.  The keys of
    the report are exactly the backends asked for.  For a backend that can
    be imported the successes and the errors add up to the iterations,
    there is one time for each success, and the success rate is their
    share, between 0 and 1; a backend that cannot be imported is listed as
    unavailable, every iteration counted as an error.  When the benchmark
    raises, some run of [colors.get] for a backend that can be imported
    raised an exception that is no [Exception] ([SystemExit]), and that is
    the exception raised: there is no report then. *)
Theorem benchmark_backends_report
    (backends : option (list string)) (iterations : Z) :
  0 < iterations ->
  (∃ b, In b (default list_backends backends) ∧ available b = true) ->
  match
    benchmark_backends available list_backends run backends iterations
  with
  | Ret results =>
      ∀ b,
        match results !! b with
        | Some r =>
            In b (default list_backends backends)
            ∧ if available b
              then benchmarked iterations r
                   ∧ success_count r + error_count r = iterations
                   ∧ (0 <= success_rate r)%Q ∧ (success_rate r <= 1)%Q
              else r = unavailable_results iterations
        | None => ¬ In b (default list_backends backends)
        end
  | Raise e =>
      is_exception e = false
      ∧ ∃ k b i,
          In b (default list_backends backends) ∧ available b = true
          ∧ (i < Z.to_nat iterations)%nat
          ∧ run k b i = Raise e
  end.
Proof.
  intros Hpos (b1 & Hin1 & Hav1). unfold benchmark_backends. cbv zeta.
  set (bs := default list_backends backends) in *.
  destruct (List.filter available bs) as [|a0 avail] eqn:Eav.
  { assert (In b1 (List.filter available bs)) as H
      by by apply filter_In.
    rewrite Eav in H. destruct H. }
  rewrite <- Eav.
  pose proof (bench_loop_spec iterations (List.filter available bs)
                0%nat ∅) as Hloop.
  destruct (bench_loop run 0 (List.filter available bs) iterations ∅)
    as [results|e].
  - destruct Hloop as [_ Hres]. intros b.
    rewrite unavailable_loop_spec.
    destruct (in_dec string_dec b
                (List.filter (fun b => negb (available b)) bs))
      as [Hun|Hun].
    + apply filter_In in Hun as [Hin Hav]. apply negb_true_iff in Hav.
      rewrite Hav. done.
    + destruct (in_dec string_dec b (List.filter available bs))
        as [Hin|Hnot].
      * destruct (proj1 (Hres b) Hin) as (r & -> & Hr).
        apply filter_In in Hin as [Hin Hav]. rewrite Hav.
        split; [done|]. split; [done|].
        destruct Hr as (_ & Hsum & Hlen & Herr & Hrate).
        split; [lia|]. rewrite Hrate. apply rate_bounds; lia.
      * rewrite (proj2 (Hres b) Hnot), lookup_empty.
        intros Hin. destruct (available b) eqn:Hav.
        -- apply Hnot. by apply filter_In.
        -- apply Hun. apply filter_In. by rewrite Hav.
  - destruct Hloop as [(_ & Hz & _)|(He & k & b & i & Hin & Hi & Hrun)];
      [lia|].
    split; [done|]. exists k, b, i.
    apply filter_In in Hin as [Hin Hav]. done.
Qed.

(** X23 (the edge cases of a benchmark).  [benchmark_backends] ends with
    a [ZeroDivisionError] exactly when it is asked for zero iterations
    and some backend can be imported; and when no backend can be imported
    it returns the empty dictionary: the backends that are unavailable are
    then not listed at all. *)
Theorem benchmark_backends_edge_cases
    (backends : option (list string)) (iterations : Z) :
  (benchmark_backends available list_backends run backends iterations
   = Raise ZeroDivisionError
   <-> iterations = 0
       ∧ ∃ b, In b (default list_backends backends) ∧ available b = true)
  ∧ ((∀ b, In b (default list_backends backends) -> available b = false) ->
     benchmark_backends available list_backends run backends iterations
     = Ret ∅).
Proof.
  unfold benchmark_backends. cbv zeta.
  set (bs := default list_backends backends).
  destruct (List.filter available bs) as [|a0 avail] eqn:Eav.
  - split; [split; [done|]|done].
    intros (_ & b & Hin & Hav).
    assert (In b (List.filter available bs)) as H by by apply filter_In.
    rewrite Eav in H. destruct H.
  - assert (Ha0 : In a0 bs ∧ available a0 = true).
    { apply filter_In. rewrite Eav. by left. }
    split.
    + pose proof (bench_loop_spec iterations (a0 :: avail) 0%nat ∅) as Hloop.
      destruct (decide (iterations = 0)) as [->|Hne].
      * cbn [bench_loop] in *.
        pose proof (bench_backend_spec 0 a0 0) as Hone.
        destruct (bench_backend run 0 a0 0) as [r|e].
        -- by destruct Hone as [? _].
        -- destruct Hone as [[-> _]|(_ & i & Hi & _)];
             [|cbn in Hi; lia].
           split; [|done]. intros _. split; [done|]. by exists a0.
      * destruct (bench_loop run 0 (a0 :: avail) iterations ∅)
          as [results|e].
        -- split; [done|]. by intros [? _].
        -- split; [|by intros [? _]]. intros [= ->].
           destruct Hloop as [(_ & Hz & _)|(He & _)]; done.
    + intros Hnone. destruct Ha0 as [Hin Hav].
      rewrite (Hnone a0 Hin) in Hav. done.
Qed.

End BenchmarkProperties.

(** * [find_best_images] *)

Lemma string_leb_trans (s1 s2 s3 : string) :
  String.leb s1 s2 = true -> String.leb s2 s3 = true ->
  String.leb s1 s3 = true.
Proof.
  unfold String.leb. revert s2 s3.
  induction s1 as [|a s1 IH]; intros [|b s2] [|c s3]; cbn; try done.
  unfold Ascii.compare.
  destruct (N.compare_spec (N_of_ascii a) (N_of_ascii b)) as [Eab|Hab|Hab],
           (N.compare_spec (N_of_ascii b) (N_of_ascii c)) as [Ebc|Hbc|Hbc],
           (N.compare_spec (N_of_ascii a) (N_of_ascii c)) as [Eac|Hac|Hac];
    try done; try lia.
  apply IH.
Qed.

#[global] Instance scored_before_total : Total scored_before.
Proof.
  intros a b. unfold scored_before.
  destruct (Rtotal_order (fst (fst a)) (fst (fst b))) as [H|[H|H]].
  - right. by left.
  - destruct (String.leb_total (snd (fst a)) (snd (fst b))).
    + right. by right.
    + left. by right.
  - left. by left.
Qed.

#[global] Instance scored_before_trans : Transitive scored_before.
Proof.
  intros a b c. unfold scored_before.
  intros [H1|[E1 L1]] [H2|[E2 L2]].
  - left. by apply Rlt_trans with (fst (fst b)).
  - left. by rewrite <- E2.
  - left. by rewrite E1.
  - right. split; [congruence|]. by apply string_leb_trans with (snd (fst b)).
Qed.

Lemma NoDup_fst_filter {A B : Type} (P : A * B -> bool) (l : list (A * B)) :
  NoDup (map fst l) -> NoDup (map fst (List.filter P l)).
Proof.
  induction l as [|x l IH]; cbn [List.filter map]; [done|].
  intros Hnd. apply NoDup_cons in Hnd as [Hx Hnd].
  destruct (P x); cbn [map]; [|auto].
  apply NoDup_cons. split; [|auto].
  intros Hin. apply Hx. apply list_elem_of_In in Hin.
  apply list_elem_of_In. apply in_map_iff in Hin as (y & Ey & Hy).
  apply filter_In in Hy as [Hy _]. apply in_map_iff. eauto.
Qed.

(** tuples in the order of the sort, each carrying the score of its
    scheme, give pairs in the order of their scores *)
Lemma sorted_by_score (l : list (R * string * ColorScheme)) :
  StronglySorted scored_before l ->
  Forall (fun t => fst (fst t) = _calculate_image_score (snd t)) l ->
  StronglySorted
    (fun a b =>
       Rle (_calculate_image_score (snd b)) (_calculate_image_score (snd a)))
    (map (fun t => (snd (fst t), snd t)) l).
Proof.
  induction 1 as [|t l Hl IH Hall]; intros Hscore; cbn [map]; constructor.
  - apply IH. by apply Forall_cons in Hscore as [_ ?].
  - apply Forall_cons in Hscore as [Ht Hscore].
    apply Forall_forall. intros e He.
    apply list_elem_of_In, in_map_iff in He as (t' & <- & Ht').
    cbn [snd].
    rewrite Forall_forall in Hall, Hscore.
    apply list_elem_of_In in Ht'.
    rewrite <- Ht, <- (Hscore t' Ht').
    destruct (Hall t' Ht') as [Hlt|[-> _]]; [by left | by right].
Qed.

Section FindBestProperties.

Variable truthy : ColorScheme -> bool.
Variable CACHE_DIR : string.
Variable list_backends : list string.
Variable cache_fname :
  string -> string -> bool -> string -> string -> result (list string).
Variable isfile : string -> bool.
Variable colors_file : string -> result ColorScheme.
Variable colors_get :
  string -> bool -> string -> string -> string -> result ColorScheme.
Variable as_completed : list string -> list string.
Variable get_image_dir : string -> list string.
Variable get_image_dir_recursive : string -> list string.
Variable random_sample : list string -> list string.

Local Abbreviation batch_ :=
  (process_image_batch truthy CACHE_DIR list_backends cache_fname isfile
     colors_file colors_get as_completed).
Local Abbreviation images_ :=
  (sampled_images get_image_dir get_image_dir_recursive random_sample).
Local Abbreviation best_ :=
  (find_best_images truthy CACHE_DIR list_backends cache_fname isfile
     colors_file colors_get as_completed get_image_dir
     get_image_dir_recursive random_sample).

(** the tuples that are sorted: one for each entry of the batch whose
    scheme is not empty *)
Lemma scored_entries (results : gmap string ColorScheme)
    (t : R * string * ColorScheme) :
  In t (merge_sort scored_before
          (map score_entry
             (List.filter (fun entry => truthy (snd entry))
                (map_to_list results))))
  <-> t = score_entry (snd (fst t), snd t)
      ∧ results !! snd (fst t) = Some (snd t)
      ∧ truthy (snd t) = true.
Proof.
  rewrite <- list_elem_of_In, merge_sort_Permutation, list_elem_of_In.
  rewrite in_map_iff. split.
  - intros ([p cs] & <- & Hin). apply filter_In in Hin as [Hin Htrue].
    apply list_elem_of_In, elem_of_map_to_list in Hin. done.
  - intros (Et & Hlk & Htrue). exists (snd (fst t), snd t).
    split; [done|]. apply filter_In. split; [|done].
    by apply list_elem_of_In, elem_of_map_to_list.
Qed.

(** X24 (the best images).  For a count that is not negative, when
    [find_best_images] returns, it returns at most [count] pairs, no image
    twice; each pair is an entry of the batch it ran -- on the sampled
    images, with [light=False] and no saturation -- whose scheme is not
    empty; the pairs come with the highest score first; and no entry of the
    batch that was left out scores higher than one that was returned.  It
    raises only what that batch raised. *)
Theorem find_best_images_are_the_best
    (elapsed : Z) (img_dir : string) (count : Z) (recursive : bool)
    (backends : list string) (st : ProcStats.t) :
  0 <= count ->
  match fst (best_ elapsed img_dir count recursive backends st) with
  | Ret best =>
      Z.of_nat (length best) <= count
      ∧ NoDup (map fst best)
      ∧ (∀ img scheme,
           In (img, scheme) best ->
           ∃ results,
             fst (batch_ elapsed (images_ img_dir recursive) false backends
                    "" st) = Ret results
             ∧ results !! img = Some scheme
             ∧ truthy scheme = true)
      ∧ StronglySorted
          (fun a b =>
             Rle (_calculate_image_score (snd b))
                 (_calculate_image_score (snd a)))
          best
      ∧ (∀ results img scheme img' scheme',
           fst (batch_ elapsed (images_ img_dir recursive) false backends
                  "" st) = Ret results ->
           results !! img = Some scheme ->
           truthy scheme = true ->
           ¬ In (img, scheme) best ->
           In (img', scheme') best ->
           Rle (_calculate_image_score scheme)
               (_calculate_image_score scheme'))
  | Raise e =>
      fst (batch_ elapsed (images_ img_dir recursive) false backends "" st)
      = Raise e
  end.
Proof.
  intros Hcount. unfold find_best_images.
  destruct (directory_images _ _ img_dir recursive) as [|d0 dirs].
  { cbn [fst length map]. split; [lia|]. split; [constructor|].
    split; [by intros ? ? []|]. split; [constructor|].
    by intros ? ? ? ? ? _ _ _ _ []. }
  destruct (batch_ elapsed (images_ img_dir recursive) false backends "" st)
    as [[results|e] st1]; cbn [fst]; [|done].
  set (sorted := merge_sort scored_before
                   (map score_entry
                      (List.filter (fun entry => truthy (snd entry))
                         (map_to_list results)))).
  assert (Hin : ∀ t, In t sorted
                     <-> t = score_entry (snd (fst t), snd t)
                         ∧ results !! snd (fst t) = Some (snd t)
                         ∧ truthy (snd t) = true)
    by apply scored_entries.
  assert (Hsorted : StronglySorted scored_before sorted)
    by apply (StronglySorted_merge_sort scored_before).
  assert (Hnd : NoDup (map (fun t => snd (fst t)) sorted)).
  { eapply NoDup_Permutation_proper.
    - apply Permutation_map, merge_sort_Permutation.
    - rewrite map_map. cbn [score_entry fst snd].
      apply NoDup_fst_filter, NoDup_fst_map_to_list. }
  unfold py_slice_to.
  assert ((count <? 0) = false) as -> by (apply Z.ltb_ge; lia).
  set (n := Z.to_nat count).
  rewrite <- (take_drop n sorted) in Hsorted.
  assert (Htake : ∀ t, In t (take n sorted) -> In t sorted).
  { intros t Ht. rewrite <- (take_drop n sorted). apply in_or_app. by left. }
  split.
  { rewrite length_map, length_take. lia. }
  split.
  { rewrite map_map. cbn [fst].
    change (map (fun t => snd (fst t)) (take n sorted))
      with ((fun t : R * string * ColorScheme => snd (fst t))
              <$> take n sorted).
    rewrite fmap_take. eapply sublist_NoDup; [exact Hnd|].
    apply sublist_take. }
  split.
  { intros img scheme Hbest. apply in_map_iff in Hbest as (t & Et & Ht).
    apply Htake, Hin in Ht as (_ & Hlk & Htrue).
    injection Et as <- <-. by exists results. }
  split.
  { apply StronglySorted_app in Hsorted as (_ & Hs & _).
    assert (Hscore : Forall (fun t => fst (fst t)
                                      = _calculate_image_score (snd t))
                       (take n sorted)).
    { apply Forall_forall. intros t Ht.
      apply list_elem_of_In, Htake, Hin in Ht as (Et & _).
      rewrite Et at 1. done. }
    by apply sorted_by_score. }
  intros results0 img scheme img' scheme' [= <-] Hlk Htrue Hout Hbest.
  apply in_map_iff in Hbest as (t' & Et' & Ht').
  injection Et' as <- <-.
  assert (Hmem : In (score_entry (img, scheme)) sorted).
  { apply Hin. by cbn [score_entry fst snd]. }
  rewrite <- (take_drop n sorted) in Hmem. apply in_app_or in Hmem as [H|H].
  { destruct Hout. apply in_map_iff. by exists (score_entry (img, scheme)). }
  pose proof (StronglySorted_app_1_elem_of _ _ _ t' (score_entry (img, scheme))
                Hsorted) as Hbefore.
  rewrite !list_elem_of_In in Hbefore. specialize (Hbefore Ht' H).
  apply Htake, Hin in Ht' as (Et & _).
  rewrite Et in Hbefore. unfold scored_before in Hbefore.
  cbn [score_entry fst snd] in Hbefore.
  destruct Hbefore as [Hlt|[-> _]]; [by left | by right].
Qed.

(** [process_directory_parallel] hands [light] to the batch only: with
    [find_best] the schemes are generated with [light=False] whatever
    [light] it was given. *)
Remark process_directory_parallel_find_best_ignores_light
    (elapsed : Z) (img_dir : string) (light recursive : bool)
    (best_count : Z) :
  process_directory_parallel truthy CACHE_DIR list_backends cache_fname
    isfile colors_file colors_get as_completed get_image_dir
    get_image_dir_recursive random_sample elapsed img_dir light recursive
    true best_count
  = process_directory_parallel truthy CACHE_DIR list_backends cache_fname
      isfile colors_file colors_get as_completed get_image_dir
      get_image_dir_recursive random_sample elapsed img_dir false recursive
      true best_count.
Proof. reflexivity. Qed.

End FindBestProperties.

(** * [export_cache_info] *)

Section ExportProperties.

Context {Data : Type}.
Implicit Types c : AdvancedCache Data.
Variable version : string.
Variable cache_version : string.

Lemma cleanup_counters now mb days keep c :
  CacheStats.hit_count (stats (snd (cleanup now mb days keep c)))
  = CacheStats.hit_count (stats c)
  ∧ CacheStats.miss_count (stats (snd (cleanup now mb days keep c)))
    = CacheStats.miss_count (stats c).
Proof.
  unfold cleanup, cleanup_with. destruct (db_up c); cbn [negb]; [|done].
  match goal with |- context [if ?b then (0, c) else _] => destruct b end;
    [done|].
  assert (Hloop : ∀ l (acc : AdvancedCache Data * Z * Z),
            stats
              (fold_left (cleanup_step now (days * 24 * 3600)
                            (mb * 1024 * 1024) (sum_size (entries c)))
                 l acc).1.1
            = stats acc.1.1).
  { induction l as [|row l IH]; intros acc; [done|].
    cbn [fold_left]. rewrite IH. destruct acc as [[c0 n] freed].
    unfold cleanup_step.
    match goal with |- context [if ?b then _ else (c0, n, freed)] =>
      destruct b end; [|done].
    pose proof (remove_entry_stats (CacheEntry.key row)
                  (CacheEntry.file_path row) c0) as Hs.
    by destruct (_remove_entry _ _ c0) as [[] c1]. }
  specialize (Hloop (cleanup_candidates keep (entries c)) (c, 0, 0)).
  destruct (fold_left _ _ (c, 0, 0)) as [[c1 n] freed].
  cbn [fst snd stats with_stats CacheStats.cleaned CacheStats.hit_count
       CacheStats.miss_count] in *.
  by rewrite Hloop.
Qed.

Lemma deduplicate_stats c : stats (snd (deduplicate c)) = stats c.
Proof.
  unfold deduplicate. destruct (db_up c); cbn [negb]; [|done].
  assert (Hinner : ∀ l (acc : AdvancedCache Data * Z),
            stats (fold_left dedup_remove l acc).1 = stats acc.1).
  { induction l as [|row l IH]; intros acc; [done|].
    cbn [fold_left]. rewrite IH. destruct acc as [c0 n]. unfold dedup_remove.
    pose proof (remove_entry_stats (CacheEntry.key row)
                  (CacheEntry.file_path row) c0) as Hs.
    by destruct (_remove_entry _ _ c0) as [[] c1]. }
  assert (Houter : ∀ hs (acc : AdvancedCache Data * Z),
            stats (fold_left dedup_group hs acc).1 = stats acc.1).
  { induction hs as [|h hs IH]; intros acc; [done|].
    cbn [fold_left]. rewrite IH. unfold dedup_group. apply Hinner. }
  specialize (Houter (duplicated_hashes (entries c)) (c, 0)).
  by destruct (fold_left _ _ (c, 0)) as [c1 n].
Qed.

Lemma run_keeps_counters_nonneg (o : @op Data) c :
  counters_nonneg (stats c) -> counters_nonneg (stats (run o c)).
Proof.
  intros [Hh Hm]. unfold counters_nonneg.
  destruct o as [t0 t1 t2 k|t io k data img b z|t mb days keep| | | |up fs imgs];
    cbn [run].
  - unfold get. destruct (db_up c); cbn [negb]; [|cbn; lia].
    destruct (select_by_key k (entries c)) as [row|]; [|cbn; lia].
    assert (Hrm : stats (snd (_remove_entry k "" c)) = stats c)
      by apply remove_entry_stats.
    destruct (existing_file c (CacheEntry.file_path row)) as [f|].
    + destruct (load_file (CacheEntry.compressed row) f) as [data|e].
      * cbn. lia.
      * destruct (except _ e); [|done].
        cbn [snd stats with_stats]. rewrite Hrm. cbn. lia.
    + cbn [snd stats with_stats]. rewrite Hrm. cbn. lia.
  - unfold put. destruct io as [sz plain|e partial].
    + by destruct (db_up c).
    + by destruct (except _ e), partial.
  - destruct (cleanup_counters t mb days keep c) as [-> ->]. done.
  - by rewrite deduplicate_stats.
  - unfold get_analytics. by destruct (db_up c).
  - unfold clear_all.
    destruct (rmtree_walk (map_to_list (files c)) (files c)) as [[] fs];
      cbn [negb]; [|done].
    by destruct (db_up c).
  - done.
Qed.

(** X15 (the exported hit rate).  After any history of calls on a cache
    whose two counters were not negative to begin with (they are 0 in a new
    [AdvancedCache]), [export_cache_info] whose write goes through returns
    [True] and the document it writes has a hit rate between 0 and 1 --
    [max(1, ...)] keeps the division from failing when nothing was looked
    up yet -- and at most ten most-accessed keys; with the database
    reachable its number of entries is the number of rows. *)
Theorem export_cache_info_hit_rate
    (now : Z) (history : list (@op Data)) (c : AdvancedCache Data) :
  counters_nonneg (stats c) ->
  ∃ info,
    fst (export_cache_info version cache_version now None
           (run_all history c))
    = (Ret true, Some info)
    ∧ (0 <= info_hit_rate info)%Q ∧ (info_hit_rate info <= 1)%Q
    ∧ (length (info_most_accessed info) <= 10)%nat
    ∧ (db_up (run_all history c) = true ->
       info_total_entries info
       = Z.of_nat (length (entries (run_all history c)))).
Proof.
  intros Hc.
  assert (Hrun : counters_nonneg (stats (run_all history c))).
  { revert c Hc. induction history as [|o history IH]; intros c Hc; [done|].
    unfold run_all. cbn [fold_left]. apply IH.
    by apply run_keeps_counters_nonneg. }
  set (c1 := run_all history c) in *. destruct Hrun as [Hh Hm].
  unfold export_cache_info, get_analytics.
  destruct (db_up c1); cbn [negb fst];
    (eexists; split; [reflexivity|]);
    cbn [cache_info info_hit_rate info_most_accessed info_total_entries
         CacheStats.refreshed CacheStats.hit_count CacheStats.miss_count
         CacheStats.total_entries CacheStats.most_accessed].
  - split; [|split; [|split]].
    + apply rate_bounds; lia.
    + apply rate_bounds; lia.
    + rewrite length_take. lia.
    + done.
  - split; [|split; [|split]].
    + apply rate_bounds; lia.
    + apply rate_bounds; lia.
    + rewrite length_take. lia.
    + done.
Qed.

End ExportProperties.

(** * The further properties on concrete states *)

Lemma put_get_round_trip_witness :
  db_up stale_cache = true
  ∧ fst (put 70 (Written 10 20) "k9" "doc9" "" "wal" true stale_cache)
    = Ret true
  ∧ fst (get 71 72 73 "k9"
           (snd (put 70 (Written 10 20) "k9" "doc9" "" "wal" true
                   stale_cache)))
    = Ret (Some "doc9").
Proof.
  assert (H : db_up stale_cache = true) by reflexivity.
  split; [exact H|].
  exact (put_get_round_trip 70 10 20 71 72 73 "k9" "doc9" "" "wal" true
           stale_cache H).
Defined.

Lemma cache_put_get_round_trip_witness :
  db_up stale_cache = true
  ∧ fst (cache_get "1.1.0" 71 72 73 "/gone/a.png" "wal" false ""
           (snd (cache_put "1.1.0" 70 (Written 10 20) "/gone/a.png" "wal"
                   false "scheme a" "" stale_cache)))
    = Ret (Some "scheme a").
Proof.
  assert (H : db_up stale_cache = true) by reflexivity.
  split; [exact H|].
  exact (proj2 (cache_put_get_round_trip "1.1.0" 70 10 20 71 72 73
                  "/gone/a.png" "wal" false "scheme a" "" stale_cache H)).
Defined.

Lemma get_leaves_other_rows_witness :
  "k2" ≠ "k1"
  ∧ select_by_key "k2"
      (entries (snd (get 60 61 62 "k1" duplicated_cache)))
    = select_by_key "k2" (entries duplicated_cache).
Proof.
  assert (H : "k2" ≠ "k1") by discriminate.
  split; [exact H|].
  exact (get_leaves_other_rows 60 61 62 "k1" "k2" duplicated_cache H).
Defined.

Lemma unreadable_images_are_deduplicated_witness :
  removable (demo_cache [] ∅)
  ∧ select_by_key "ka"
      (entries
         (snd (deduplicate
                 (snd (put 20 (Written 100 300) "kb" "scheme b" "/gone/b.png"
                         "wal" true
                         (snd (put 10 (Written 100 300) "ka" "scheme a"
                                 "/gone/a.png" "wal" true
                                 (demo_cache [] ∅))))))))
    = None.
Proof.
  assert (H1 : removable (demo_cache [] ∅)).
  { split; [reflexivity | apply map_Forall_empty]. }
  assert (H2 : NoDup (map CacheEntry.key (entries (demo_cache [] ∅))))
    by apply NoDup_nil_2.
  assert (H3 : "ka" ≠ "kb") by discriminate.
  assert (H4 : "/gone/a.png" ≠ "") by discriminate.
  assert (H5 : "/gone/b.png" ≠ "") by discriminate.
  assert (H6 : read_bytes (images (demo_cache [] ∅)) "/gone/a.png" = None)
    by reflexivity.
  assert (H7 : read_bytes (images (demo_cache [] ∅)) "/gone/b.png" = None)
    by reflexivity.
  assert (H8 : 10 < 20) by lia.
  split; [exact H1|].
  exact (proj1 (proj2 (proj2
           (unreadable_images_are_deduplicated 10 20 100 300 100 300 "ka" "kb"
              "scheme a" "scheme b" "/gone/a.png" "/gone/b.png" "wal" "wal"
              true true (demo_cache [] ∅) H1 H2 H3 H4 H5 H6 H7 H8)))).
Defined.

Lemma remove_entry_idempotent_witness :
  fst (_remove_entry "k1" "" healthy_cache) = true
  ∧ _remove_entry "k1" "" (snd (_remove_entry "k1" "" healthy_cache))
    = (true, snd (_remove_entry "k1" "" healthy_cache)).
Proof.
  assert (H : fst (_remove_entry "k1" "" healthy_cache) = true)
    by (vm_compute; reflexivity).
  split; [exact H|].
  exact (remove_entry_idempotent "k1" "" healthy_cache H).
Defined.

Lemma keys_stay_distinct_witness :
  NoDup (map CacheEntry.key (entries healthy_cache))
  ∧ NoDup (map CacheEntry.key
             (entries (run_all quiet_history healthy_cache))).
Proof.
  assert (H : NoDup (map CacheEntry.key (entries healthy_cache))).
  { apply (bool_decide_unpack _). vm_compute. exact I. }
  split; [exact H|].
  exact (keys_stay_distinct quiet_history healthy_cache H).
Defined.

Lemma cleanup_removes_old_witness :
  removable crowded_cache
  ∧ ordered_by most_accessed_first (entries crowded_cache) crowded_ranked
  ∧ ordered_by oldest_first
      (unprotected 1 crowded_ranked (entries crowded_cache))
      crowded_candidates
  ∧ (1 * 1024 * 1024 < sum_size (entries crowded_cache)
     ∨ 1000 <= count_rows (entries crowded_cache))
  ∧ In (demo_row "old" "/cache/schemes/old.json.gz" 10 10 0 "")
       (entries crowded_cache)
  ∧ 1 * 24 * 3600
    < 1000000
      - CacheEntry.last_accessed
          (demo_row "old" "/cache/schemes/old.json.gz" 10 10 0 "")
  ∧ ¬ In (demo_row "old" "/cache/schemes/old.json.gz" 10 10 0 "")
         (entries (snd (cleanup_with crowded_candidates 1000000 1 1
                          crowded_cache))).
Proof.
  assert (H1 : removable crowded_cache).
  { split; [reflexivity|].
    apply (bool_decide_unpack _). vm_compute. exact I. }
  assert (H2 : 1 * 1024 * 1024 < sum_size (entries crowded_cache)
               ∨ 1000 <= count_rows (entries crowded_cache)).
  { left. vm_compute. reflexivity. }
  assert (H3 : In (demo_row "old" "/cache/schemes/old.json.gz" 10 10 0 "")
                  (entries crowded_cache)).
  { left. reflexivity. }
  assert (H4 : ¬ In (CacheEntry.key
                       (demo_row "old" "/cache/schemes/old.json.gz" 10 10 0
                          ""))
                    (map CacheEntry.key (sql_limit 1 crowded_ranked))).
  { intros [E|[]]. discriminate E. }
  assert (H5 : 1 * 24 * 3600
               < 1000000
                 - CacheEntry.last_accessed
                     (demo_row "old" "/cache/schemes/old.json.gz" 10 10 0
                        "")).
  { vm_compute. reflexivity. }
  split; [exact H1|]. split; [exact (proj1 crowded_queries)|].
  split; [exact (proj2 crowded_queries)|].
  split; [exact H2|]. split; [exact H3|].
  split; [exact H5|].
  exact (cleanup_removes_old 1000000 1 1 1 crowded_cache crowded_ranked
           crowded_candidates
           (demo_row "old" "/cache/schemes/old.json.gz" 10 10 0 "")
           H1 (proj1 crowded_queries) (proj2 crowded_queries) H2 H3 H4 H5).
Defined.

Lemma deduplicate_idempotent_witness :
  removable duplicated_cache
  ∧ NoDup (map CacheEntry.key (entries duplicated_cache))
  ∧ deduplicate (snd (deduplicate duplicated_cache))
    = (0, snd (deduplicate duplicated_cache)).
Proof.
  assert (H1 : removable duplicated_cache).
  { split; [reflexivity|].
    apply (bool_decide_unpack _). vm_compute. exact I. }
  assert (H2 : NoDup (map CacheEntry.key (entries duplicated_cache))).
  { apply (bool_decide_unpack _). vm_compute. exact I. }
  split; [exact H1|]. split; [exact H2|].
  exact (deduplicate_idempotent duplicated_cache H1 H2).
Defined.

(** two files of the same size and time that differ between their first
    and their last chunk: one hash, one key *)
Lemma image_hash_ignores_the_middle_witness :
  String.length (chunk_of "a" default_chunk_size) = default_chunk_size
  ∧ String.length (chunk_of "z" default_chunk_size) = default_chunk_size
  ∧ _get_image_hash (sandwich_images "left") "img.png" default_chunk_size
    = _get_image_hash (sandwich_images "rite") "img.png" default_chunk_size
  ∧ generate_cache_key "1.1.0" (sandwich_images "left") "img.png" "wal" false
      ""
    = generate_cache_key "1.1.0" (sandwich_images "rite") "img.png" "wal"
        false "".
Proof.
  assert (H1 : sandwich_images "left" !! "img.png"
               = Some (sandwich_file "left")) by apply lookup_singleton_eq.
  assert (H2 : sandwich_images "rite" !! "img.png"
               = Some (sandwich_file "rite")) by apply lookup_singleton_eq.
  assert (H3 : im_bytes (sandwich_file "left")
               = Some (chunk_of "a" default_chunk_size +:+ "left"
                       +:+ chunk_of "z" default_chunk_size)) by reflexivity.
  assert (H4 : im_bytes (sandwich_file "rite")
               = Some (chunk_of "a" default_chunk_size +:+ "rite"
                       +:+ chunk_of "z" default_chunk_size)) by reflexivity.
  assert (H5 : String.length (chunk_of "a" default_chunk_size)
               = default_chunk_size) by (vm_compute; reflexivity).
  assert (H6 : String.length (chunk_of "z" default_chunk_size)
               = default_chunk_size) by (vm_compute; reflexivity).
  split; [exact H5|]. split; [exact H6|].
  pose proof (image_hash_ignores_the_middle "1.1.0" (sandwich_images "left")
                (sandwich_images "rite") "img.png"
                (chunk_of "a" default_chunk_size) "left" "rite"
                (chunk_of "z" default_chunk_size) (sandwich_file "left")
                (sandwich_file "rite") "wal" false "" H1 H2 H3 H4 H5 H6)
    as [Hhash Hkey].
  split; [exact Hhash|]. apply Hkey; reflexivity.
Defined.

Lemma process_image_batch_keeps_stats_consistent_witness :
  stats_consistent (reset_stats busy_stats)
  ∧ stats_consistent (snd (demo_batch ["a.png"; "broken.png"; "b.png"])).
Proof.
  assert (H : stats_consistent (reset_stats busy_stats)).
  { unfold reset_stats, stats_consistent. cbn.
    split; [lia|]. split; [lia|]. split; [lia|].
    intros b. rewrite lookup_empty. cbn. lia. }
  split; [exact H|].
  exact (process_image_batch_keeps_stats_consistent demo_truthy "/cache"
           ["wal"; "colorthief"] demo_cache_fname (fun _ => false)
           (fun _ => Raise OSError) demo_colors_get (@rev string) 7
           ["a.png"; "broken.png"; "b.png"] false [] "" ProcStats.fresh H).
Defined.

Lemma busy_stats_consistent : stats_consistent busy_stats.
Proof.
  unfold stats_consistent, busy_stats. cbn [ProcStats.images_processed
    ProcStats.cache_hits ProcStats.cache_misses ProcStats.backend_attempts
    ProcStats.backend_successes].
  split; [lia|]. split; [lia|]. split; [lia|]. intros b.
  destruct (decide (b = "colorthief")) as [->|Hc].
  - vm_compute. split; discriminate.
  - rewrite (lookup_singleton_ne "colorthief" b) by done.
    destruct (decide (b = "wal")) as [->|Hw].
    + vm_compute. split; discriminate.
    + rewrite lookup_insert_ne by done.
      rewrite (lookup_singleton_ne "colorthief" b) by done. cbn. lia.
Qed.

Lemma get_stats_rates_witness :
  stats_consistent busy_stats
  ∧ ∃ report,
      fst (get_stats busy_stats) = Some report
      ∧ stats_consistent (snd (get_stats busy_stats)).
Proof.
  split; [exact busy_stats_consistent|].
  destruct (get_stats_rates busy_stats busy_stats_consistent)
    as (report & Hreport & _ & _ & _ & _ & _ & Hcons).
  exists report. split; [exact Hreport | exact Hcons].
Defined.

Example get_stats_of_busy_stats :
  (cache_hit_rate <$> fst (get_stats busy_stats)) = Some (Some (1 # 3)%Q)
  ∧ (avg_processing_time <$> fst (get_stats busy_stats))
    = Some (Some (7 # 2)%Q)
  ∧ (map_to_list <$> (backend_success_rates <$> fst (get_stats busy_stats)))
    = Some [("wal", (0 # 3)%Q); ("colorthief", (2 # 3)%Q)]
  ∧ map_to_list (ProcStats.backend_successes (snd (get_stats busy_stats)))
    = [("wal", 0); ("colorthief", 2)].
Proof. repeat split; vm_compute; reflexivity. Qed.

Lemma benchmark_backends_report_witness :
  0 < 3
  ∧ (∃ b, In b (default ["wal"; "colorthief"] None)
          ∧ demo_available b = true)
  ∧ ∃ results,
      demo_benchmark 3 = Ret results
      ∧ match results !! "colorthief" with
        | Some r => success_count r + error_count r = 3
        | None => False
        end.
Proof.
  assert (H1 : 0 < 3) by lia.
  assert (H2 : ∃ b, In b (default ["wal"; "colorthief"] None)
                    ∧ demo_available b = true).
  { exists "colorthief". split; [right; left; reflexivity | reflexivity]. }
  split; [exact H1|]. split; [exact H2|].
  pose proof (benchmark_backends_report demo_available ["wal"; "colorthief"]
                demo_run None 3 H1 H2) as Hreport.
  change (benchmark_backends demo_available ["wal"; "colorthief"] demo_run
            None 3) with (demo_benchmark 3) in Hreport.
  destruct (demo_benchmark 3) as [results|e] eqn:E.
  - exists results. split; [reflexivity|].
    specialize (Hreport "colorthief").
    destruct (results !! "colorthief") as [r|].
    + destruct Hreport as [_ Hr]. change (demo_available "colorthief")
        with true in Hr. by destruct Hr as (_ & Hsum & _).
    + apply Hreport. right. left. reflexivity.
  - exfalso. vm_compute in E. discriminate E.
Defined.

Example demo_benchmark_results :
  (match demo_benchmark 3 with
   | Ret results => results !! "colorthief"
   | Raise _ => None
   end)
  = Some (MkResults [(1 # 2)%Q; (1 # 2)%Q] 2 1 (4 # 8)%Q (Some (1 # 2)%Q)
            (Some (1 # 2)%Q) (2 # 3)%Q "available")
  ∧ (match demo_benchmark 3 with
     | Ret results => results !! "wal"
     | Raise _ => None
     end)
    = Some (unavailable_results 3)
  ∧ demo_benchmark 0 = Raise ZeroDivisionError
  ∧ benchmark_backends demo_available ["wal"; "colorthief"]
      (fun k backend i =>
         if Nat.eqb i 1 then Raise SystemExit else Ret (1 # 2)%Q)
      None 3
    = Raise SystemExit.
Proof. repeat split; vm_compute; reflexivity. Qed.

Lemma find_best_images_are_the_best_witness :
  0 <= 1
  ∧ ∃ best, fst (demo_best 1) = Ret best ∧ Z.of_nat (length best) <= 1.
Proof.
  assert (H : 0 <= 1) by lia.
  split; [exact H|].
  pose proof (find_best_images_are_the_best (fun _ => true) "/cache"
                ["wal"; "colorthief"] demo_cache_fname (fun _ => false)
                (fun _ => Raise OSError)
                (fun img light backend cache_dir sat =>
                   if String.eqb backend "wal" then Raise OSError
                   else Ret demo_scheme)
                (@rev string) (fun _ => ["a.png"; "b.png"]) (fun _ => [])
                (fun images => take 20 images) 7 "/pics" 1 false []
                ProcStats.fresh H) as Hbest.
  change (find_best_images (fun _ => true) "/cache" ["wal"; "colorthief"]
            demo_cache_fname (fun _ => false) (fun _ => Raise OSError)
            (fun img light backend cache_dir sat =>
               if String.eqb backend "wal" then Raise OSError
               else Ret demo_scheme)
            (@rev string) (fun _ => ["a.png"; "b.png"]) (fun _ => [])
            (fun images => take 20 images) 7 "/pics" 1 false []
            ProcStats.fresh) with (demo_best 1) in Hbest.
  destruct (fst (demo_best 1)) as [best|e].
  - exists best. split; [reflexivity|]. by destruct Hbest as [Hlen _].
  - exfalso. vm_compute in Hbest. discriminate Hbest.
Defined.

Lemma export_cache_info_hit_rate_witness :
  counters_nonneg (stats healthy_cache)
  ∧ ∃ info,
      fst (export_cache_info "3.8.0" "1.1.0" 80 None
             (run_all quiet_history healthy_cache))
      = (Ret true, Some info)
      ∧ (0 <= info_hit_rate info)%Q ∧ (info_hit_rate info <= 1)%Q.
Proof.
  assert (H : counters_nonneg (stats healthy_cache))
    by (split; vm_compute; discriminate).
  split; [exact H|].
  destruct (export_cache_info_hit_rate "3.8.0" "1.1.0" 80 quiet_history
              healthy_cache H) as (info & Hinfo & Hlo & Hhi & _).
  exists info. split; [exact Hinfo|]. split; [exact Hlo | exact Hhi].
Defined.

Example export_after_quiet_history :
  (fun info => (info_total_entries info, info_hit_rate info,
                info_most_accessed info))
    <$> snd (fst (export_cache_info "3.8.0" "1.1.0" 80 None
                    (run_all quiet_history healthy_cache)))
  = Some (2, (1 # 1)%Q, [("k1", 4); ("k2", 0)]).
Proof. vm_compute. reflexivity. Qed.
